(** * mcp-fetch-page: the cookie-merging and page-extraction core of
    [mcp-server/server.js]

    A shallow embedding of the pure parts of the server: the domain rule
    resolver, the credential store (merge and per-domain expiry check),
    the body normalisation and login-wall detection of the content
    extractor, and the naming scheme of the page store; then the lookup of
    one domain's snapshot file, the expiry check over all domains, the
    cookies and the localStorage handed to the page, the extracted HTML,
    the scroll loop and the data directory.

    Conventions of the embedding.
    - A JavaScript string is a [string] holding its UTF-8 bytes; a string
      with an unpaired surrogate has no such form and is not represented.
      Case mapping ([toLowerCase]) is the default case conversion of
      Unicode, white space ([trim], [\s]) the white space and the line
      terminators of ECMAScript.
    - A plain object used as a dictionary is read the way JavaScript reads
      it: an own property first, otherwise the member inherited from
      [Object.prototype].  When a function of the server starts,
      [Object.prototype] and the built-in functions are as the language
      defines them.  One statement of the server can reach them, the
      [Object.assign] of the merge; a scan in which it does has the outcome
      [AssignsToBuiltin], and what the process does from there on is not
      described.
    - What the runtime supplies ([new URL], the clock, the directory
      listing with the parsed content of each file, whether the operating
      system carries out a write) is an input.
    - A number of a snapshot file is given by the rational it is written
      as; [JSON.parse] makes it the nearest double, and products are those
      of double arithmetic. *)

From Stdlib Require Import Ascii QArith Floats.SpecFloat.
From stdpp Require Import base list strings gmap pretty.

Local Open Scope string_scope.

#[local] Set Warnings "-register-all,-clear-no-such-hyp".

(** ** Strings *)

Module Str.

Definition newline : ascii := Ascii.ascii_of_nat 10.

Definition is_newline (c : ascii) : bool := Ascii.eqb c newline.

(** [String.prototype.startsWith] *)
Fixpoint startsWith (s p : string) : bool :=
  match p, s with
  | EmptyString, _ => true
  | String _ _, EmptyString => false
  | String a p', String b s' => Ascii.eqb a b && startsWith s' p'
  end.

(** [String.prototype.includes]: [p] occurs in [s] at some offset. *)
Fixpoint includes (s p : string) : bool :=
  startsWith s p ||
  match s with
  | EmptyString => false
  | String _ s' => includes s' p
  end.

(** [String.prototype.endsWith]: [p] occurs in [s] at offset
    [length s - length p]. *)
Fixpoint endsWith (s p : string) : bool :=
  String.eqb s p ||
  match s with
  | EmptyString => false
  | String _ s' => endsWith s' p
  end.

(** The lower case of an ASCII character: [A]-[Z] go to [a]-[z]. *)
Definition lower_char (c : ascii) : ascii :=
  let n := nat_of_ascii c in
  if (65 <=? n)%nat && (n <=? 90)%nat then ascii_of_nat (n + 32) else c.

(** *** Code points

    A string holds the UTF-8 bytes of a JavaScript string.  [decode]
    reads the code points; a byte that starts no well-formed sequence is
    kept as a value above the code points, and [encode] writes it back. *)

Definition continuation (b : N) : bool := ((128 <=? b) && (b <=? 191))%N.

Definition twoBytes (a b : N) : bool :=
  ((194 <=? a) && (a <=? 223))%N && continuation b.

Definition threeBytes (a b c : N) : bool :=
  ((a =? 224)%N && ((160 <=? b) && (b <=? 191))%N && continuation c)
  || (((225 <=? a) && (a <=? 236))%N && continuation b && continuation c)
  || ((a =? 237)%N && ((128 <=? b) && (b <=? 159))%N && continuation c)
  || (((238 <=? a) && (a <=? 239))%N && continuation b && continuation c).

Definition fourBytes (a b c d : N) : bool :=
  ((a =? 240)%N && ((144 <=? b) && (b <=? 191))%N && continuation c && continuation d)
  || (((241 <=? a) && (a <=? 243))%N && continuation b && continuation c && continuation d)
  || ((a =? 244)%N && ((128 <=? b) && (b <=? 143))%N && continuation c && continuation d).

Definition strayByte (a : N) : N := (1114112 + a)%N.

Fixpoint decode (s : string) : list N :=
  match s with
  | EmptyString => []
  | String a r1 =>
      let a' := N_of_ascii a in
      if (a' <? 128)%N then a' :: decode r1
      else
        match r1 with
        | EmptyString => [strayByte a']
        | String b r2 =>
            let b' := N_of_ascii b in
            if twoBytes a' b' then ((a' - 192) * 64 + (b' - 128))%N :: decode r2
            else
              match r2 with
              | EmptyString => strayByte a' :: decode r1
              | String c r3 =>
                  let c' := N_of_ascii c in
                  if threeBytes a' b' c'
                  then ((a' - 224) * 4096 + (b' - 128) * 64 + (c' - 128))%N :: decode r3
                  else
                    match r3 with
                    | EmptyString => strayByte a' :: decode r1
                    | String d r4 =>
                        let d' := N_of_ascii d in
                        if fourBytes a' b' c' d'
                        then ((a' - 240) * 262144 + (b' - 128) * 4096
                              + (c' - 128) * 64 + (d' - 128))%N :: decode r4
                        else strayByte a' :: decode r1
                    end
              end
        end
  end.

Definition byteString (codes : list N) : string :=
  fold_right (λ n s, String (ascii_of_N n) s) EmptyString codes.

Definition encodePoint (c : N) : string :=
  if (c <? 128)%N then byteString [c]
  else if (c <? 2048)%N then byteString [192 + c / 64; 128 + c mod 64]%N
  else if (c <? 65536)%N
  then byteString [224 + c / 4096; 128 + (c / 64) mod 64; 128 + c mod 64]%N
  else if (c <? 1114112)%N
  then byteString [240 + c / 262144; 128 + (c / 4096) mod 64;
                   128 + (c / 64) mod 64; 128 + c mod 64]%N
  else byteString [c - 1114112]%N.

Fixpoint encode (points : list N) : string :=
  match points with
  | [] => EmptyString
  | c :: rest => encodePoint c +:+ encode rest
  end.

(** *** Lower case

    [String.prototype.toLowerCase]: the default case conversion of
    Unicode, which does not depend on a language.  The tables are those of
    Unicode 14.0: [lowerRanges] lists the code points with a lower case of
    one code point, as (first, last, step, offset); U+0130 alone has one
    of two; [caseIgnorableRanges] and [casedRanges] list the characters
    that are case-ignorable and those that are cased without being
    case-ignorable, for the context of the final sigma. *)

Definition lowerRanges : list (N * N * N * Z) :=
  [
    (65, 90, 1, 32%Z); (192, 214, 1, 32%Z); (216, 222, 1, 32%Z); (256, 302, 2, 1%Z);
    (306, 310, 2, 1%Z); (313, 327, 2, 1%Z); (330, 374, 2, 1%Z); (376, 376, 1, (-121)%Z);
    (377, 381, 2, 1%Z); (385, 385, 1, 210%Z); (386, 388, 2, 1%Z); (390, 390, 1, 206%Z);
    (391, 391, 1, 1%Z); (393, 394, 1, 205%Z); (395, 395, 1, 1%Z); (398, 398, 1, 79%Z);
    (399, 399, 1, 202%Z); (400, 400, 1, 203%Z); (401, 401, 1, 1%Z); (403, 403, 1, 205%Z);
    (404, 404, 1, 207%Z); (406, 406, 1, 211%Z); (407, 407, 1, 209%Z); (408, 408, 1, 1%Z);
    (412, 412, 1, 211%Z); (413, 413, 1, 213%Z); (415, 415, 1, 214%Z); (416, 420, 2, 1%Z);
    (422, 422, 1, 218%Z); (423, 423, 1, 1%Z); (425, 425, 1, 218%Z); (428, 428, 1, 1%Z);
    (430, 430, 1, 218%Z); (431, 431, 1, 1%Z); (433, 434, 1, 217%Z); (435, 437, 2, 1%Z);
    (439, 439, 1, 219%Z); (440, 440, 1, 1%Z); (444, 444, 1, 1%Z); (452, 452, 1, 2%Z);
    (453, 453, 1, 1%Z); (455, 455, 1, 2%Z); (456, 456, 1, 1%Z); (458, 458, 1, 2%Z);
    (459, 475, 2, 1%Z); (478, 494, 2, 1%Z); (497, 497, 1, 2%Z); (498, 500, 2, 1%Z);
    (502, 502, 1, (-97)%Z); (503, 503, 1, (-56)%Z); (504, 542, 2, 1%Z); (544, 544, 1, (-130)%Z);
    (546, 562, 2, 1%Z); (570, 570, 1, 10795%Z); (571, 571, 1, 1%Z); (573, 573, 1, (-163)%Z);
    (574, 574, 1, 10792%Z); (577, 577, 1, 1%Z); (579, 579, 1, (-195)%Z); (580, 580, 1, 69%Z);
    (581, 581, 1, 71%Z); (582, 590, 2, 1%Z); (880, 882, 2, 1%Z); (886, 886, 1, 1%Z);
    (895, 895, 1, 116%Z); (902, 902, 1, 38%Z); (904, 906, 1, 37%Z); (908, 908, 1, 64%Z);
    (910, 911, 1, 63%Z); (913, 929, 1, 32%Z); (931, 939, 1, 32%Z); (975, 975, 1, 8%Z);
    (984, 1006, 2, 1%Z); (1012, 1012, 1, (-60)%Z); (1015, 1015, 1, 1%Z); (1017, 1017, 1, (-7)%Z);
    (1018, 1018, 1, 1%Z); (1021, 1023, 1, (-130)%Z); (1024, 1039, 1, 80%Z); (1040, 1071, 1, 32%Z);
    (1120, 1152, 2, 1%Z); (1162, 1214, 2, 1%Z); (1216, 1216, 1, 15%Z); (1217, 1229, 2, 1%Z);
    (1232, 1326, 2, 1%Z); (1329, 1366, 1, 48%Z); (4256, 4293, 1, 7264%Z); (4295, 4295, 1, 7264%Z);
    (4301, 4301, 1, 7264%Z); (5024, 5103, 1, 38864%Z); (5104, 5109, 1, 8%Z); (7312, 7354, 1, (-3008)%Z);
    (7357, 7359, 1, (-3008)%Z); (7680, 7828, 2, 1%Z); (7838, 7838, 1, (-7615)%Z); (7840, 7934, 2, 1%Z);
    (7944, 7951, 1, (-8)%Z); (7960, 7965, 1, (-8)%Z); (7976, 7983, 1, (-8)%Z); (7992, 7999, 1, (-8)%Z);
    (8008, 8013, 1, (-8)%Z); (8025, 8031, 2, (-8)%Z); (8040, 8047, 1, (-8)%Z); (8072, 8079, 1, (-8)%Z);
    (8088, 8095, 1, (-8)%Z); (8104, 8111, 1, (-8)%Z); (8120, 8121, 1, (-8)%Z); (8122, 8123, 1, (-74)%Z);
    (8124, 8124, 1, (-9)%Z); (8136, 8139, 1, (-86)%Z); (8140, 8140, 1, (-9)%Z); (8152, 8153, 1, (-8)%Z);
    (8154, 8155, 1, (-100)%Z); (8168, 8169, 1, (-8)%Z); (8170, 8171, 1, (-112)%Z); (8172, 8172, 1, (-7)%Z);
    (8184, 8185, 1, (-128)%Z); (8186, 8187, 1, (-126)%Z); (8188, 8188, 1, (-9)%Z); (8486, 8486, 1, (-7517)%Z);
    (8490, 8490, 1, (-8383)%Z); (8491, 8491, 1, (-8262)%Z); (8498, 8498, 1, 28%Z); (8544, 8559, 1, 16%Z);
    (8579, 8579, 1, 1%Z); (9398, 9423, 1, 26%Z); (11264, 11311, 1, 48%Z); (11360, 11360, 1, 1%Z);
    (11362, 11362, 1, (-10743)%Z); (11363, 11363, 1, (-3814)%Z); (11364, 11364, 1, (-10727)%Z); (11367, 11371, 2, 1%Z);
    (11373, 11373, 1, (-10780)%Z); (11374, 11374, 1, (-10749)%Z); (11375, 11375, 1, (-10783)%Z); (11376, 11376, 1, (-10782)%Z);
    (11378, 11378, 1, 1%Z); (11381, 11381, 1, 1%Z); (11390, 11391, 1, (-10815)%Z); (11392, 11490, 2, 1%Z);
    (11499, 11501, 2, 1%Z); (11506, 11506, 1, 1%Z); (42560, 42604, 2, 1%Z); (42624, 42650, 2, 1%Z);
    (42786, 42798, 2, 1%Z); (42802, 42862, 2, 1%Z); (42873, 42875, 2, 1%Z); (42877, 42877, 1, (-35332)%Z);
    (42878, 42886, 2, 1%Z); (42891, 42891, 1, 1%Z); (42893, 42893, 1, (-42280)%Z); (42896, 42898, 2, 1%Z);
    (42902, 42920, 2, 1%Z); (42922, 42922, 1, (-42308)%Z); (42923, 42923, 1, (-42319)%Z); (42924, 42924, 1, (-42315)%Z);
    (42925, 42925, 1, (-42305)%Z); (42926, 42926, 1, (-42308)%Z); (42928, 42928, 1, (-42258)%Z); (42929, 42929, 1, (-42282)%Z);
    (42930, 42930, 1, (-42261)%Z); (42931, 42931, 1, 928%Z); (42932, 42946, 2, 1%Z); (42948, 42948, 1, (-48)%Z);
    (42949, 42949, 1, (-42307)%Z); (42950, 42950, 1, (-35384)%Z); (42951, 42953, 2, 1%Z); (42960, 42960, 1, 1%Z);
    (42966, 42968, 2, 1%Z); (42997, 42997, 1, 1%Z); (65313, 65338, 1, 32%Z); (66560, 66599, 1, 40%Z);
    (66736, 66771, 1, 40%Z); (66928, 66964, 2, 39%Z); (66929, 66938, 1, 39%Z); (66941, 66954, 1, 39%Z);
    (66957, 66962, 1, 39%Z); (66965, 66965, 1, 39%Z); (68736, 68786, 1, 64%Z); (71840, 71871, 1, 32%Z);
    (93760, 93791, 1, 32%Z); (125184, 125217, 1, 34%Z) ]%N.

Definition caseIgnorableRanges : list (N * N) :=
  [
    (39, 39); (46, 46); (58, 58); (94, 94); (96, 96); (168, 168);
    (173, 173); (175, 175); (180, 180); (183, 184); (688, 879); (884, 885);
    (890, 890); (900, 901); (903, 903); (1155, 1161); (1369, 1369); (1375, 1375);
    (1425, 1469); (1471, 1471); (1473, 1474); (1476, 1477); (1479, 1479); (1524, 1524);
    (1536, 1541); (1552, 1562); (1564, 1564); (1600, 1600); (1611, 1631); (1648, 1648);
    (1750, 1757); (1759, 1768); (1770, 1773); (1807, 1807); (1809, 1809); (1840, 1866);
    (1958, 1968); (2027, 2037); (2042, 2042); (2045, 2045); (2070, 2093); (2137, 2139);
    (2184, 2184); (2192, 2193); (2200, 2207); (2249, 2306); (2362, 2362); (2364, 2364);
    (2369, 2376); (2381, 2381); (2385, 2391); (2402, 2403); (2417, 2417); (2433, 2433);
    (2492, 2492); (2497, 2500); (2509, 2509); (2530, 2531); (2558, 2558); (2561, 2562);
    (2620, 2620); (2625, 2626); (2631, 2632); (2635, 2637); (2641, 2641); (2672, 2673);
    (2677, 2677); (2689, 2690); (2748, 2748); (2753, 2757); (2759, 2760); (2765, 2765);
    (2786, 2787); (2810, 2815); (2817, 2817); (2876, 2876); (2879, 2879); (2881, 2884);
    (2893, 2893); (2901, 2902); (2914, 2915); (2946, 2946); (3008, 3008); (3021, 3021);
    (3072, 3072); (3076, 3076); (3132, 3132); (3134, 3136); (3142, 3144); (3146, 3149);
    (3157, 3158); (3170, 3171); (3201, 3201); (3260, 3260); (3263, 3263); (3270, 3270);
    (3276, 3277); (3298, 3299); (3328, 3329); (3387, 3388); (3393, 3396); (3405, 3405);
    (3426, 3427); (3457, 3457); (3530, 3530); (3538, 3540); (3542, 3542); (3633, 3633);
    (3636, 3642); (3654, 3662); (3761, 3761); (3764, 3772); (3782, 3782); (3784, 3789);
    (3864, 3865); (3893, 3893); (3895, 3895); (3897, 3897); (3953, 3966); (3968, 3972);
    (3974, 3975); (3981, 3991); (3993, 4028); (4038, 4038); (4141, 4144); (4146, 4151);
    (4153, 4154); (4157, 4158); (4184, 4185); (4190, 4192); (4209, 4212); (4226, 4226);
    (4229, 4230); (4237, 4237); (4253, 4253); (4348, 4348); (4957, 4959); (5906, 5908);
    (5938, 5939); (5970, 5971); (6002, 6003); (6068, 6069); (6071, 6077); (6086, 6086);
    (6089, 6099); (6103, 6103); (6109, 6109); (6155, 6159); (6211, 6211); (6277, 6278);
    (6313, 6313); (6432, 6434); (6439, 6440); (6450, 6450); (6457, 6459); (6679, 6680);
    (6683, 6683); (6742, 6742); (6744, 6750); (6752, 6752); (6754, 6754); (6757, 6764);
    (6771, 6780); (6783, 6783); (6823, 6823); (6832, 6862); (6912, 6915); (6964, 6964);
    (6966, 6970); (6972, 6972); (6978, 6978); (7019, 7027); (7040, 7041); (7074, 7077);
    (7080, 7081); (7083, 7085); (7142, 7142); (7144, 7145); (7149, 7149); (7151, 7153);
    (7212, 7219); (7222, 7223); (7288, 7293); (7376, 7378); (7380, 7392); (7394, 7400);
    (7405, 7405); (7412, 7412); (7416, 7417); (7468, 7530); (7544, 7544); (7579, 7679);
    (8125, 8125); (8127, 8129); (8141, 8143); (8157, 8159); (8173, 8175); (8189, 8190);
    (8203, 8207); (8216, 8217); (8228, 8228); (8231, 8231); (8234, 8238); (8288, 8292);
    (8294, 8303); (8305, 8305); (8319, 8319); (8336, 8348); (8400, 8432); (11388, 11389);
    (11503, 11505); (11631, 11631); (11647, 11647); (11744, 11775); (11823, 11823); (12293, 12293);
    (12330, 12333); (12337, 12341); (12347, 12347); (12441, 12446); (12540, 12542); (40981, 40981);
    (42232, 42237); (42508, 42508); (42607, 42610); (42612, 42621); (42623, 42623); (42652, 42655);
    (42736, 42737); (42752, 42785); (42864, 42864); (42888, 42890); (42994, 42996); (43000, 43001);
    (43010, 43010); (43014, 43014); (43019, 43019); (43045, 43046); (43052, 43052); (43204, 43205);
    (43232, 43249); (43263, 43263); (43302, 43309); (43335, 43345); (43392, 43394); (43443, 43443);
    (43446, 43449); (43452, 43453); (43471, 43471); (43493, 43494); (43561, 43566); (43569, 43570);
    (43573, 43574); (43587, 43587); (43596, 43596); (43632, 43632); (43644, 43644); (43696, 43696);
    (43698, 43700); (43703, 43704); (43710, 43711); (43713, 43713); (43741, 43741); (43756, 43757);
    (43763, 43764); (43766, 43766); (43867, 43871); (43881, 43883); (44005, 44005); (44008, 44008);
    (44013, 44013); (64286, 64286); (64434, 64450); (65024, 65039); (65043, 65043); (65056, 65071);
    (65106, 65106); (65109, 65109); (65279, 65279); (65287, 65287); (65294, 65294); (65306, 65306);
    (65342, 65342); (65344, 65344); (65392, 65392); (65438, 65439); (65507, 65507); (65529, 65531);
    (66045, 66045); (66272, 66272); (66422, 66426); (67456, 67461); (67463, 67504); (67506, 67514);
    (68097, 68099); (68101, 68102); (68108, 68111); (68152, 68154); (68159, 68159); (68325, 68326);
    (68900, 68903); (69291, 69292); (69446, 69456); (69506, 69509); (69633, 69633); (69688, 69702);
    (69744, 69744); (69747, 69748); (69759, 69761); (69811, 69814); (69817, 69818); (69821, 69821);
    (69826, 69826); (69837, 69837); (69888, 69890); (69927, 69931); (69933, 69940); (70003, 70003);
    (70016, 70017); (70070, 70078); (70089, 70092); (70095, 70095); (70191, 70193); (70196, 70196);
    (70198, 70199); (70206, 70206); (70367, 70367); (70371, 70378); (70400, 70401); (70459, 70460);
    (70464, 70464); (70502, 70508); (70512, 70516); (70712, 70719); (70722, 70724); (70726, 70726);
    (70750, 70750); (70835, 70840); (70842, 70842); (70847, 70848); (70850, 70851); (71090, 71093);
    (71100, 71101); (71103, 71104); (71132, 71133); (71219, 71226); (71229, 71229); (71231, 71232);
    (71339, 71339); (71341, 71341); (71344, 71349); (71351, 71351); (71453, 71455); (71458, 71461);
    (71463, 71467); (71727, 71735); (71737, 71738); (71995, 71996); (71998, 71998); (72003, 72003);
    (72148, 72151); (72154, 72155); (72160, 72160); (72193, 72202); (72243, 72248); (72251, 72254);
    (72263, 72263); (72273, 72278); (72281, 72283); (72330, 72342); (72344, 72345); (72752, 72758);
    (72760, 72765); (72767, 72767); (72850, 72871); (72874, 72880); (72882, 72883); (72885, 72886);
    (73009, 73014); (73018, 73018); (73020, 73021); (73023, 73029); (73031, 73031); (73104, 73105);
    (73109, 73109); (73111, 73111); (73459, 73460); (78896, 78904); (92912, 92916); (92976, 92982);
    (92992, 92995); (94031, 94031); (94095, 94111); (94176, 94177); (94179, 94180); (110576, 110579);
    (110581, 110587); (110589, 110590); (113821, 113822); (113824, 113827); (118528, 118573); (118576, 118598);
    (119143, 119145); (119155, 119170); (119173, 119179); (119210, 119213); (119362, 119364); (121344, 121398);
    (121403, 121452); (121461, 121461); (121476, 121476); (121499, 121503); (121505, 121519); (122880, 122886);
    (122888, 122904); (122907, 122913); (122915, 122916); (122918, 122922); (123184, 123197); (123566, 123566);
    (123628, 123631); (125136, 125142); (125252, 125259); (127995, 127999); (917505, 917505); (917536, 917631);
    (917760, 917999) ]%N.

Definition casedRanges : list (N * N) :=
  [
    (65, 90); (97, 122); (170, 170); (181, 181); (186, 186); (192, 214);
    (216, 246); (248, 442); (444, 447); (452, 659); (661, 687); (880, 883);
    (886, 887); (891, 893); (895, 895); (902, 902); (904, 906); (908, 908);
    (910, 929); (931, 1013); (1015, 1153); (1162, 1327); (1329, 1366); (1376, 1416);
    (4256, 4293); (4295, 4295); (4301, 4301); (4304, 4346); (4349, 4351); (5024, 5109);
    (5112, 5117); (7296, 7304); (7312, 7354); (7357, 7359); (7424, 7467); (7531, 7543);
    (7545, 7578); (7680, 7957); (7960, 7965); (7968, 8005); (8008, 8013); (8016, 8023);
    (8025, 8025); (8027, 8027); (8029, 8029); (8031, 8061); (8064, 8116); (8118, 8124);
    (8126, 8126); (8130, 8132); (8134, 8140); (8144, 8147); (8150, 8155); (8160, 8172);
    (8178, 8180); (8182, 8188); (8450, 8450); (8455, 8455); (8458, 8467); (8469, 8469);
    (8473, 8477); (8484, 8484); (8486, 8486); (8488, 8488); (8490, 8493); (8495, 8500);
    (8505, 8505); (8508, 8511); (8517, 8521); (8526, 8526); (8544, 8575); (8579, 8580);
    (9398, 9449); (11264, 11387); (11390, 11492); (11499, 11502); (11506, 11507); (11520, 11557);
    (11559, 11559); (11565, 11565); (42560, 42605); (42624, 42651); (42786, 42863); (42865, 42887);
    (42891, 42894); (42896, 42954); (42960, 42961); (42963, 42963); (42965, 42969); (42997, 42998);
    (43002, 43002); (43824, 43866); (43872, 43880); (43888, 43967); (64256, 64262); (64275, 64279);
    (65313, 65338); (65345, 65370); (66560, 66639); (66736, 66771); (66776, 66811); (66928, 66938);
    (66940, 66954); (66956, 66962); (66964, 66965); (66967, 66977); (66979, 66993); (66995, 67001);
    (67003, 67004); (68736, 68786); (68800, 68850); (71840, 71903); (93760, 93823); (119808, 119892);
    (119894, 119964); (119966, 119967); (119970, 119970); (119973, 119974); (119977, 119980); (119982, 119993);
    (119995, 119995); (119997, 120003); (120005, 120069); (120071, 120074); (120077, 120084); (120086, 120092);
    (120094, 120121); (120123, 120126); (120128, 120132); (120134, 120134); (120138, 120144); (120146, 120485);
    (120488, 120512); (120514, 120538); (120540, 120570); (120572, 120596); (120598, 120628); (120630, 120654);
    (120656, 120686); (120688, 120712); (120714, 120744); (120746, 120770); (120772, 120779); (122624, 122633);
    (122635, 122654); (125184, 125251); (127280, 127305); (127312, 127337); (127344, 127369) ]%N.

Definition inRanges (c : N) (ranges : list (N * N)) : bool :=
  existsb (λ range, (range.1 <=? c)%N && (c <=? range.2)%N) ranges.

Definition caseIgnorable (c : N) : bool := inRanges c caseIgnorableRanges.

Definition cased (c : N) : bool := inRanges c casedRanges.

Definition lowerPoint (c : N) : list N :=
  if (c <? 128)%N then [N_of_ascii (lower_char (ascii_of_N c))]
  else if (c =? 304)%N then [105; 775]%N
  else
    match List.find (λ '(first, last, step, _),
                       (first <=? c)%N && (c <=? last)%N && ((c - first) mod step =? 0)%N)
                    lowerRanges with
    | Some (_, _, _, offset) => [Z.to_N (Z.of_N c + offset)]
    | None => [c]
    end.

(** Whether a cased letter follows, case-ignorable characters apart. *)
Fixpoint followedByCased (points : list N) : bool :=
  match points with
  | [] => false
  | c :: rest => if caseIgnorable c then followedByCased rest else cased c
  end.

(** [afterCased] tells whether a cased letter precedes, case-ignorable
    characters apart.  A capital sigma (U+03A3) in that place that no
    cased letter follows becomes the final sigma (U+03C2), any other the
    small sigma (U+03C3). *)
Fixpoint lowerPoints (afterCased : bool) (points : list N) : list N :=
  match points with
  | [] => []
  | c :: rest =>
      ((if (c =? 931)%N
        then [if afterCased && negb (followedByCased rest) then 962 else 963]%N
        else lowerPoint c)
       ++ lowerPoints (if caseIgnorable c then afterCased else cased c) rest)%list
  end.

Definition toLowerCase (s : string) : string :=
  encode (lowerPoints false (decode s)).

(** [s.replace(/^p/, '')] for a literal prefix [p]: [Some] of the rest
    when the prefix is there. *)
Fixpoint stripPrefix (p s : string) : option string :=
  match p, s with
  | EmptyString, _ => Some s
  | String _ _, EmptyString => None
  | String a p', String b s' =>
      if Ascii.eqb a b then stripPrefix p' s' else None
  end.

Definition removePrefix (p s : string) : string :=
  default s (stripPrefix p s).

(** The characters of [\s] and of [trim], the white space and the line
    terminators of ECMAScript, each by the bytes of its UTF-8 form: TAB,
    LF, VT, FF, CR, space, U+00A0, U+1680, U+2000 to U+200A, U+2028,
    U+2029, U+202F, U+205F, U+3000 and U+FEFF. *)
Definition whiteSpace : list string :=
  byteString <$>
    [ [9]; [10]; [11]; [12]; [13]; [32]; [194; 160]; [225; 154; 128];
      [226; 128; 128]; [226; 128; 129]; [226; 128; 130]; [226; 128; 131];
      [226; 128; 132]; [226; 128; 133]; [226; 128; 134]; [226; 128; 135];
      [226; 128; 136]; [226; 128; 137]; [226; 128; 138];
      [226; 128; 168]; [226; 128; 169]; [226; 128; 175]; [226; 129; 159];
      [227; 128; 128]; [239; 187; 191] ]%N.

Definition isWhiteSpace (char : string) : bool :=
  existsb (String.eqb char) whiteSpace.

(** The string without the white-space character it starts with, if it
    starts with one. *)
Definition leadingSpace (s : string) : option string :=
  match s with
  | EmptyString => None
  | String a r1 =>
      if isWhiteSpace (String a "") then Some r1
      else
        match r1 with
        | EmptyString => None
        | String b r2 =>
            if isWhiteSpace (String a (String b "")) then Some r2
            else
              match r2 with
              | EmptyString => None
              | String c r3 =>
                  if isWhiteSpace (String a (String b (String c ""))) then Some r3
                  else None
              end
        end
  end.

Fixpoint trimStart (s : string) : string :=
  match s with
  | EmptyString => s
  | String a r1 =>
      if isWhiteSpace (String a "") then trimStart r1
      else
        match r1 with
        | EmptyString => s
        | String b r2 =>
            if isWhiteSpace (String a (String b "")) then trimStart r2
            else
              match r2 with
              | EmptyString => s
              | String c r3 =>
                  if isWhiteSpace (String a (String b (String c ""))) then trimStart r3
                  else s
              end
        end
  end.

(** The end is trimmed from the right: once what follows a byte is
    trimmed, the byte goes too when, with what is left, it is one
    white-space character. *)
Fixpoint trimEnd (s : string) : string :=
  match s with
  | EmptyString => EmptyString
  | String c r =>
      let r' := trimEnd r in
      if isWhiteSpace (String c r') then EmptyString else String c r'
  end.

Definition trim (s : string) : string := trimEnd (trimStart s).

(** [\d] *)
Definition is_digit (c : ascii) : bool :=
  let n := nat_of_ascii c in (48 <=? n)%nat && (n <=? 57)%nat.

(** A line terminator of one byte: LF or CR. *)
Definition is_line_terminator (c : ascii) : bool :=
  let n := nat_of_ascii c in (n =? 10)%nat || (n =? 13)%nat.

Fixpoint forallb (f : ascii → bool) (s : string) : bool :=
  match s with
  | EmptyString => true
  | String c r => f c && forallb f r
  end.

Fixpoint map (f : ascii → ascii) (s : string) : string :=
  match s with
  | EmptyString => EmptyString
  | String c r => String (f c) (map f r)
  end.

(** The longest prefix of characters satisfying [f], and what follows. *)
Fixpoint span (f : ascii → bool) (s : string) : string * string :=
  match s with
  | EmptyString => (EmptyString, EmptyString)
  | String c r =>
      if f c then let '(a, b) := span f r in (String c a, b)
      else (EmptyString, s)
  end.

(** A literal prefix matched under the [i] flag. *)
Fixpoint stripPrefix_i (p s : string) : option string :=
  match p, s with
  | EmptyString, _ => Some s
  | String _ _, EmptyString => None
  | String a p', String b s' =>
      if Ascii.eqb (lower_char a) (lower_char b) then stripPrefix_i p' s' else None
  end.

(** JavaScript truthiness of a string. *)
Definition nonempty (s : string) : bool :=
  match s with EmptyString => false | _ => true end.

Definition startsWithNewline (s : string) : bool :=
  match s with
  | String c _ => is_newline c
  | EmptyString => false
  end.

Fixpoint endsWithNewline (s : string) : bool :=
  match s with
  | EmptyString => false
  | String c EmptyString => is_newline c
  | String _ r => endsWithNewline r
  end.

(** [n] copies of a character. *)
Fixpoint replicate (n : nat) (c : ascii) : string :=
  match n with
  | O => EmptyString
  | S n' => String c (replicate n' c)
  end.

(** Whether a string holds a line terminator, which [.] does not match:
    LF, CR, U+2028 or U+2029. *)
Definition hasLineTerminator (s : string) : bool :=
  negb (forallb (λ c, negb (is_line_terminator c)) s)
  || includes s (byteString [226; 128; 168]%N)
  || includes s (byteString [226; 128; 169]%N).

(** [s.replace(p, '')] for a pattern [p] that is a string: the first
    occurrence of [p] is removed. *)
Fixpoint removeFirst (p s : string) : string :=
  match stripPrefix p s with
  | Some rest => rest
  | None =>
      match s with
      | EmptyString => EmptyString
      | String c r => String c (removeFirst p r)
      end
  end.

(** [Array.prototype.join(sep)] on strings. *)
Fixpoint join (sep : string) (items : list string) : string :=
  match items with
  | [] => EmptyString
  | [x] => x
  | x :: rest => x +:+ sep +:+ join sep rest
  end.

End Str.

(** ** Content extractor: blank-line compression

    [cleanContent.bodyText.replace(/\n{3,}/g, '\n\n')].  The scan goes left
    to right; at a position where three newlines start, the greedy match
    takes the whole run and is replaced by two newlines ([inMatch] is set
    while the rest of that run is consumed); any other character is
    copied. *)

Definition starts_two_newlines (s : string) : bool :=
  match s with
  | String a (String b _) => Str.is_newline a && Str.is_newline b
  | _ => false
  end.

Fixpoint replaceNewlineRuns (inMatch : bool) (s : string) : string :=
  match s with
  | EmptyString => EmptyString
  | String c r =>
      if Str.is_newline c then
        if inMatch then replaceNewlineRuns true r
        else if starts_two_newlines r then
          String Str.newline (String Str.newline (replaceNewlineRuns true r))
        else String c (replaceNewlineRuns false r)
      else String c (replaceNewlineRuns false r)
  end.

Definition compressBodyText (bodyText : string) : string :=
  replaceNewlineRuns false bodyText.

(** ** Domain rule resolver *)

(** A parsed JSON document, as [JSON.parse] returns it.  [JObject] lists
    the own properties in the order [Object.entries] yields them. *)
Inductive json : Type :=
| JNull
| JBool (b : bool)
| JNumber (q : Q)
| JString (s : string)
| JArray (items : list json)
| JObject (props : list (string * json)).

(** [{selector, blockedIfContains}]; [None] is the [null] selector. *)
Record DomainRule : Type := mkRule {
  selector : option string;
  blockedIfContains : list string
}.

Definition emptyRule : DomainRule := mkRule None [].

(** Own property of a parsed object. *)
Fixpoint own_prop {A : Type} (k : string) (props : list (string * A)) : option A :=
  match props with
  | [] => None
  | (k', v) :: rest => if String.eqb k k' then Some v else own_prop k rest
  end.

(** [obj[k] = v] on the own properties: an existing key keeps its place,
    a new one goes last. *)
Fixpoint set_own {A : Type} (k : string) (v : A) (props : list (string * A)) :
    list (string * A) :=
  match props with
  | [] => [(k, v)]
  | (k', v') :: rest =>
      if String.eqb k k' then (k, v) :: rest else (k', v') :: set_own k v rest
  end.

(** The names every plain object inherits from [Object.prototype], apart
    from the accessor [__proto__]. *)
Definition object_prototype_members : list string :=
  [ "constructor"; "hasOwnProperty"; "isPrototypeOf"; "propertyIsEnumerable";
    "toLocaleString"; "toString"; "valueOf";
    "__defineGetter__"; "__defineSetter__"; "__lookupGetter__"; "__lookupSetter__" ].

Definition is_inherited (k : string) : bool :=
  String.eqb k "__proto__" || existsb (String.eqb k) object_prototype_members.

(** The table the resolver reads: the object literal [normalized] with the
    rules stored in it.  [proto] is [Some r] once the assignment
    [normalized["__proto__"] = r] has run: that assignment goes through the
    [__proto__] setter and makes [r] the prototype instead of storing a
    property. *)
Record RuleTable : Type := mkTable {
  own : list (string * DomainRule);
  proto : option DomainRule
}.

Definition emptyTable : RuleTable := mkTable [] None.

(** [normalized[domain] = rule] *)
Definition table_set (domain : string) (rule : DomainRule) (t : RuleTable) : RuleTable :=
  if String.eqb domain "__proto__" then mkTable (own t) (Some rule)
  else mkTable (set_own domain rule (own t)) (proto t).

(** What a property read on the table can yield. *)
Inductive jsval : Type :=
| VRule (r : DomainRule)
| VString (s : string)
| VArray (items : list string)
| VNull
| VUndefined
| VBuiltin (name : string).

Definition truthy (v : jsval) : bool :=
  match v with
  | VRule _ | VArray _ | VBuiltin _ => true
  | VString s => Str.nonempty s
  | VNull | VUndefined => false
  end.

(** [domainRules[k]]: own property, then the prototype chain. *)
Definition table_get (t : RuleTable) (k : string) : jsval :=
  match own_prop k (own t) with
  | Some r => VRule r
  | None =>
      match proto t with
      | Some r =>
          if String.eqb k "selector" then
            match selector r with Some s => VString s | None => VNull end
          else if String.eqb k "blockedIfContains" then VArray (blockedIfContains r)
          else if String.eqb k "__proto__" then VRule r
          else if is_inherited k then VBuiltin k
          else VUndefined
      | None => if is_inherited k then VBuiltin k else VUndefined
      end
  end.

(** [Object.entries(rawRules)] for a value that passed the guard
    [rawRules && typeof rawRules === 'object']. *)
Definition entries (v : json) : list (string * json) :=
  match v with
  | JObject props => props
  | JArray items => imap (fun i x => (pretty i, x)) items
  | _ => []
  end.

(** [value.blocked_if_contains.filter(item => typeof item === 'string' &&
    item.trim().length > 0)] *)
Definition keep_marker (item : json) : option string :=
  match item with
  | JString s => if Str.nonempty (Str.trim s) then Some s else None
  | _ => None
  end.

(** The rule one entry of the raw table normalises to; [None] when the
    entry is dropped. *)
Definition normalizeEntry (value : json) : option DomainRule :=
  match value with
  | JString s => Some (mkRule (Some s) [])
  | JObject props =>
      let selector :=
        match own_prop "selector" props with
        | Some (JString s) => Some s
        | _ => None
        end in
      let blockedIfContains :=
        match own_prop "blocked_if_contains" props with
        | Some (JArray items) => omap keep_marker items
        | _ => []
        end in
      Some (mkRule selector blockedIfContains)
  | JArray _ => Some (mkRule None [])
  | JNull | JBool _ | JNumber _ => None
  end.

Definition normalizeStep (normalized : RuleTable) (entry : string * json) : RuleTable :=
  let '(domain, value) := entry in
  if Str.nonempty domain then
    match normalizeEntry value with
    | Some rule => table_set domain rule normalized
    | None => normalized
    end
  else normalized.

Definition normalizeDomainRules (rawRules : json) : RuleTable :=
  fold_left normalizeStep (entries rawRules) emptyTable.

(** The result of [new URL(url)], as far as the server reads it. *)
Record URL : Type := mkURL {
  hostname : string;
  pathname : string
}.

(** [hostname.replace(/^(www\.|m\.|mobile\.)/, '')] *)
Definition stripSubdomain (hostname : string) : string :=
  match Str.stripPrefix "www." hostname with
  | Some r => r
  | None =>
      match Str.stripPrefix "m." hostname with
      | Some r => r
      | None => Str.removePrefix "mobile." hostname
      end
  end.

Section Resolver.

(** [new URL(url)]; [None] when the constructor throws. *)
Variable URL_parse : string → option URL.

(** The module-level [domainRules]. *)
Variable domainRules : RuleTable.

Definition partialMatch (hostname mainDomain : string) (entry : string * DomainRule) : bool :=
  Str.includes hostname entry.1 || Str.includes entry.1 mainDomain.

Definition getDomainRuleForUrl (url : string) : jsval :=
  match URL_parse url with
  | None => VRule emptyRule
  | Some urlObj =>
      let hostname := Str.toLowerCase (hostname urlObj) in
      if truthy (table_get domainRules hostname) then table_get domainRules hostname
      else
        let mainDomain := stripSubdomain hostname in
        if truthy (table_get domainRules mainDomain) then table_get domainRules mainDomain
        else
          match List.find (partialMatch hostname mainDomain) (own domainRules) with
          | Some (_, rule) => VRule rule
          | None => VRule emptyRule
          end
  end.

End Resolver.

(** ** Credential store *)

Module Cookie.

(** One cookie entry of a snapshot file.  A field that is missing is
    [None]; an array element that is [null] behaves as an entry without
    fields.  [expirationDate] is in seconds since the epoch. *)
Record t : Type := mk {
  name : option string;
  value : option string;
  domain : option string;
  path : option string;
  secure : bool;
  httpOnly : bool;
  sameSite : option string;
  expirationDate : option Q
}.

End Cookie.

Module Snapshot.

(** The parsed content of one snapshot file.  [cookies] is [None] when the
    field is not an array, [localStorage] is [None] when the field is not
    an object. *)
Record t : Type := mk {
  cookies : option (list Cookie.t);
  localStorage : option (gmap string string)
}.

End Snapshot.

Module Merged.

Record t : Type := mk {
  cookies : list Cookie.t;
  localStorageByDomain : gmap string (gmap string string)
}.

End Merged.

(** A file of the cookie directory: its name and what
    [loadCookiesFromFile] returns for it, [None] when the file cannot be
    read or parsed (or holds a falsy document). *)
Definition CookieFile : Type := string * option Snapshot.t.

(** Truthiness of an optional string field. *)
Definition present (field : option string) : bool :=
  match field with
  | Some s => Str.nonempty s
  | None => false
  end.

(** The text before [_cookies] when the whole name has the form
    [<prefix>_cookies<n>.json], where [<n>] is empty or [\s*\(\d+\)], the
    letters of [_cookies] and [.json] in any case.  The name is read from
    its end, where the form is anchored. *)
Definition cookieFilePrefix (file : string) : option string :=
  r1 ← Str.stripPrefix_i "nosj." (String.rev file);
  match Str.stripPrefix_i "seikooc_" r1 with
  | Some pre => Some (String.rev pre)
  | None =>
      r2 ← Str.stripPrefix ")" r1;
      let '(digits, r3) := Str.span Str.is_digit r2 in
      if Str.nonempty digits then
        r4 ← Str.stripPrefix "(" r3;
        pre ← Str.stripPrefix_i "seikooc_" (String.rev (Str.trimEnd (String.rev r4)));
        Some (String.rev pre)
      else None
  end.

(** [/_cookies(\s*\(\d+\))?\.json$/i.test(file)] *)
Definition isCookieFileName (file : string) : bool :=
  bool_decide (is_Some (cookieFilePrefix file)).

(** [listAllCookieFiles]; the directory is [None] when it does not exist. *)
Definition listAllCookieFiles (cookieDir : option (list CookieFile)) : list CookieFile :=
  match cookieDir with
  | None => []
  | Some files => List.filter (λ f, isCookieFileName f.1) files
  end.

(** The [sourceDomain] computed from a file name:
    [filename.match(/^(.*?)_cookies(\s*\(\d+\))?\.json$/i)], then
    [m[1].replace(/^www\./, '')] when [m && m[1]]. *)
Definition sourceDomain (filename : string) : option string :=
  match cookieFilePrefix filename with
  | Some m1 =>
      if negb (Str.hasLineTerminator m1) && Str.nonempty m1
      then Some (Str.removePrefix "www." m1)
      else None
  | None => None
  end.

(** [c.path || '/'] *)
Definition pathVal (c : Cookie.t) : string :=
  match Cookie.path c with
  | Some p => if Str.nonempty p then p else "/"
  | None => "/"
  end.

(** [`${c.name}|${c.domain}|${pathVal}`] *)
Definition cookieKey (c : Cookie.t) : string :=
  default "" (Cookie.name c) +:+ "|" +:+ default "" (Cookie.domain c) +:+ "|" +:+ pathVal c.

(** [{ ...c, path: pathVal }] *)
Definition withPath (c : Cookie.t) : Cookie.t :=
  Cookie.mk (Cookie.name c) (Cookie.value c) (Cookie.domain c) (Some (pathVal c))
    (Cookie.secure c) (Cookie.httpOnly c) (Cookie.sameSite c) (Cookie.expirationDate c).

(** [!c || !c.name || !c.value || !c.domain] is false. *)
Definition validCookie (c : Cookie.t) : bool :=
  present (Cookie.name c) && present (Cookie.value c) && present (Cookie.domain c).

(** What a scan comes to.  It returns; or [Object.assign] was given
    [Object.prototype] or a built-in function as its target together with a
    source that has a key to assign: it writes the key there, or throws on
    a property that cannot be written after the keys before it, and the
    scan is followed no further. *)
Inductive Run (A : Type) : Type :=
| Returns (a : A)
| AssignsToBuiltin.

Arguments Returns {A} a.
Arguments AssignsToBuiltin {A}.

(** The state of the merge loop. *)
Record MergeState : Type := mkState {
  merged : Merged.t;
  seenKeys : gset string
}.

Definition initialState : MergeState := mkState (Merged.mk [] ∅) ∅.

(** The body of [for (const c of cookies)]. *)
Definition mergeCookie (st : MergeState) (c : Cookie.t) : MergeState :=
  if validCookie c then
    if bool_decide (cookieKey c ∈ seenKeys st) then st
    else
      mkState
        (Merged.mk (Merged.cookies (merged st) ++ [withPath c])
                   (Merged.localStorageByDomain (merged st)))
        ({[ cookieKey c ]} ∪ seenKeys st)
  else st.

(** [Object.assign(target, source)] on string values.  Each own key of
    the source is assigned to the target; the key [__proto__] reaches the
    inherited setter, which ignores a string. *)
Definition assign (target source : gmap string string) : gmap string string :=
  delete "__proto__" source ∪ target.

(** The [localStorage] part of the loop body, for a truthy
    [sourceDomain].  The read [localStorageByDomain[sourceDomain]] finds the
    bucket of that name; without one, a name that every object inherits
    reads [Object.prototype] (for [__proto__]) or a built-in function, so
    that no bucket is made and [Object.assign] has that object for its
    target; nothing is assigned when the source has no key but
    [__proto__]. *)
Definition mergeLocalStorage (sourceDomain : string) (ls : gmap string string)
    (byDomain : gmap string (gmap string string)) :
    Run (gmap string (gmap string string)) :=
  match byDomain !! sourceDomain with
  | Some bucket => Returns (<[ sourceDomain := assign bucket ls ]> byDomain)
  | None =>
      if is_inherited sourceDomain then
        if bool_decide (delete "__proto__" ls = ∅) then Returns byDomain
        else AssignsToBuiltin
      else Returns (<[ sourceDomain := assign ∅ ls ]> byDomain)
  end.

(** The body of [for (const filePath of files)]. *)
Definition mergeFile (st : MergeState) (file : CookieFile) : Run MergeState :=
  match file.2 with
  | None => Returns st
  | Some data =>
      let st1 := fold_left mergeCookie (default [] (Snapshot.cookies data)) st in
      match Snapshot.localStorage data, sourceDomain file.1 with
      | Some ls, Some d =>
          if Str.nonempty d then
            match mergeLocalStorage d ls (Merged.localStorageByDomain (merged st1)) with
            | Returns byDomain =>
                Returns (mkState (Merged.mk (Merged.cookies (merged st1)) byDomain)
                           (seenKeys st1))
            | AssignsToBuiltin => AssignsToBuiltin
            end
          else Returns st1
      | _, _ => Returns st1
      end
  end.

(** The loop from a state on. *)
Definition mergeFrom (run : Run MergeState) (files : list CookieFile) : Run MergeState :=
  fold_left (λ run file,
               match run with
               | Returns st => mergeFile st file
               | AssignsToBuiltin => AssignsToBuiltin
               end)
            files run.

Definition mergeFiles (files : list CookieFile) : Run MergeState :=
  mergeFrom (Returns initialState) files.

(** [loadAndMergeAllCookies]; [None] is [null]. *)
Definition loadAndMergeAllCookies (cookieDir : option (list CookieFile)) :
    Run (option Merged.t) :=
  let files := listAllCookieFiles cookieDir in
  if bool_decide (files = []) then Returns None
  else
    match mergeFiles files with
    | Returns st =>
        let m := merged st in
        if bool_decide (Merged.cookies m = [])
           && bool_decide (Merged.localStorageByDomain m = ∅)
        then Returns None
        else Returns (Some m)
    | AssignsToBuiltin => AssignsToBuiltin
    end.

(** *** Per-domain expiry check *)

(** The Number [JSON.parse] makes of a number written in a file: the
    double nearest to it, ties to even, zero or an infinity beyond the
    range. *)
Definition toDouble (q : Q) : spec_float :=
  match Qnum q with
  | Z0 => S754_zero false
  | Zpos n => SFdiv 53 1024 (S754_finite false n 0) (S754_finite false (Qden q) 0)
  | Zneg n => SFdiv 53 1024 (S754_finite true n 0) (S754_finite false (Qden q) 0)
  end.

(** [x * 1000] on doubles. *)
Definition times1000 (x : spec_float) : spec_float :=
  SFmul 53 1024 x (S754_finite false 1000 0).

(** The time value of [new Date(x)], in milliseconds: [x] truncated to
    an integer; [None] is the invalid date, which [x] gives when it is not
    finite or beyond 8640000000000000 either way. *)
Definition timeValue (x : spec_float) : option Z :=
  match x with
  | S754_zero _ => Some 0%Z
  | S754_finite negative m e =>
      let beyond :=
        if (0 <=? e)%Z then (8640000000000000 <? Z.pos m * 2 ^ e)%Z
        else (8640000000000000 * 2 ^ (- e) <? Z.pos m)%Z in
      let magnitude :=
        if (0 <=? e)%Z then (Z.pos m * 2 ^ e)%Z else (Z.pos m / 2 ^ (- e))%Z in
      if beyond then None
      else Some (if negative then (- magnitude)%Z else magnitude)
  | S754_infinity _ | S754_nan => None
  end.

(** [new Date(expirationDate * 1000)] *)
Definition expireTime (expirationDate : Q) : option Z :=
  timeValue (times1000 (toDouble expirationDate)).

(** [now > expireTime]; a comparison with the invalid date is false. *)
Definition isPast (now : Z) (expirationDate : Q) : bool :=
  match expireTime expirationDate with
  | Some t => (t <? now)%Z
  | None => false
  end.

(** Truthiness of a Number of a file: it is not zero. *)
Definition truthyNumber (q : Q) : bool :=
  match toDouble q with
  | S754_zero _ | S754_nan => false
  | S754_infinity _ | S754_finite _ _ _ => true
  end.

(** Truthiness of [cookie.expirationDate]: present and not zero. *)
Definition expiration (c : Cookie.t) : option Q :=
  match Cookie.expirationDate c with
  | Some q => if truthyNumber q then Some q else None
  | None => None
  end.

(** [String(hostname).toLowerCase().replace(/^www\./, '')] *)
Definition cleanHostOf (hostname : string) : string :=
  Str.removePrefix "www." (Str.toLowerCase hostname).

(** [String(cookie.domain).toLowerCase().replace(/^\./, '').replace(/^www\./, '')] *)
Definition cookieDomainOf (domain : string) : string :=
  Str.removePrefix "www." (Str.removePrefix "." (Str.toLowerCase domain)).

(** [cleanHost === cookieDomain || cleanHost.endsWith(`.${cookieDomain}`)] *)
Definition domainMatches (cleanHost cookieDomain : string) : bool :=
  String.eqb cleanHost cookieDomain || Str.endsWith cleanHost ("." +:+ cookieDomain).

Record ExpiryState : Type := mkExpiry {
  hasExpiredCookies : bool;
  expiredCount : nat;
  totalWithExpiration : nat;
  expiredCookieNames : list (option string)
}.

(** The body of [for (const cookie of cookieData.cookies)]. *)
Definition expiryStep (now : Z) (cleanHost : string) (st : ExpiryState)
    (cookie : Cookie.t) : ExpiryState :=
  match Cookie.domain cookie, expiration cookie with
  | Some d, Some e =>
      if Str.nonempty d && domainMatches cleanHost (cookieDomainOf d) then
        if isPast now e then
          mkExpiry true (S (expiredCount st)) (S (totalWithExpiration st))
            (expiredCookieNames st ++ [Cookie.name cookie])
        else
          mkExpiry (hasExpiredCookies st) (expiredCount st)
            (S (totalWithExpiration st)) (expiredCookieNames st)
      else st
  | _, _ => st
  end.

(** [isCookieExpiredForDomain(cookieData, hostname)] for a non-null
    [cookieData], evaluated at the instant [now] (milliseconds). *)
Definition isCookieExpiredForDomain (cookieData : Merged.t) (hostname : string)
    (now : Z) : bool :=
  if Str.nonempty hostname then
    let st := fold_left (expiryStep now (cleanHostOf hostname))
                (Merged.cookies cookieData) (mkExpiry false 0 0 []) in
    hasExpiredCookies st && (0 <? totalWithExpiration st)%nat
  else false.

(** Whether the loop body counts [cookie] as expired. *)
Definition expiredHere (now : Z) (cleanHost : string) (cookie : Cookie.t) : bool :=
  match Cookie.domain cookie, expiration cookie with
  | Some d, Some e =>
      Str.nonempty d && domainMatches cleanHost (cookieDomainOf d) && isPast now e
  | _, _ => false
  end.

(** ** Page store *)

(** The instant of a save, as the UTC fields [toISOString] prints. *)
Record Date : Type := mkDate {
  year : N;
  month : N;
  day : N;
  hours : N;
  minutes : N;
  seconds : N;
  milliseconds : N
}.

Definition digit (n : N) : ascii := ascii_of_N (48 + n mod 10).

(** [n] in decimal on [width] digits. *)
Fixpoint pad (width : nat) (n : N) : string :=
  match width with
  | O => EmptyString
  | S w => pad w (n / 10) +:+ String (digit n) EmptyString
  end.

(** The year of an ISO date: four digits, or a sign and six digits
    beyond 9999. *)
Definition isoYear (y : N) : string :=
  if (y <=? 9999)%N then pad 4 y else "+" +:+ pad 6 y.

(** The date part [YYYY-MM-DD]. *)
Definition isoDate (d : Date) : string :=
  isoYear (year d) +:+ "-" +:+ pad 2 (month d) +:+ "-" +:+ pad 2 (day d).

(** [Date.prototype.toISOString]: [YYYY-MM-DDTHH:mm:ss.sssZ]. *)
Definition toISOString (d : Date) : string :=
  isoDate d
  +:+ "T" +:+ pad 2 (hours d) +:+ ":" +:+ pad 2 (minutes d) +:+ ":" +:+ pad 2 (seconds d)
  +:+ "." +:+ pad 3 (milliseconds d) +:+ "Z".

(** [.replace(/[:.]/g, '-')] *)
Definition dashColonDot (c : ascii) : ascii :=
  if Ascii.eqb c ":" || Ascii.eqb c "." then "-"%char else c.

(** [.split('T')[0]]: the text before the first [T]. *)
Fixpoint beforeT (s : string) : string :=
  match s with
  | EmptyString => EmptyString
  | String c r => if Ascii.eqb c "T" then EmptyString else String c (beforeT r)
  end.

Definition timestampOf (now : Date) : string :=
  beforeT (Str.map dashColonDot (toISOString now)).

(** The class [[a-zA-Z0-9.-]]. *)
Definition keptInFileName (c : ascii) : bool :=
  let n := nat_of_ascii c in
  ((97 <=? n)%nat && (n <=? 122)%nat) || ((65 <=? n)%nat && (n <=? 90)%nat)
  || Str.is_digit c || Ascii.eqb c "." || Ascii.eqb c "-".

(** [urlObj.pathname.replace(/[^a-zA-Z0-9.-]/g, '_')] *)
Definition sanitizePath (pathname : string) : string :=
  Str.map (λ c, if keptInFileName c then c else "_"%char) pathname.

(** [`${domain}${pathname}_${timestamp}${statusSuffix}.md`] *)
Definition pageFileName (urlObj : URL) (now : Date) (isError : bool) : string :=
  hostname urlObj +:+ sanitizePath (pathname urlObj) +:+ "_" +:+ timestampOf now
  +:+ (if isError then "_ERROR" else "") +:+ ".md".

Section PageStore.

Variable URL_parse : string → option URL.

(** [PAGES_DIR] *)
Variable PAGES_DIR : string.

(** What the operating system answers when the directory is to be made
    and [content] written to a path: [None] when it carries the write out;
    [Some None] when [mkdirSync] fails or [writeFileSync] cannot open the
    file, which leaves every file as it was; [Some (Some partial)] when
    [writeFileSync] fails after the file was opened, which leaves [partial]
    in it. *)
Variable writeError : gmap string string → string → string → option (option string).

(** [savePageContent(url, content, title, isError)] on a file system
    that maps a path to the text stored there; a write replaces what the
    path held.  The result is the path, or [None] ([null]) when the URL
    does not parse or the operating system refuses the write: the source
    catches either error. *)
Definition savePageContent (fs : gmap string string) (url content title : string)
    (isError : bool) (now : Date) : option string * gmap string string :=
  match URL_parse url with
  | None => (None, fs)
  | Some urlObj =>
      let filePath := PAGES_DIR +:+ "/" +:+ pageFileName urlObj now isError in
      match writeError fs filePath content with
      | None => (Some filePath, <[ filePath := content ]> fs)
      | Some None => (None, fs)
      | Some (Some partial) => (None, <[ filePath := partial ]> fs)
      end
  end.

End PageStore.

(** ** Content extractor: login-wall detection and front matter *)

(** [.replace(/\r?\n/g, ' ')] *)
Fixpoint spaceNewlines (s : string) : string :=
  match s with
  | EmptyString => EmptyString
  | String c r =>
      if Str.is_newline c then String " " (spaceNewlines r)
      else
        match r with
        | String c' r' =>
            if Ascii.eqb c (ascii_of_nat 13) && Str.is_newline c'
            then String " " (spaceNewlines r')
            else String c (spaceNewlines r)
        | EmptyString => String c EmptyString
        end
  end.

Definition toYamlPlainString (value : string) : string :=
  Str.trim (spaceNewlines value).

(** [Array.isArray(domainRule.blockedIfContains) ? domainRule.blockedIfContains : []]
    on what the resolver returned (never [null] or [undefined]). *)
Definition markersOf (domainRule : jsval) : list string :=
  match domainRule with
  | VRule r => blockedIfContains r
  | _ => []
  end.

(** [blockedIfContains.some(marker =>
      htmlForDetection.includes(String(marker).toLowerCase()))] *)
Definition needsLoginState (content : string) (domainRule : jsval) : bool :=
  existsb (λ marker, Str.includes (Str.toLowerCase content) (Str.toLowerCase marker))
    (markersOf domainRule).

Definition cookieExpiredTips : string :=
  "页面内容受限，请使用 mcp-fetch-page chrome extension 重新保存登录态。".

Definition yamlLines (url finalUrl title content : string) (domainRule : jsval) : list string :=
  [ "---"; "title: " +:+ toYamlPlainString title; "start_url: " +:+ toYamlPlainString url ]
  ++ (if Str.nonempty finalUrl && negb (String.eqb finalUrl url)
      then [ "final_url: " +:+ toYamlPlainString finalUrl ] else [])
  ++ (if needsLoginState content domainRule
      then [ "cookie_expired_tips: " +:+ toYamlPlainString cookieExpiredTips ] else [])
  ++ [ "---"; ""; "" ].

(** [Array.prototype.join('\n')] *)
Fixpoint joinLines (lines : list string) : string :=
  match lines with
  | [] => EmptyString
  | [l] => l
  | l :: rest => l +:+ String Str.newline (joinLines rest)
  end.

(** The document [handleFetchSpaWithCookies] returns, from the page as
    captured: [content] is the raw HTML of [page.content()], [bodyText] the
    converted text. *)
Definition textContent (url finalUrl title bodyText content : string)
    (domainRule : jsval) : string :=
  joinLines (yamlLines url finalUrl title content domainRule)
  +:+ compressBodyText bodyText.

Section Fetch.

Variable URL_parse : string → option URL.
Variable domainRules : RuleTable.


Definition fetchDocument (url finalUrl title bodyText content : string) : string :=
  textContent url finalUrl title bodyText content
    (getDomainRuleForUrl URL_parse domainRules url).

End Fetch.

(** The characters of an ISO date: digits, [-] and the sign. *)
Definition isDateChar (c : ascii) : bool :=
  Str.is_digit c || Ascii.eqb c "-" || Ascii.eqb c "+".

(** The shape of a [DomainRule]: the selector is a string or [null] by
    its type; the markers are non-empty strings. *)
Definition wellShapedRule (r : DomainRule) : Prop :=
  Forall (λ marker, marker ≠ "") (blockedIfContains r).

Definition wellShaped (v : jsval) : Prop :=
  ∃ r, v = VRule r ∧ wellShapedRule r.

Definition tableShaped (t : RuleTable) : Prop :=
  Forall (λ entry, wellShapedRule entry.2) (own t)
  ∧ ∀ r, proto t = Some r → wellShapedRule r.

Section ClaimedResolver.

Variable URL_parse : string → option URL.
Variable domainRules : RuleTable.

(** The matching order as the specification words it, on the rules
    stored in the table: exact host name, host name without its
    [www.]/[m.]/[mobile.] prefix, first entry in iteration order with
    containment either way, else the empty rule. *)
Definition claimedRule (url : string) : DomainRule :=
  match URL_parse url with
  | None => emptyRule
  | Some urlObj =>
      let hostname := Str.toLowerCase (hostname urlObj) in
      let mainDomain := stripSubdomain hostname in
      match own_prop hostname (own domainRules) with
      | Some rule => rule
      | None =>
          match own_prop mainDomain (own domainRules) with
          | Some rule => rule
          | None =>
              match List.find (partialMatch hostname mainDomain) (own domainRules) with
              | Some (_, rule) => rule
              | None => emptyRule
              end
          end
      end
  end.

End ClaimedResolver.

(** *** The login-wall test, in the words of the specification *)





(** *** The merge, in the words of the specification *)

(** The cookie entries of the scan, in the order they are read. *)
Definition fileCookies (file : CookieFile) : list Cookie.t :=
  match file.2 with
  | Some data => default [] (Snapshot.cookies data)
  | None => []
  end.

Definition scannedCookies (files : list CookieFile) : list Cookie.t :=
  concat (fileCookies <$> files).

(** The identity key [(name, domain, path)], a missing path being [/]. *)
Definition identity (c : Cookie.t) : option string * option string * string :=
  (Cookie.name c, Cookie.domain c, pathVal c).

(** Of the entries that share a key, the first one only. *)
Fixpoint firstOccurrences {A K : Type} `{EqDecision K} (key : A → K) (l : list A) : list A :=
  match l with
  | [] => []
  | x :: rest =>
      x :: List.filter (λ y, negb (bool_decide (key y = key x))) (firstOccurrences key rest)
  end.

(** The loop over one list of entries with the set of keys seen so far. *)
Fixpoint firstUnseen {A K : Type} `{Countable K} (key : A → K) (seen : gset K)
    (l : list A) : list A :=
  match l with
  | [] => []
  | x :: rest =>
      if bool_decide (key x ∈ seen) then firstUnseen key seen rest
      else x :: firstUnseen key ({[ key x ]} ∪ seen) rest
  end.

(** The merged cookies as C1 states them: first occurrence of each
    identity key among all entries of the scan. *)
Definition claimedMergedCookies (files : list CookieFile) : list Cookie.t :=
  withPath <$> firstOccurrences identity (scannedCookies files).

(** No [|] in a string. *)
Definition noBar (s : string) : bool :=
  Str.forallb (λ c, negb (Ascii.eqb c "|")) s.

Definition barFree (c : Cookie.t) : Prop :=
  noBar (default "" (Cookie.name c)) = true ∧ noBar (default "" (Cookie.domain c)) = true.

(** The value stored for [key] in the bucket of [domain]. *)
Definition storedValue (m : Merged.t) (domain key : string) : option string :=
  Merged.localStorageByDomain m !! domain ≫= (.!! key).


(** A file with an entry that passes the guard on name, value and domain. *)
Definition hasValidCookie (file : CookieFile) : Prop :=
  ∃ c, c ∈ fileCookies file ∧ validCookie c = true.

(** A file for which the loop creates (or finds) a bucket: it parses, has
    a [localStorage] object and its name derives a non-empty domain that is
    no name every object inherits. *)
Definition createsBucket (file : CookieFile) : Prop :=
  ∃ data ls d,
    file.2 = Some data ∧ Snapshot.localStorage data = Some ls
    ∧ sourceDomain file.1 = Some d ∧ d ≠ "" ∧ is_inherited d = false.

(** A file at which [Object.assign] gets [Object.prototype] or a built-in
    function as its target and has a key to assign: it parses, its name
    derives a name every object inherits, and its [localStorage] object has
    a key other than [__proto__]. *)
Definition assignsToBuiltin (file : CookieFile) : bool :=
  match file.2 with
  | Some data =>
      match Snapshot.localStorage data, sourceDomain file.1 with
      | Some ls, Some d =>
          is_inherited d && negb (bool_decide (delete "__proto__" ls = ∅))
      | _, _ => false
      end
  | None => false
  end.

(** A file that holds credential material: a cookie entry accepted by the
    merge or a [localStorage] object with an entry. *)
Definition holdsMaterial (file : CookieFile) : Prop :=
  hasValidCookie file
  ∨ ∃ data ls, file.2 = Some data ∧ Snapshot.localStorage data = Some ls ∧ ls ≠ ∅.

(** Buckets joined domain by domain, the entries of the first argument
    taking precedence. *)
Definition joinBuckets (newer older : gmap string (gmap string string)) :
    gmap string (gmap string string) :=
  union_with (λ a b, Some (a ∪ b)) newer older.

(** What one file adds to the buckets. *)
Definition fileDelta (file : CookieFile) : gmap string (gmap string string) :=
  match file.2 with
  | Some data =>
      match Snapshot.localStorage data, sourceDomain file.1 with
      | Some ls, Some d =>
          if Str.nonempty d && negb (is_inherited d)
          then {[ d := delete "__proto__" ls ]} else ∅
      | _, _ => ∅
      end
  | None => ∅
  end.

(** What a scan adds to the buckets, the files read later taking
    precedence. *)
Fixpoint scanDelta (files : list CookieFile) : gmap string (gmap string string) :=
  match files with
  | [] => ∅
  | file :: rest => joinBuckets (scanDelta rest) (fileDelta file)
  end.

(** No bucket under a name that every object inherits. *)
Definition noInheritedBucket (byDomain : gmap string (gmap string string)) : Prop :=
  ∀ d, is_inherited d = true → byDomain !! d = None.

Definition snapshotOf (cookies : list Cookie.t) (localStorage : list (string * string)) :
    option Snapshot.t :=
  Some (Snapshot.mk (Some cookies) (Some (list_to_map localStorage))).

(** ** Inputs of the examples *)

(** [new URL] on the plain form [scheme://host/path] with scheme [http] or
    [https]: the host is lower-cased, an absent path is [/]. *)
Fixpoint splitHostPath (s : string) : string * string :=
  match s with
  | EmptyString => (EmptyString, "/")
  | String c r =>
      if Ascii.eqb c "/" then (EmptyString, s)
      else let '(h, p) := splitHostPath r in (String c h, p)
  end.

Definition plainURL (url : string) : option URL :=
  match Str.stripPrefix "https://" url, Str.stripPrefix "http://" url with
  | Some rest, _ | None, Some rest =>
      let '(h, p) := splitHostPath rest in
      if Str.nonempty h then Some (mkURL (Str.toLowerCase h) p) else None
  | None, None => None
  end.

(** The naming scheme as the specification words it: every character
    of the path that is not alphanumeric becomes [_]. *)
Definition is_alphanumeric (c : ascii) : bool :=
  let n := nat_of_ascii c in
  ((97 <=? n)%nat && (n <=? 122)%nat) || ((65 <=? n)%nat && (n <=? 90)%nat)
  || Str.is_digit c.

Definition claimedPageFileName (urlObj : URL) (now : Date) (isError : bool) : string :=
  hostname urlObj
  +:+ Str.map (λ c, if is_alphanumeric c then c else "_"%char) (pathname urlObj)
  +:+ "_" +:+ isoDate now +:+ (if isError then "_ERROR" else "") +:+ ".md".

Definition exampleDate : Date := mkDate 2026 11 2 9 30 15 250.

(** The expiry check as the specification words it: both sides are
    stripped of a leading dot and of a leading [www.], a cookie counts when
    it has an expiration timestamp, and it is expired when that time is
    strictly before the evaluation time. *)
Definition claimedNormalize (s : string) : string :=
  Str.removePrefix "www." (Str.removePrefix "." s).

Definition claimedDomainMatch (hostname domain : string) : bool :=
  String.eqb (claimedNormalize hostname) (claimedNormalize domain)
  || Str.endsWith (claimedNormalize hostname) ("." +:+ claimedNormalize domain).

Definition claimedExpired (cookieData : Merged.t) (hostname : string) (now : Z) : Prop :=
  ∃ cookie d e,
    cookie ∈ Merged.cookies cookieData
    ∧ Cookie.domain cookie = Some d
    ∧ Cookie.expirationDate cookie = Some e
    ∧ claimedDomainMatch hostname d = true
    ∧ (e * 1000 < inject_Z now)%Q.

Definition exampleCookie (name value domain : string) (expirationDate : option Q) : Cookie.t :=
  Cookie.mk (Some name) (Some value) (Some domain) (Some "/") false false None expirationDate.

(** ** Credential store: the snapshot file of one domain *)

(** [(\s*\(\d+\))?\.json$] on what follows the base name. *)
Definition numberedJsonSuffix (rest : string) : bool :=
  String.eqb rest ".json"
  || match Str.stripPrefix "(" (Str.trimStart rest) with
     | Some r =>
         let '(digits, r') := Str.span Str.is_digit r in
         Str.nonempty digits && String.eqb r' ").json"
     | None => false
     end.

(** [pattern.test(file)] for the pattern
    [^<baseName>(\s*\(\d+\))?\.json$], in which every character of
    [baseName] is escaped and matches itself. *)
Definition matchesBaseName (file baseName : string) : bool :=
  match Str.stripPrefix baseName file with
  | Some rest => numberedJsonSuffix rest
  | None => false
  end.

(** [domain.replace('www.', '')] *)
Definition cleanDomainOf (domain : string) : string :=
  Str.removeFirst "www." domain.

Definition baseNames (domain : string) : list string :=
  [ domain +:+ "_cookies";
    cleanDomainOf domain +:+ "_cookies";
    "www." +:+ cleanDomainOf domain +:+ "_cookies" ].

(** Whether one of the base names of [domain] matches [file]. *)
Definition matchesDomain (domain file : string) : bool :=
  existsb (matchesBaseName file) (baseNames domain).

Module MatchingFile.

Record t : Type := mk {
  path : string;
  filename : string;
  modifiedTime : Z;
  baseName : string
}.

End MatchingFile.

(** [matchingFiles.sort((a, b) => b.modifiedTime - a.modifiedTime)]: the
    newest first, files of equal time in the order they had. *)
Fixpoint insertByTime (x : MatchingFile.t) (sorted : list MatchingFile.t) :
    list MatchingFile.t :=
  match sorted with
  | [] => [x]
  | y :: rest =>
      if (MatchingFile.modifiedTime y <=? MatchingFile.modifiedTime x)%Z
      then x :: sorted
      else y :: insertByTime x rest
  end.

Definition sortNewestFirst (files : list MatchingFile.t) : list MatchingFile.t :=
  foldr insertByTime [] files.

Section CookieLookup.

(** [COOKIE_DIR] *)
Variable COOKIE_DIR : string.

(** The body of [for (const file of files)]: the entry pushed for a file
    of the directory, listed with its modification time, when one of the
    base names matches it. *)
Definition matchFile (domain : string) (file : string * Z) : option MatchingFile.t :=
  match List.find (matchesBaseName file.1) (baseNames domain) with
  | Some baseName =>
      Some (MatchingFile.mk (COOKIE_DIR +:+ "/" +:+ file.1) file.1 file.2 baseName)
  | None => None
  end.

(** [findCookieFile(domain)]; the directory is [None] when it does not
    exist. *)
Definition findCookieFile (cookieDir : option (list (string * Z))) (domain : string) :
    option string :=
  match cookieDir with
  | None => None
  | Some files =>
      match sortNewestFirst (omap (matchFile domain) files) with
      | [] => None
      | latestFile :: _ => Some (MatchingFile.path latestFile)
      end
  end.

End CookieLookup.

(** The name [saveCookiesToFile(domain, cookieData)] writes to, inside
    [COOKIE_DIR]: [`${cleanDomain}_cookies.json`]. *)
Definition savedCookieFile (domain : string) : string :=
  cleanDomainOf domain +:+ "_cookies.json".


(** *** Expiry check over all domains *)

(** The body of [for (const cookie of cookieData.cookies)] in
    [isCookieExpired]. *)
Definition expiryStepAll (now : Z) (st : ExpiryState) (cookie : Cookie.t) : ExpiryState :=
  match expiration cookie with
  | Some e =>
      if isPast now e then
        mkExpiry true (S (expiredCount st)) (S (totalWithExpiration st))
          (expiredCookieNames st ++ [Cookie.name cookie])%list
      else
        mkExpiry (hasExpiredCookies st) (expiredCount st)
          (S (totalWithExpiration st)) (expiredCookieNames st)
  | None => st
  end.

(** Whether that loop body counts [cookie] as expired. *)
Definition expiredAnywhere (now : Z) (cookie : Cookie.t) : bool :=
  match expiration cookie with
  | Some e => isPast now e
  | None => false
  end.

(** [isCookieExpired(cookieData)] for [null] ([None]) or a merged set,
    at the instant [now] (milliseconds). *)
Definition isCookieExpired (cookieData : option Merged.t) (now : Z) : bool :=
  match cookieData with
  | None => true
  | Some data =>
      let st := fold_left (expiryStepAll now) (Merged.cookies data) (mkExpiry false 0 0 []) in
      hasExpiredCookies st && (0 <? totalWithExpiration st)%nat
  end.

(** ** Browser session: what is handed to the page *)

(** [mapSameSite(val)]; [None] is [null]. *)
Definition mapSameSite (val : option string) : option string :=
  match val with
  | None => None
  | Some v =>
      if Str.nonempty v then
        let lower := Str.toLowerCase v in
        if String.eqb lower "lax" then Some "Lax"
        else if String.eqb lower "strict" then Some "Strict"
        else if String.eqb lower "none" || String.eqb lower "no_restriction" then Some "None"
        else if String.eqb lower "unspecified" || String.eqb lower "default" then None
        else None
      else None
  end.

Module BrowserCookie.

(** An entry of [cookiesToSet]; [sameSite] and [expires] are [None] when
    the property is not set. *)
Record t : Type := mk {
  name : string;
  value : string;
  domain : string;
  path : string;
  secure : bool;
  httpOnly : bool;
  sameSite : option string;
  expires : option Q
}.

End BrowserCookie.

(** The body of [for (const cookie of cookieData.cookies)]: the entry
    pushed, [None] when the cookie is skipped. *)
Definition cookieEntry (cookie : Cookie.t) : option BrowserCookie.t :=
  match Cookie.name cookie, Cookie.value cookie, Cookie.domain cookie with
  | Some name, Some value, Some domain =>
      if Str.nonempty name && Str.nonempty value && Str.nonempty domain then
        Some (BrowserCookie.mk name value domain (pathVal cookie)
                (Cookie.secure cookie) (Cookie.httpOnly cookie)
                (mapSameSite (Cookie.sameSite cookie)) (expiration cookie))
      else None
  | _, _, _ => None
  end.

Definition cookiesToSet (cookies : list Cookie.t) : list BrowserCookie.t :=
  omap cookieEntry cookies.

(** The cookies of a fetch: those of the merge of the cookie directory,
    none when the merge returns [null]. *)
Definition sessionCookies (cookieDir : option (list CookieFile)) :
    Run (list BrowserCookie.t) :=
  match loadAndMergeAllCookies cookieDir with
  | Returns (Some cookieData) => Returns (cookiesToSet (Merged.cookies cookieData))
  | Returns None => Returns []
  | AssignsToBuiltin => AssignsToBuiltin
  end.

(** [byDomain] as the page receives it: the own properties in the order
    [Object.keys] yields them, each bucket with its entries in the order of
    [Object.entries]. *)
Definition Buckets : Type := list (string * list (string * string)).

(** The first loop of the injected script: [d] is a candidate when
    [host === d || host.endsWith('.' + d)]. *)
Definition storageCandidates (byDomain : Buckets) (host : string) : list string :=
  omap (λ domain,
          let d := Str.removePrefix "www." domain in
          if domainMatches host d then Some d else None)
       byDomain.*1.

(** [Object.entries(byDomain[d] || {})]: a name that is no own property
    reads [undefined] or a built-in object, neither of which has
    entries. *)
Definition bucketEntries (byDomain : Buckets) (d : string) : list (string * string) :=
  default [] (own_prop d byDomain).

(** [window.localStorage.setItem(k, v)]; a write the browser refuses,
    which the script catches and passes over, has no counterpart here. *)
Definition setItem (storage : gmap string string) (entry : string * string) :
    gmap string string :=
  <[ entry.1 := entry.2 ]> storage.

(** The script run in a new document of host name [hostname], on the
    [localStorage] the document has. *)
Definition injectLocalStorage (byDomain : Buckets) (hostname : string)
    (storage : gmap string string) : gmap string string :=
  let host := Str.removePrefix "www." hostname in
  fold_left (λ st d, fold_left setItem (bucketEntries byDomain d) st)
            (storageCandidates byDomain host) storage.

(** ** Content extractor: the extracted HTML *)

Definition hrSeparator : string :=
  String Str.newline ("<hr/>" +:+ String Str.newline "").

(** The first part of the function evaluated in the page, on the
    [innerHTML] of the elements [document.querySelectorAll(selector)]
    returns (each already with [|| '']): the value of [html] before the
    fallback. *)
Definition selectedHtml (selector : option string) (elements : list string) : string :=
  if present selector then
    match elements with
    | [] => ""
    | _ => Str.join hrSeparator elements
    end
  else "".

(** The [html] the function returns; [bodyHtml] is
    [document.body?.innerHTML || '']. *)
Definition extractHtml (selector : option string) (elements : list string)
    (bodyHtml : string) : string :=
  let html := selectedHtml selector elements in
  if Str.nonempty html then html else bodyHtml.

(** ** Browser session: the scroll loop *)

(** [while (currentPosition < limit) { scrollTo(0, currentPosition);
    currentPosition += 300 }]: the positions scrolled to, [None] when the
    fuel runs out. *)
Fixpoint scrollLoop (fuel : nat) (limit currentPosition : Z) : option (list Z) :=
  match fuel with
  | O => None
  | S fuel' =>
      if (currentPosition <? limit)%Z then
        rest ← scrollLoop fuel' limit (currentPosition + 300)%Z;
        Some (currentPosition :: rest)
      else Some []
  end.

(** The positions of the simulated scroll, the return to the top
    included, for a page that stays open. *)
Definition scrollPositions (fuel : nat) (scrollHeight viewportHeight : Z) : option (list Z) :=
  if (viewportHeight <? scrollHeight)%Z then
    steps ← scrollLoop fuel (scrollHeight - viewportHeight)%Z 0%Z;
    Some (steps ++ [0%Z])%list
  else Some [].

(** ** Data directory *)

Section DataDir.

(** [os.homedir()] *)
Variable homedir : string.

(** [path.join] and [path.resolve] *)
Variable path_join : list string → string.
Variable path_resolve : string → string.

(** [resolveDataDir()], from the value of [MCP_FETCH_PAGE_DATA_DIR]
    ([None] when the variable is not set). *)
Definition resolveDataDir (configuredDir : option string) : string :=
  let defaultDir := path_join [homedir; "Downloads"; "mcp-fetch-page"] in
  match configuredDir with
  | None => defaultDir
  | Some configured =>
      if negb (Str.nonempty configured) || String.eqb (Str.trim configured) ""
      then defaultDir
      else
        let normalized := Str.trim configured in
        if String.eqb normalized "~" then homedir
        else
          match Str.stripPrefix "~/" normalized with
          | Some rest => path_join [homedir; rest]
          | None => path_resolve normalized
          end
  end.

End DataDir.

(** * Properties *)

Local Open Scope list_scope.

(** ** Strings *)

Section StringFacts.

Lemma append_nil (b : string) : "" +:+ b = b.
Proof. reflexivity. Qed.

Lemma append_cons (x : ascii) (a b : string) :
  String x a +:+ b = String x (a +:+ b).
Proof. reflexivity. Qed.

Lemma map_append (f : ascii → ascii) (a b : string) :
  Str.map f (a +:+ b) = Str.map f a +:+ Str.map f b.
Proof.
  induction a as [|x a IH]; [done|].
  rewrite append_cons. simpl. by rewrite IH.
Qed.

Lemma forallb_append (f : ascii → bool) (a b : string) :
  Str.forallb f (a +:+ b) = Str.forallb f a && Str.forallb f b.
Proof.
  induction a as [|x a IH]; [done|].
  rewrite append_cons. simpl. by rewrite IH, andb_assoc.
Qed.

Lemma map_id_on (f : ascii → ascii) (p : ascii → bool) (a : string) :
  (∀ c, p c = true → f c = c) → Str.forallb p a = true → Str.map f a = a.
Proof.
  intros Hf. induction a as [|x a IH]; simpl; [done|].
  intros [Hx Ha]%andb_true_iff. by rewrite (Hf x Hx), IH.
Qed.

Lemma append_inj_l (a x y : string) : a +:+ x = a +:+ y → x = y.
Proof.
  induction a as [|c a IH]; [done|].
  rewrite !append_cons. intros [= H]. by apply IH.
Qed.

Lemma append_assoc (a b c : string) : (a +:+ b) +:+ c = a +:+ (b +:+ c).
Proof.
  induction a as [|x a IH]; [done|].
  rewrite !append_cons. by rewrite IH.
Qed.


End StringFacts.

(** ** Blank-line compression *)

Section Compression.

Local Abbreviation nl := Str.newline.

Lemma is_newline_nl : Str.is_newline nl = true.
Proof. reflexivity. Qed.

Lemma replaceNewlineRuns_leave_match (b : string) :
  Str.startsWithNewline b = false →
  replaceNewlineRuns true b = replaceNewlineRuns false b.
Proof.
  destruct b as [|c r]; simpl; [done|].
  intros ->. done.
Qed.

Lemma replaceNewlineRuns_in_match (k : nat) (b : string) :
  Str.startsWithNewline b = false →
  replaceNewlineRuns true (Str.replicate k nl +:+ b) = replaceNewlineRuns false b.
Proof.
  intros Hb. induction k as [|k IH]; simpl.
  - by apply replaceNewlineRuns_leave_match.
  - exact IH.
Qed.

Lemma replaceNewlineRuns_run (k : nat) (b : string) :
  (3 ≤ k)%nat →
  Str.startsWithNewline b = false →
  replaceNewlineRuns false (Str.replicate k nl +:+ b)
  = Str.replicate 2 nl +:+ replaceNewlineRuns false b.
Proof.
  intros Hk Hb.
  destruct k as [|[|[|k]]]; try lia.
  change (Str.replicate (S (S (S k))) nl +:+ b)
    with (String nl (Str.replicate (S (S k)) nl +:+ b)).
  cbn [replaceNewlineRuns]. rewrite is_newline_nl.
  change (starts_two_newlines (Str.replicate (S (S k)) nl +:+ b)) with true.
  cbn iota. rewrite (replaceNewlineRuns_in_match (S (S k)) b Hb). done.
Qed.

Lemma starts_two_newlines_app (a t : string) :
  Str.endsWithNewline a = false → a ≠ "" →
  starts_two_newlines (a +:+ t) = starts_two_newlines a.
Proof.
  destruct a as [|x [|y r]]; simpl; [done| |done].
  intros -> _. by destruct t.
Qed.

Lemma replaceNewlineRuns_app (a : string) :
  Str.endsWithNewline a = false →
  ∀ m t, (a = "" → m = false) →
  replaceNewlineRuns m (a +:+ t) = replaceNewlineRuns m a +:+ replaceNewlineRuns false t.
Proof.
  induction a as [|c a IH]; intros Hend m t Hm.
  - rewrite Hm; done.
  - destruct (decide (a = "")) as [->|Hne].
    + simpl in Hend. simpl. rewrite Hend. done.
    + assert (Str.endsWithNewline a = false) as Hend'.
      { destruct a; [done|exact Hend]. }
      change (String c a +:+ t) with (String c (a +:+ t)).
      cbn [replaceNewlineRuns].
      rewrite (starts_two_newlines_app a t Hend' Hne).
      destruct (Str.is_newline c), m; try destruct (starts_two_newlines a);
        rewrite IH; try done; cbn; done.
Qed.

End Compression.

(** C8.  A maximal run of three or more newlines, wherever it stands in
    the converted text, comes out as exactly two newlines, the text before
    and after it being compressed on its own. *)
Theorem compressBodyText_collapses_runs (a b : string) (k : nat) :
  Str.endsWithNewline a = false →
  Str.startsWithNewline b = false →
  (3 ≤ k)%nat →
  compressBodyText (a +:+ Str.replicate k Str.newline +:+ b)
  = compressBodyText a +:+ Str.replicate 2 Str.newline +:+ compressBodyText b.
Proof.
  intros Ha Hb Hk. unfold compressBodyText.
  rewrite (replaceNewlineRuns_app a Ha false _ (λ _, eq_refl)).
  by rewrite (replaceNewlineRuns_run k b Hk Hb).
Qed.

(** A body of four consecutive newlines comes out as exactly two. *)
Lemma compressBodyText_four_newlines :
  compressBodyText (Str.replicate 4 Str.newline) = Str.replicate 2 Str.newline.
Proof.
  apply (compressBodyText_collapses_runs "" "" 4); [reflexivity | reflexivity | lia].
Defined.

Section NoTriple.

Local Abbreviation nl := Str.newline.

Lemma replaceNewlineRuns_true_start (s : string) :
  Str.startsWithNewline (replaceNewlineRuns true s) = false.
Proof.
  induction s as [|c r IH]; simpl; [done|].
  destruct (Str.is_newline c) eqn:Hc; [exact IH|]. simpl. exact Hc.
Qed.


Lemma starts_two_newlines_cons (c : ascii) (o : string) :
  Str.is_newline c = false → starts_two_newlines (String c o) = false.
Proof. intros Hc. destruct o; simpl; by rewrite ?Hc. Qed.

Lemma replaceNewlineRuns_false_two (s : string) :
  starts_two_newlines s = false →
  starts_two_newlines (replaceNewlineRuns false s) = false.
Proof.
  destruct s as [|c [|b r]]; [done| |].
  - intros _. cbn. by destruct (Str.is_newline c).
  - cbn [starts_two_newlines replaceNewlineRuns].
    destruct (Str.is_newline c) eqn:Hc.
    + simpl. intros Hb. rewrite Hb.
      destruct r; simpl; by rewrite Hc, Hb.
    + intros _. by apply starts_two_newlines_cons.
Qed.

Lemma startsWith_newline (c : ascii) (o p : string) :
  Str.startsWith (String c o) (String nl p) = Str.is_newline c && Str.startsWith o p.
Proof.
  cbn [Str.startsWith]. unfold Str.is_newline. by rewrite (Ascii.eqb_sym nl c).
Qed.

Lemma startsWith_three (c : ascii) (o : string) :
  Str.startsWith (String c o) (Str.replicate 3 nl)
  = Str.is_newline c && starts_two_newlines o.
Proof.
  cbn [Str.replicate]. rewrite startsWith_newline. f_equal.
  destruct o as [|a [|b o]]; [done| |].
  - rewrite startsWith_newline. simpl. by rewrite andb_false_r.
  - rewrite !startsWith_newline.
    assert (Str.startsWith o "" = true) as -> by (by destruct o).
    by rewrite andb_true_r.
Qed.

(** No run of three newlines is left in the compressed text. *)
Lemma replaceNewlineRuns_no_triple (s : string) :
  ∀ m, Str.includes (replaceNewlineRuns m s) (Str.replicate 3 nl) = false.
Proof.
  induction s as [|c r IH]; intros m; [done|].
  cbn [replaceNewlineRuns].
  destruct (Str.is_newline c) eqn:Hc.
  - destruct m; [apply IH|].
    destruct (starts_two_newlines r) eqn:Hr.
    + cbn [Str.includes]. rewrite !startsWith_three, IH.
      change (Str.is_newline nl) with true. simpl.
      pose proof (replaceNewlineRuns_true_start r) as Hstart.
      destruct (replaceNewlineRuns true r) as [|a o]; simpl in *; [done|].
      rewrite Hstart. by destruct o.
    + cbn [Str.includes]. rewrite startsWith_three, IH, Hc.
      by rewrite (replaceNewlineRuns_false_two r Hr).
  - cbn [Str.includes]. by rewrite startsWith_three, IH, Hc.
Qed.

End NoTriple.

(** The compressed body holds no three consecutive newlines. *)
Corollary compressBodyText_no_triple (bodyText : string) :
  Str.includes (compressBodyText bodyText) (Str.replicate 3 Str.newline) = false.
Proof. apply replaceNewlineRuns_no_triple. Qed.

(** ** Login-wall notice *)



(** *** Lower case of ASCII text *)











(** ** Page store *)

Lemma digit_is_digit (n : N) : Str.is_digit (digit n) = true.
Proof.
  unfold digit.
  assert (n `mod` 10 < 10)%N as Hlt by (apply N.mod_lt; lia).
  destruct (n `mod` 10)%N as [|p]; [reflexivity|].
  do 4 (destruct p as [p|p|]; try lia; try reflexivity).
Qed.

Lemma pad_date_chars (w : nat) (n : N) : Str.forallb isDateChar (pad w n) = true.
Proof.
  revert n. induction w as [|w IH]; intros n; simpl; [done|].
  rewrite forallb_append, IH. simpl. unfold isDateChar.
  by rewrite digit_is_digit.
Qed.

Lemma isoDate_chars (d : Date) : Str.forallb isDateChar (isoDate d) = true.
Proof.
  unfold isoDate, isoYear.
  destruct (year d <=? 9999)%N;
    rewrite ?forallb_append, ?pad_date_chars; reflexivity.
Qed.

Lemma isDateChar_dash (c : ascii) : isDateChar c = true → dashColonDot c = c.
Proof.
  unfold isDateChar, dashColonDot, Str.is_digit.
  destruct (Ascii.eqb_spec c ":") as [->|_]; [done|].
  destruct (Ascii.eqb_spec c ".") as [->|_]; done.
Qed.

Lemma beforeT_date (a r : string) :
  Str.forallb isDateChar a = true → beforeT (a +:+ String "T" r) = a.
Proof.
  induction a as [|x a IH]; [done|].
  rewrite append_cons. simpl.
  intros [Hx Ha]%andb_true_iff. rewrite (IH Ha).
  destruct (Ascii.eqb_spec x "T") as [->|_]; done.
Qed.

(** The timestamp of a file name is the date part of the ISO string. *)
Lemma timestampOf_isoDate (now : Date) : timestampOf now = isoDate now.
Proof.
  unfold timestampOf, toISOString.
  rewrite map_append.
  rewrite (map_id_on dashColonDot isDateChar _ isDateChar_dash (isoDate_chars now)).
  apply beforeT_date, isoDate_chars.
Qed.

Lemma pageFileName_isoDate (urlObj : URL) (now : Date) (isError : bool) :
  pageFileName urlObj now isError
  = hostname urlObj +:+ sanitizePath (pathname urlObj) +:+ "_" +:+ isoDate now
    +:+ (if isError then "_ERROR" else "") +:+ ".md".
Proof. unfold pageFileName. by rewrite timestampOf_isoDate. Qed.

(** C5, as stated, fails on a path with a hyphen or a dot: the class
    [[^a-zA-Z0-9.-]] leaves both in place. *)
Lemma pageFileName_keeps_dot_and_hyphen :
  plainURL "https://example.com/my-page.html"
    = Some (mkURL "example.com" "/my-page.html")
  ∧ pageFileName (mkURL "example.com" "/my-page.html") exampleDate false
    = "example.com_my-page.html_2026-11-02.md"
  ∧ claimedPageFileName (mkURL "example.com" "/my-page.html") exampleDate false
    = "example.com_my_page_html_2026-11-02.md"
  ∧ pageFileName (mkURL "example.com" "/my-page.html") exampleDate false
    ≠ claimedPageFileName (mkURL "example.com" "/my-page.html") exampleDate false.
Proof. repeat split; try reflexivity. by vm_compute. Qed.

(** C5, amended.  A save returns a path when the URL parses and the
    operating system carries out the write, and only then; the path is the
    pages directory and the file name made of the host name, the path with
    every character outside [[a-zA-Z0-9.-]] replaced by [_], the date part
    of the ISO timestamp and [_ERROR] for an error outcome.  Two saves of
    one URL on the same (UTC) day with the same outcome that both return a
    path return the same one, and the file then holds the content of the
    second. *)
Theorem savePageContent_same_day
    (URL_parse : string → option URL) (PAGES_DIR : string)
    (writeError : gmap string string → string → string → option (option string))
    (fs : gmap string string) (url content1 content2 title1 title2 : string)
    (isError : bool) (now1 now2 : Date) :
  year now1 = year now2 → month now1 = month now2 → day now1 = day now2 →
  let first :=
    savePageContent URL_parse PAGES_DIR writeError fs url content1 title1 isError now1 in
  let second :=
    savePageContent URL_parse PAGES_DIR writeError first.2 url content2 title2 isError
      now2 in
  (∀ filePath, first.1 = Some filePath
     ↔ ∃ urlObj, URL_parse url = Some urlObj
         ∧ filePath = PAGES_DIR +:+ "/" +:+ hostname urlObj
                      +:+ sanitizePath (pathname urlObj) +:+ "_" +:+ isoDate now1
                      +:+ (if isError then "_ERROR" else "") +:+ ".md"
         ∧ writeError fs filePath content1 = None)
  ∧ (∀ path1 path2, first.1 = Some path1 → second.1 = Some path2 → path2 = path1)
  ∧ (∀ filePath, second.1 = Some filePath → second.2 !! filePath = Some content2).
Proof.
  intros Hy Hm Hd. unfold savePageContent.
  assert (isoDate now1 = isoDate now2) as Hdate
    by (unfold isoDate; by rewrite Hy, Hm, Hd).
  destruct (URL_parse url) as [urlObj|]; cbv zeta.
  - rewrite !pageFileName_isoDate, <- Hdate.
    set (name := PAGES_DIR +:+ "/" +:+ hostname urlObj +:+ sanitizePath (pathname urlObj)
                 +:+ "_" +:+ isoDate now1 +:+ (if isError then "_ERROR" else "")
                 +:+ ".md").
    split_and!.
    + intros filePath. split.
      * destruct (writeError fs name content1) as [[partial|]|] eqn:Hw; try done.
        intros [= <-]. by exists urlObj.
      * intros (? & [= <-] & -> & Hw). unfold name. by rewrite Hw.
    + intros path1 path2.
      destruct (writeError fs name content1) as [[?|]|]; try done. intros [= <-].
      cbn [snd]. by destruct (writeError _ name content2) as [[?|]|]; [..|intros [= <-]].
    + intros filePath.
      destruct (writeError _ name content2) as [[?|]|]; try done. intros [= <-].
      cbn [snd]. by rewrite lookup_insert_eq.
  - split_and!; try done. intros filePath. split; [done|]. by intros (? & ? & _).
Qed.

Lemma savePageContent_same_day_example :
  let first := savePageContent plainURL "/data/pages" (λ _ _ _, None) ∅
                 "https://example.com/my-page.html" "one" "t" false exampleDate in
  let second := savePageContent plainURL "/data/pages" (λ _ _ _, None) first.2
                 "https://example.com/my-page.html" "two" "t" false
                 (mkDate 2026 11 2 23 59 59 999) in
  first.1 = Some "/data/pages/example.com_my-page.html_2026-11-02.md"
  ∧ second.1 = Some "/data/pages/example.com_my-page.html_2026-11-02.md"
  ∧ second.2 !! "/data/pages/example.com_my-page.html_2026-11-02.md" = Some "two".
Proof.
  pose proof (savePageContent_same_day plainURL "/data/pages" (λ _ _ _, None) ∅
                "https://example.com/my-page.html" "one" "two" "t" "t" false
                exampleDate (mkDate 2026 11 2 23 59 59 999)
                eq_refl eq_refl eq_refl) as (Hname & Hsame & Hover).
  split_and!.
  - apply Hname. exists (mkURL "example.com" "/my-page.html"). by vm_compute.
  - by vm_compute.
  - apply Hover. by vm_compute.
Defined.

(** A save the operating system refuses returns [null]; a path as long
    as this one is refused by every file system in use. *)
Example savePageContent_refused :
  let refuseLong : gmap string string → string → string → option (option string) :=
    λ _ filePath _, if (255 <? String.length filePath)%nat then Some None else None in
  let url := "https://example.com/" +:+ Str.replicate 300 "a" in
  plainURL url = Some (mkURL "example.com" ("/" +:+ Str.replicate 300 "a"))
  ∧ savePageContent plainURL "/data/pages" refuseLong ∅ url "one" "t" false exampleDate
    = (None, ∅).
Proof. by vm_compute. Qed.

(** ** Per-domain expiry check *)

Lemma expiryStep_hasExpired (now : Z) (cleanHost : string) (st : ExpiryState)
    (cookie : Cookie.t) :
  hasExpiredCookies (expiryStep now cleanHost st cookie)
  = hasExpiredCookies st || expiredHere now cleanHost cookie.
Proof.
  unfold expiryStep, expiredHere.
  destruct (Cookie.domain cookie) as [d|]; [|by rewrite orb_false_r].
  destruct (expiration cookie) as [e|]; [|by rewrite orb_false_r].
  destruct (Str.nonempty d && domainMatches cleanHost (cookieDomainOf d));
    [|by rewrite orb_false_r].
  destruct (isPast now e); simpl; [by rewrite orb_true_r|by rewrite orb_false_r].
Qed.

Lemma expiryStep_total (now : Z) (cleanHost : string) (st : ExpiryState)
    (cookie : Cookie.t) :
  (hasExpiredCookies st = true → (0 < totalWithExpiration st)%nat) →
  hasExpiredCookies (expiryStep now cleanHost st cookie) = true →
  (0 < totalWithExpiration (expiryStep now cleanHost st cookie))%nat.
Proof.
  unfold expiryStep. intros Hst.
  destruct (Cookie.domain cookie) as [d|]; [|done].
  destruct (expiration cookie) as [e|]; [|done].
  destruct (Str.nonempty d && domainMatches cleanHost (cookieDomainOf d)); [|done].
  destruct (isPast now e); simpl; lia.
Qed.

Lemma expiry_loop (now : Z) (cleanHost : string) (cookies : list Cookie.t) :
  ∀ st,
    (hasExpiredCookies st = true → (0 < totalWithExpiration st)%nat) →
    let final := fold_left (expiryStep now cleanHost) cookies st in
    hasExpiredCookies final
      = hasExpiredCookies st || existsb (expiredHere now cleanHost) cookies
    ∧ (hasExpiredCookies final = true → (0 < totalWithExpiration final)%nat).
Proof.
  induction cookies as [|c cookies IH]; intros st Hst; simpl.
  - by rewrite orb_false_r.
  - destruct (IH (expiryStep now cleanHost st c)
                 (expiryStep_total now cleanHost st c Hst)) as [Hhas Htot].
    split; [|exact Htot].
    by rewrite Hhas, expiryStep_hasExpired, orb_assoc.
Qed.

(** *** Doubles: the quotient of two integers is a number *)

Lemma shr_1_nonneg mrs : (0 <= shr_m mrs)%Z -> (0 <= shr_m (shr_1 mrs))%Z.
Proof. destruct mrs as [[|[p|p|]|p] r s]; simpl; lia. Qed.

Lemma iter_shr_1_nonneg p : forall mrs,
  (0 <= shr_m mrs)%Z -> (0 <= shr_m (SpecFloat.iter_pos shr_1 p mrs))%Z.
Proof.
  induction p as [p IH|p IH|]; intros mrs H; simpl.
  - apply IH, IH, shr_1_nonneg, H.
  - apply IH, IH, H.
  - apply shr_1_nonneg, H.
Qed.

Lemma shr_fexp_nonneg prec emax m e l :
  (0 <= m)%Z -> (0 <= shr_m (shr_fexp prec emax m e l).1)%Z.
Proof.
  intros H. unfold shr_fexp, shr.
  assert (0 <= shr_m (shr_record_of_loc m l))%Z as H0.
  { by destruct l as [|[]]. }
  destruct (fexp _ _ _ - e)%Z; simpl; try done. by apply iter_shr_1_nonneg.
Qed.

Lemma binary_round_aux_not_nan prec emax sx mx ex lx :
  (0 <= mx)%Z -> binary_round_aux prec emax sx mx ex lx ≠ S754_nan.
Proof.
  intros H. unfold binary_round_aux.
  pose proof (shr_fexp_nonneg prec emax mx ex lx H) as H1.
  destruct (shr_fexp prec emax mx ex lx) as [mrs' e']. cbn [fst] in H1.
  assert (0 <= round_nearest_even (shr_m mrs') (loc_of_shr_record mrs'))%Z as H2.
  { unfold round_nearest_even. destruct (loc_of_shr_record mrs') as [|[]]; try lia.
    destruct (IntDef.Z.even _); lia. }
  pose proof (shr_fexp_nonneg prec emax _ e' loc_Exact H2) as H3.
  destruct (shr_fexp prec emax _ e' loc_Exact) as [mrs'' e'']. cbn [fst] in H3.
  destruct (shr_m mrs'') as [|m|m]; [done| |lia].
  by destruct (e'' <=? emax - prec)%Z.
Qed.

Lemma SFdiv_integers_not_nan sign n d :
  SFdiv 53 1024 (S754_finite sign n 0) (S754_finite false d 0) ≠ S754_nan.
Proof.
  unfold SFdiv.
  destruct (SFdiv_core_binary 53 1024 (Z.pos n) 0 (Z.pos d) 0) as [[mz ez] lz] eqn:Hdiv.
  apply binary_round_aux_not_nan.
  unfold SFdiv_core_binary in Hdiv. cbv zeta in Hdiv.
  set (m' := match _ with 0%Z => _ | _ => _ end) in Hdiv.
  assert (0 <= m')%Z as Hm.
  { unfold m'. destruct (0 - 0 - _)%Z eqn:Hs; try lia.
    change (0 <= Z.shiftl (Z.pos n) (Z.pos p))%Z. apply Z.shiftl_nonneg. lia. }
  change (IntDef.Z.div_eucl m' (Z.pos d)) with (Z.div_eucl m' (Z.pos d)) in Hdiv.
  pose proof (Z_div_mod m' (Z.pos d) eq_refl) as Hspec.
  destruct (Z.div_eucl m' (Z.pos d)) as [q r]. injection Hdiv as <- _ _.
  nia.
Qed.

Lemma toDouble_not_nan (e : Q) : toDouble e ≠ S754_nan.
Proof.
  unfold toDouble. destruct (Qnum e); [done|apply SFdiv_integers_not_nan..].
Qed.

Lemma truthyNumber_iff (e : Q) :
  truthyNumber e = true ↔ ∀ sign, toDouble e ≠ S754_zero sign.
Proof.
  unfold truthyNumber. pose proof (toDouble_not_nan e) as Hnan.
  destruct (toDouble e) as [s|s| |s m x]; split; try done.
  intros H. by destruct (H s).
Qed.

Lemma truthyNumber_nonzero (e : Q) : truthyNumber e = true → ¬ (e == 0)%Q.
Proof.
  unfold truthyNumber, toDouble, Qeq. destruct e as [[|n|n] d]; cbn; [done|lia..].
Qed.

Lemma expiration_Some (cookie : Cookie.t) (e : Q) :
  expiration cookie = Some e
  ↔ Cookie.expirationDate cookie = Some e ∧ ∀ sign, toDouble e ≠ S754_zero sign.
Proof.
  rewrite <- truthyNumber_iff. unfold expiration.
  destruct (Cookie.expirationDate cookie) as [q|]; [|split; [done|by intros [? _]]].
  destruct (truthyNumber q) eqn:Hq; split.
  - by intros [= ->].
  - by intros [[= ->] _].
  - done.
  - intros [[= ->] Hne]. congruence.
Qed.

Lemma endsWith_iff (s p : string) :
  Str.endsWith s p = true ↔ ∃ before, s = before +:+ p.
Proof.
  induction s as [|c s IH]; cbn [Str.endsWith].
  - rewrite orb_false_r, String.eqb_eq. split.
    + intros <-. by exists "".
    + intros ([|? ?] & Heq); [done|by rewrite append_cons in Heq].
  - rewrite orb_true_iff, String.eqb_eq, IH. split.
    + intros [<-|(before & ->)]; [by exists ""|by exists (String c before)].
    + intros ([|a before] & Heq); [by left|].
      right. rewrite append_cons in Heq. injection Heq as -> ->. by exists before.
Qed.

Lemma domainMatches_iff (cleanHost cookieDomain : string) :
  domainMatches cleanHost cookieDomain = true
  ↔ cleanHost = cookieDomain ∨ ∃ sub, cleanHost = sub +:+ "." +:+ cookieDomain.
Proof.
  unfold domainMatches. by rewrite orb_true_iff, String.eqb_eq, endsWith_iff.
Qed.

Lemma expiredHere_iff (now : Z) (cleanHost : string) (cookie : Cookie.t) :
  expiredHere now cleanHost cookie = true
  ↔ ∃ d e t,
      Cookie.domain cookie = Some d ∧ d ≠ ""
      ∧ Cookie.expirationDate cookie = Some e ∧ (∀ sign, toDouble e ≠ S754_zero sign)
      ∧ domainMatches cleanHost (cookieDomainOf d) = true
      ∧ expireTime e = Some t ∧ (t < now)%Z.
Proof.
  unfold expiredHere, isPast. split.
  - destruct (Cookie.domain cookie) as [d|]; [|done].
    destruct (expiration cookie) as [e|] eqn:He; [|done].
    apply expiration_Some in He as [He Hne].
    intros [[Hd Hm]%andb_true_iff Hp]%andb_true_iff.
    destruct (expireTime e) as [t|] eqn:Ht; [|done].
    exists d, e, t. apply Z.ltb_lt in Hp.
    assert (d ≠ "") as Hd' by (intros ->; discriminate Hd).
    split_and!; done.
  - intros (d & e & t & -> & Hd & He & Hne & Hm & Ht & Hlt).
    rewrite (proj2 (expiration_Some cookie e) (conj He Hne)), Hm, Ht.
    destruct d; [done|]. simpl. by apply Z.ltb_lt.
Qed.

(** The expiration instant is that of double arithmetic: the timestamp
    1700000000.0009999 is read as the nearest double, whose product with
    1000 rounds to 1700000000001, so that the cookie is not yet expired at
    that instant although the exact product lies before it.  A timestamp
    too small for a double counts as absent, one too large gives no
    instant. *)
Example expireTime_rounds :
  expireTime (17000000000009999 # 10000000) = Some 1700000000001%Z
  ∧ (((17000000000009999 # 10000000) * 1000 < inject_Z 1700000000001)%Q
     ∧ isPast 1700000000001 (17000000000009999 # 10000000) = false)
  ∧ expireTime 1700000000 = Some 1700000000000%Z
  ∧ expireTime (3 # 2) = Some 1500%Z
  ∧ expireTime (- (1 # 3)) = Some (-333)%Z
  ∧ expireTime 8640000000000 = Some 8640000000000000%Z
  ∧ expireTime 8640000000001 = None
  ∧ truthyNumber (1 # 10 ^ 400) = false
  ∧ (truthyNumber (10 ^ 400) = true ∧ expireTime (10 ^ 400) = None).
Proof. by vm_compute. Qed.

(** The example of the specification: for the host [sub.example.com] a
    cookie of [.example.com] with a past expiration is found expired, one
    of [other.com] is ignored. *)
Example isCookieExpiredForDomain_subdomain :
  isCookieExpiredForDomain
    (Merged.mk [exampleCookie "sid" "1" ".example.com" (Some 1700000000%Q)] ∅)
    "sub.example.com" 1800000000000 = true
  ∧ isCookieExpiredForDomain
      (Merged.mk [exampleCookie "sid" "1" "other.com" (Some 1700000000%Q)] ∅)
      "sub.example.com" 1800000000000 = false.
Proof. split; reflexivity. Qed.

(** Further points where the check departs from the wording of C3: the
    leading dot is stripped from the cookie domain only, and an empty host
    name is never expired. *)
Example isCookieExpiredForDomain_guards :
  (isCookieExpiredForDomain
     (Merged.mk [exampleCookie "sid" "1" "..a.com" (Some 1%Q)] ∅)
     ".a.com" 1800000000000 = true
   ∧ claimedDomainMatch ".a.com" "..a.com" = false)
  ∧ (isCookieExpiredForDomain
       (Merged.mk [exampleCookie "sid" "1" "." (Some 1%Q)] ∅)
       "" 1800000000000 = false
     ∧ claimedDomainMatch "" "." = true).
Proof. repeat split; reflexivity. Qed.

(** C3, as stated, fails on letter case, where the check lower-cases both
    the host name and the cookie domain before it compares them, and on a
    timestamp of zero, which the guard [!cookie.expirationDate] takes for
    absent. *)
Lemma isCookieExpiredForDomain_not_as_claimed :
  (isCookieExpiredForDomain
     (Merged.mk [exampleCookie "sid" "1" "Example.COM" (Some 1700000000%Q)] ∅)
     "example.com" 1800000000000 = true
   ∧ ¬ claimedExpired
         (Merged.mk [exampleCookie "sid" "1" "Example.COM" (Some 1700000000%Q)] ∅)
         "example.com" 1800000000000)
  ∧ (isCookieExpiredForDomain
       (Merged.mk [exampleCookie "sid" "1" "example.com" (Some 0%Q)] ∅)
       "example.com" 1800000000000 = false
     ∧ claimedExpired
         (Merged.mk [exampleCookie "sid" "1" "example.com" (Some 0%Q)] ∅)
         "example.com" 1800000000000).
Proof.
  split; split; try reflexivity.
  - intros (cookie & d & e & Hin & Hd & _ & Hm & _).
    apply list_elem_of_singleton in Hin as ->.
    injection Hd as <-. discriminate Hm.
  - eexists _, _, _. split_and!; [apply list_elem_of_here|reflexivity..].
Qed.

(** C3, amended.  The check answers [true] exactly when the host name is
    not empty and some cookie has a non-empty domain and an expiration
    timestamp that is not zero as a double, its domain (lower-cased, then
    stripped of a leading dot and of a leading [www.]) equals the host name
    (lower-cased, then stripped of a leading [www.]) or follows a dot at
    the end of it, and its expiration instant, the double product of the
    timestamp and 1000 as a [Date], is strictly before the evaluation time.
    A cookie without expiration timestamp never counts. *)
Theorem isCookieExpiredForDomain_iff (cookieData : Merged.t) (hostname : string)
    (now : Z) :
  isCookieExpiredForDomain cookieData hostname now = true
  ↔ hostname ≠ ""
    ∧ ∃ cookie d e t,
        cookie ∈ Merged.cookies cookieData
        ∧ Cookie.domain cookie = Some d ∧ d ≠ ""
        ∧ Cookie.expirationDate cookie = Some e ∧ (∀ sign, toDouble e ≠ S754_zero sign)
        ∧ (let host := Str.removePrefix "www." (Str.toLowerCase hostname) in
           let domain :=
             Str.removePrefix "www." (Str.removePrefix "." (Str.toLowerCase d)) in
           host = domain ∨ ∃ sub, host = sub +:+ "." +:+ domain)
        ∧ timeValue (SFmul 53 1024 (toDouble e) (S754_finite false 1000 0)) = Some t
        ∧ (t < now)%Z.
Proof.
  unfold isCookieExpiredForDomain.
  destruct hostname as [|h0 hs]; [split; [done|by intros [? _]]|].
  cbn [Str.nonempty].
  destruct (expiry_loop now (cleanHostOf (String h0 hs)) (Merged.cookies cookieData)
              (mkExpiry false 0 0 []) ltac:(done)) as [Hhas Htot].
  cbn zeta in Hhas, Htot. simpl in Hhas.
  split.
  - intros [Hex _]%andb_true_iff. split; [done|].
    rewrite Hhas in Hex. apply existsb_exists in Hex as (c & Hin & Hc).
    apply expiredHere_iff in Hc as (d & e & t & Hd & Hne & He & Hz & Hm & Hc).
    apply domainMatches_iff in Hm.
    exists c, d, e, t. split; [by apply list_elem_of_In|done].
  - intros (_ & c & d & e & t & Hin & Hd & Hne & He & Hz & Hm & Ht & Hlt).
    assert (existsb (expiredHere now (cleanHostOf (String h0 hs)))
              (Merged.cookies cookieData) = true) as Hex.
    { apply existsb_exists. exists c. split; [by apply list_elem_of_In|].
      apply expiredHere_iff. exists d, e, t.
      split_and!; [done..|by apply domainMatches_iff|exact Ht|exact Hlt]. }
    rewrite <- Hhas in Hex. rewrite Hex. simpl.
    apply Nat.ltb_lt, Htot, Hex.
Qed.

(** ** Domain rule resolver *)

Lemma keep_marker_nonempty (item : json) (s : string) :
  keep_marker item = Some s → s ≠ "".
Proof.
  destruct item as [| | |s'| |]; simpl; try done.
  destruct (Str.nonempty (Str.trim s')) eqn:Ht; [|done].
  intros [= <-] ->. done.
Qed.

Lemma normalizeEntry_shape (value : json) (rule : DomainRule) :
  normalizeEntry value = Some rule → wellShapedRule rule.
Proof.
  unfold wellShapedRule.
  destruct value as [| | |s|items|props]; simpl; try done.
  - intros [= <-]. simpl. constructor.
  - intros [= <-]. simpl. constructor.
  - intros [= <-]. simpl.
    destruct (own_prop "blocked_if_contains" props) as [[| | | |items|]|];
      try constructor.
    apply Forall_forall. intros s [item [_ Hk]]%list_elem_of_omap.
    by apply keep_marker_nonempty in Hk.
Qed.

(** Entries whose value is [null], a boolean or a number are dropped. *)
Lemma normalizeEntry_dropped (value : json) :
  normalizeEntry value = None
  ↔ value = JNull ∨ (∃ b, value = JBool b) ∨ (∃ q, value = JNumber q).
Proof.
  destruct value; simpl; split; intros H; try done; eauto;
    destruct H as [H|[[? H]|[? H]]]; discriminate H.
Qed.

Lemma set_own_Forall {A : Type} (P : string * A → Prop) (k : string) (v : A)
    (props : list (string * A)) :
  P (k, v) → Forall P props → Forall P (set_own k v props).
Proof.
  intros Hv. induction 1 as [|[k' v'] props Hx Hp IH]; simpl.
  - by repeat constructor.
  - destruct (String.eqb k k'); constructor; done.
Qed.

Lemma normalizeStep_shape (t : RuleTable) (entry : string * json) :
  tableShaped t → tableShaped (normalizeStep t entry).
Proof.
  intros [Hown Hproto]. destruct entry as [domain value]. simpl.
  destruct (Str.nonempty domain); [|done].
  destruct (normalizeEntry value) as [rule|] eqn:Hrule; [|done].
  apply normalizeEntry_shape in Hrule.
  unfold table_set. destruct (String.eqb domain "__proto__"); split; simpl.
  - done.
  - by intros r [= <-].
  - by apply set_own_Forall.
  - done.
Qed.

Lemma normalizeDomainRules_shape (rawRules : json) :
  tableShaped (normalizeDomainRules rawRules).
Proof.
  unfold normalizeDomainRules.
  assert (tableShaped emptyTable) as H0 by (split; [constructor|done]).
  revert H0. generalize emptyTable.
  induction (entries rawRules) as [|e es IH]; intros t Ht; simpl; [done|].
  by apply IH, normalizeStep_shape.
Qed.

Lemma own_prop_elem {A : Type} (k : string) (props : list (string * A)) (v : A) :
  own_prop k props = Some v → (k, v) ∈ props.
Proof.
  induction props as [|[k' v'] props IH]; simpl; [done|].
  destruct (String.eqb_spec k k') as [->|_].
  - intros [= ->]. apply list_elem_of_here.
  - intros H. apply list_elem_of_further, IH, H.
Qed.

Section ResolverFacts.

Variable URL_parse : string → option URL.
Variable domainRules : RuleTable.

(** A read that the prototype chain does not answer. *)
Lemma table_get_own (k : string) :
  proto domainRules = None → is_inherited k = false →
  table_get domainRules k
  = match own_prop k (own domainRules) with Some r => VRule r | None => VUndefined end.
Proof.
  intros Hp Hk. unfold table_get. rewrite Hp, Hk. done.
Qed.

(** The matching order of the resolver, for a table without replaced
    prototype and a host name that names no inherited member. *)
Lemma getDomainRuleForUrl_order (url : string) :
  proto domainRules = None →
  (∀ urlObj, URL_parse url = Some urlObj →
     is_inherited (Str.toLowerCase (hostname urlObj)) = false
     ∧ is_inherited (stripSubdomain (Str.toLowerCase (hostname urlObj))) = false) →
  getDomainRuleForUrl URL_parse domainRules url
  = VRule (claimedRule URL_parse domainRules url).
Proof.
  intros Hp Hk. unfold getDomainRuleForUrl, claimedRule.
  destruct (URL_parse url) as [urlObj|]; [|done].
  destruct (Hk urlObj eq_refl) as [Hh Hm].
  cbv zeta.
  rewrite !(table_get_own _ Hp Hh), !(table_get_own _ Hp Hm).
  set (h := Str.toLowerCase (hostname urlObj)). set (m := stripSubdomain h).
  destruct (own_prop h (own domainRules)) as [r|]; [done|]. simpl.
  destruct (own_prop m (own domainRules)) as [r|]; [done|]. simpl.
  by destruct (find _ _) as [[? ?]|].
Qed.

Lemma claimedRule_shape (url : string) :
  tableShaped domainRules → wellShapedRule (claimedRule URL_parse domainRules url).
Proof.
  intros [Hown _]. unfold claimedRule.
  assert (wellShapedRule emptyRule) as He by constructor.
  assert (∀ k r, (k, r) ∈ own domainRules → wellShapedRule r) as Hin.
  { intros k r Hkr. by apply (proj1 (Forall_forall _ _) Hown (k, r)). }
  destruct (URL_parse url) as [urlObj|]; [|done]. cbv zeta.
  set (h := Str.toLowerCase (hostname urlObj)). set (m := stripSubdomain h).
  destruct (own_prop h (own domainRules)) as [r|] eqn:H1;
    [eapply Hin, own_prop_elem, H1|].
  destruct (own_prop m (own domainRules)) as [r|] eqn:H2;
    [eapply Hin, own_prop_elem, H2|].
  destruct (find _ _) as [[k r]|] eqn:H3; [|done].
  apply find_some in H3 as [H3 _]. eapply Hin. by apply list_elem_of_In.
Qed.

(** The resolver never returns [null] or [undefined]. *)
Lemma getDomainRuleForUrl_truthy (url : string) :
  truthy (getDomainRuleForUrl URL_parse domainRules url) = true.
Proof.
  unfold getDomainRuleForUrl.
  destruct (URL_parse url) as [urlObj|]; [|done]. cbv zeta.
  set (h := Str.toLowerCase (hostname urlObj)). set (m := stripSubdomain h).
  destruct (truthy (table_get domainRules h)) eqn:H1; [done|].
  destruct (truthy (table_get domainRules m)) eqn:H2; [done|].
  by destruct (find _ _) as [[? ?]|].
Qed.

End ResolverFacts.

(** C4.  The matching order holds as long as no read of the table is
    answered by the prototype chain ([getDomainRuleForUrl_order]).  For
    the host name [constructor] the first read finds the member every
    object inherits and the resolver returns it, although no key of the
    table matches in any of the three steps. *)
Theorem getDomainRuleForUrl_inherited_member :
  let domainRules :=
    normalizeDomainRules (JObject [("example.com", JString "article")]) in
  plainURL "http://constructor/" = Some (mkURL "constructor" "/")
  ∧ claimedRule plainURL domainRules "http://constructor/" = emptyRule
  ∧ getDomainRuleForUrl plainURL domainRules "http://constructor/"
    = VBuiltin "constructor".
Proof. by vm_compute. Qed.

(** C10.  Normalisation is total and yields well-shaped rules
    ([normalizeDomainRules_shape], [normalizeEntry_dropped]), and the
    resolver returns a rule of the table or the empty rule unless a read is
    answered by the prototype chain.  For the host name [constructor] it
    returns the inherited member, which is no rule: it has neither a
    [selector] nor a [blockedIfContains] array. *)
Theorem getDomainRuleForUrl_result_not_a_rule :
  ¬ wellShaped (getDomainRuleForUrl plainURL (normalizeDomainRules (JObject []))
                  "https://www.constructor/").
Proof. intros (r & Hr & _). by vm_compute in Hr. Qed.

(** Away from the inherited names, the result has the shape of a rule. *)
Lemma getDomainRuleForUrl_shape (URL_parse : string → option URL)
    (rawRules : json) (url : string) :
  proto (normalizeDomainRules rawRules) = None →
  (∀ urlObj, URL_parse url = Some urlObj →
     is_inherited (Str.toLowerCase (hostname urlObj)) = false
     ∧ is_inherited (stripSubdomain (Str.toLowerCase (hostname urlObj))) = false) →
  wellShaped (getDomainRuleForUrl URL_parse (normalizeDomainRules rawRules) url).
Proof.
  intros Hp Hk. rewrite (getDomainRuleForUrl_order _ _ _ Hp Hk).
  eexists. split; [done|]. apply claimedRule_shape, normalizeDomainRules_shape.
Qed.

(** ** Credential store: what a scan returns *)

Section FirstOccurrences.

Context {A K : Type} `{Countable K}.
Implicit Types (key : A → K) (l : list A) (seen : gset K).

Lemma filter_filter_ext (f g h : A → bool) l :
  (∀ x, f x && g x = h x) → List.filter f (List.filter g l) = List.filter h l.
Proof.
  intros Hext. induction l as [|x l IH]; simpl; [done|].
  rewrite <- (Hext x). destruct (g x); simpl.
  - destruct (f x); by rewrite IH.
  - by rewrite andb_false_r.
Qed.

Lemma filter_all (f : A → bool) l : (∀ x, f x = true) → List.filter f l = l.
Proof.
  intros Hf. induction l as [|x l IH]; simpl; [done|]. by rewrite Hf, IH.
Qed.

Lemma firstUnseen_app key seen l1 l2 :
  firstUnseen key seen (l1 ++ l2)
  = firstUnseen key seen l1 ++ firstUnseen key (list_to_set (key <$> l1) ∪ seen) l2.
Proof.
  revert seen. induction l1 as [|x l1 IH]; intros seen; simpl.
  - f_equal. set_solver.
  - case_bool_decide as Hx.
    + rewrite IH. do 2 f_equal. set_solver.
    + simpl. rewrite IH. do 3 f_equal. set_solver.
Qed.

Lemma firstUnseen_filter key seen l :
  firstUnseen key seen l
  = List.filter (λ x, negb (bool_decide (key x ∈ seen))) (firstOccurrences key l).
Proof.
  revert seen. induction l as [|x l IH]; intros seen; simpl; [done|].
  case_bool_decide as Hx; simpl.
  - rewrite IH. symmetry. apply filter_filter_ext. intros y.
    repeat case_bool_decide; simpl; try done. congruence.
  - f_equal. rewrite IH. symmetry. apply filter_filter_ext. intros y.
    repeat case_bool_decide; simpl; try done; set_solver.
Qed.

Lemma firstUnseen_empty key l : firstUnseen key ∅ l = firstOccurrences key l.
Proof.
  rewrite firstUnseen_filter. apply filter_all. intros x.
  case_bool_decide; [set_solver|done].
Qed.

Lemma firstOccurrences_elem key l x : x ∈ firstOccurrences key l → x ∈ l.
Proof.
  revert x. induction l as [|y l IH]; intros x; simpl; [done|].
  intros [->|Hx]%elem_of_cons; [apply list_elem_of_here|].
  apply list_elem_of_further, IH.
  apply list_elem_of_In in Hx. apply filter_In in Hx as [Hx _].
  by apply list_elem_of_In.
Qed.

Lemma NoDup_fmap_filter key (p : A → bool) l :
  NoDup (key <$> l) → NoDup (key <$> List.filter p l).
Proof.
  induction l as [|x l IH]; simpl; [done|].
  intros [Hx Hl]%NoDup_cons. destruct (p x); [|by apply IH].
  simpl. apply NoDup_cons. split; [|by apply IH].
  intros (y & Hy & Hin)%list_elem_of_fmap. apply Hx.
  apply list_elem_of_fmap. exists y. split; [done|].
  apply list_elem_of_In. apply list_elem_of_In in Hin.
  by apply filter_In in Hin as [? _].
Qed.

Lemma firstOccurrences_NoDup key l : NoDup (key <$> firstOccurrences key l).
Proof.
  induction l as [|x l IH]; simpl; [constructor|].
  apply NoDup_cons. split; [|by apply NoDup_fmap_filter].
  intros (y & Hy & Hin)%list_elem_of_fmap.
  apply list_elem_of_In, filter_In in Hin as [_ Hne].
  by rewrite Hy, bool_decide_eq_true_2 in Hne.
Qed.

End FirstOccurrences.

Lemma firstOccurrences_ext {A K1 K2 : Type} `{EqDecision K1, EqDecision K2}
    (key1 : A → K1) (key2 : A → K2) (l : list A) :
  (∀ x y, x ∈ l → y ∈ l → key1 x = key1 y ↔ key2 x = key2 y) →
  firstOccurrences key1 l = firstOccurrences key2 l.
Proof.
  induction l as [|x l IH]; intros Hext; simpl; [done|].
  rewrite IH by (intros y z Hy Hz; apply Hext; by apply list_elem_of_further).
  f_equal. apply filter_ext_in. intros y Hy%list_elem_of_In.
  assert (y ∈ l) as Hyl.
  { revert Hy. clear. induction l as [|z l IH]; simpl; [done|].
    intros [->|Hy]%elem_of_cons; [apply list_elem_of_here|].
    apply list_elem_of_further, IH.
    apply list_elem_of_In, filter_In in Hy as [Hy _]. by apply list_elem_of_In. }
  pose proof (Hext y x (list_elem_of_further _ _ _ Hyl) (list_elem_of_here _ _)) as Hyx.
  repeat case_bool_decide; try done; tauto.
Qed.

Lemma pathVal_nonempty (c : Cookie.t) : Str.nonempty (pathVal c) = true.
Proof. unfold pathVal. by destruct (Cookie.path c) as [[|? ?]|]. Qed.

Lemma pathVal_withPath (c : Cookie.t) : pathVal (withPath c) = pathVal c.
Proof.
  unfold pathVal at 1. simpl. by rewrite pathVal_nonempty.
Qed.

Lemma identity_withPath (c : Cookie.t) : identity (withPath c) = identity c.
Proof. unfold identity. by rewrite pathVal_withPath. Qed.

Lemma cookieKey_withPath (c : Cookie.t) : cookieKey (withPath c) = cookieKey c.
Proof. unfold cookieKey. by rewrite pathVal_withPath. Qed.

(** The inner loop: cookies are appended in reading order, an entry being
    kept when it passes the guard and its key string is new. *)
Lemma fold_mergeCookie (l : list Cookie.t) :
  ∀ st,
    let st' := fold_left mergeCookie l st in
    Merged.cookies (merged st')
      = Merged.cookies (merged st)
        ++ (withPath <$> firstUnseen cookieKey (seenKeys st) (List.filter validCookie l))
    ∧ seenKeys st' = list_to_set (cookieKey <$> List.filter validCookie l) ∪ seenKeys st
    ∧ Merged.localStorageByDomain (merged st') = Merged.localStorageByDomain (merged st).
Proof.
  induction l as [|c l IH]; intros st; cbn zeta; simpl.
  - split_and!; [by rewrite app_nil_r|set_solver|done].
  - destruct (IH (mergeCookie st c)) as (Hc & Hs & Hl).
    cbn zeta in Hc, Hs, Hl. rewrite Hc, Hs, Hl. clear Hc Hs Hl IH.
    unfold mergeCookie. destruct (validCookie c); [|done].
    simpl. case_bool_decide as Hseen; simpl.
    + split_and!; [done|set_solver|done].
    + split_and!; [by rewrite <- app_assoc|set_solver|done].
Qed.

Lemma joinBuckets_empty_l (x : gmap string (gmap string string)) :
  joinBuckets ∅ x = x.
Proof.
  apply map_eq. intros i. unfold joinBuckets.
  rewrite lookup_union_with, lookup_empty. by destruct (x !! i).
Qed.

Lemma joinBuckets_empty_r (x : gmap string (gmap string string)) :
  joinBuckets x ∅ = x.
Proof.
  apply map_eq. intros i. unfold joinBuckets.
  rewrite lookup_union_with, lookup_empty. by destruct (x !! i).
Qed.

Lemma joinBuckets_assoc (a b x : gmap string (gmap string string)) :
  joinBuckets a (joinBuckets b x) = joinBuckets (joinBuckets a b) x.
Proof.
  apply map_eq. intros i. unfold joinBuckets.
  rewrite !lookup_union_with.
  destruct (a !! i), (b !! i), (x !! i); simpl; try done.
  by rewrite (assoc_L (∪)).
Qed.

Lemma joinBuckets_idemp (a : gmap string (gmap string string)) :
  joinBuckets a a = a.
Proof.
  apply union_with_idemp. intros i x _. by rewrite (idemp_L (∪)).
Qed.

Lemma joinBuckets_noInherited (delta byDomain : gmap string (gmap string string)) :
  noInheritedBucket delta → noInheritedBucket byDomain →
  noInheritedBucket (joinBuckets delta byDomain).
Proof.
  intros Hd Hb d Hinh. unfold joinBuckets.
  by rewrite lookup_union_with, (Hd d Hinh), (Hb d Hinh).
Qed.

Lemma fileDelta_noInherited (file : CookieFile) : noInheritedBucket (fileDelta file).
Proof.
  intros d Hinh. unfold fileDelta.
  destruct file.2 as [data|]; [|done].
  destruct (Snapshot.localStorage data) as [ls|]; [|done].
  destruct (sourceDomain file.1) as [d'|]; [|done].
  destruct (Str.nonempty d'); [|done].
  destruct (is_inherited d') eqn:Hd'; [done|]. simpl.
  apply lookup_singleton_ne. intros ->. congruence.
Qed.

Lemma firstUnseen_all_seen {A K : Type} `{Countable K} (key : A → K) (seen : gset K)
    (l : list A) :
  (∀ x, x ∈ l → key x ∈ seen) → firstUnseen key seen l = [].
Proof.
  induction l as [|x l IH]; intros Hall; simpl; [done|].
  rewrite bool_decide_eq_true_2 by (apply Hall, list_elem_of_here).
  apply IH. intros y Hy. by apply Hall, list_elem_of_further.
Qed.

Lemma scanDelta_noInherited (files : list CookieFile) : noInheritedBucket (scanDelta files).
Proof.
  induction files as [|file files IH]; [done|].
  apply joinBuckets_noInherited; [exact IH|apply fileDelta_noInherited].
Qed.


Lemma scannedCookies_app (l1 l2 : list CookieFile) :
  scannedCookies (l1 ++ l2) = scannedCookies l1 ++ scannedCookies l2.
Proof. unfold scannedCookies. by rewrite fmap_app, concat_app. Qed.

Lemma assignsToBuiltin_Forall (files : list CookieFile) :
  Forall (λ file, assignsToBuiltin file = false) files
  ↔ existsb assignsToBuiltin files = false.
Proof.
  induction files as [|file files IH]; simpl; [done|].
  rewrite Forall_cons, IH, orb_false_iff. done.
Qed.

(** The [localStorage] part of the loop body, on buckets none of which
    sits under an inherited name. *)
Lemma mergeLocalStorage_spec (d : string) (ls : gmap string string)
    (byDomain : gmap string (gmap string string)) :
  noInheritedBucket byDomain →
  mergeLocalStorage d ls byDomain
  = if is_inherited d
    then if bool_decide (delete "__proto__" ls = ∅) then Returns byDomain
         else AssignsToBuiltin
    else Returns (joinBuckets {[ d := delete "__proto__" ls ]} byDomain).
Proof.
  intros Hinv. unfold mergeLocalStorage.
  destruct (is_inherited d) eqn:Hd.
  - by rewrite (Hinv d Hd).
  - assert (∀ bucket, <[ d := assign bucket ls ]> byDomain
                      = joinBuckets {[ d := delete "__proto__" ls ]}
                          (<[ d := bucket ]> byDomain)) as Hins.
    { intros bucket. apply map_eq. intros i. unfold joinBuckets, assign.
      rewrite lookup_union_with.
      destruct (decide (i = d)) as [->|Hne].
      - by rewrite lookup_singleton_eq, !lookup_insert_eq.
      - rewrite lookup_singleton_ne, !lookup_insert_ne by done.
        by destruct (byDomain !! i). }
    destruct (byDomain !! d) as [bucket|] eqn:Hb.
    + by rewrite Hins, insert_id.
    + f_equal. rewrite Hins. apply map_eq. intros i. unfold joinBuckets.
      rewrite !lookup_union_with.
      destruct (decide (i = d)) as [->|Hne].
      * rewrite lookup_singleton_eq, lookup_insert_eq, Hb. simpl.
        by rewrite (right_id_L ∅ (∪)).
      * by rewrite lookup_insert_ne.
Qed.

(** The loop body: a file at which [Object.assign] reaches a built-in
    object ends the scan; any other file adds its new cookies and joins what
    it holds to the buckets. *)
Lemma mergeFile_spec (st : MergeState) (file : CookieFile) :
  noInheritedBucket (Merged.localStorageByDomain (merged st)) →
  mergeFile st file
  = if assignsToBuiltin file then AssignsToBuiltin
    else
      let st1 := fold_left mergeCookie (fileCookies file) st in
      Returns (mkState
                 (Merged.mk (Merged.cookies (merged st1))
                    (joinBuckets (fileDelta file)
                       (Merged.localStorageByDomain (merged st))))
                 (seenKeys st1)).
Proof.
  intros Hinv. unfold mergeFile, assignsToBuiltin, fileDelta, fileCookies.
  destruct file as [filename [data|]]; cbn [fst snd].
  - destruct (fold_mergeCookie (default [] (Snapshot.cookies data)) st) as (_ & _ & Hl).
    cbv zeta in *.
    set (st1 := fold_left mergeCookie (default [] (Snapshot.cookies data)) st) in *.
    assert (Returns st1
            = Returns (mkState
                         (Merged.mk (Merged.cookies (merged st1))
                            (joinBuckets ∅ (Merged.localStorageByDomain (merged st))))
                         (seenKeys st1))) as Hsame.
    { rewrite joinBuckets_empty_l, <- Hl. by destruct st1 as [[? ?] ?]. }
    destruct (Snapshot.localStorage data) as [ls|]; [|exact Hsame].
    destruct (sourceDomain filename) as [d|]; [|exact Hsame].
    destruct (Str.nonempty d) eqn:Hne.
    + rewrite Hl, (mergeLocalStorage_spec d ls _ Hinv).
      destruct (is_inherited d); cbn [andb negb]; [|done].
      case_bool_decide; cbn [negb]; [|done].
      by rewrite joinBuckets_empty_l.
    + destruct d; [|done]. exact Hsame.
  - cbn [fold_left]. rewrite joinBuckets_empty_l. by destruct st as [[? ?] ?].
Qed.

Lemma mergeFrom_AssignsToBuiltin (files : list CookieFile) :
  mergeFrom AssignsToBuiltin files = AssignsToBuiltin.
Proof. unfold mergeFrom. by induction files. Qed.

(** The loop from a state on: the scan returns unless a file reaches a
    built-in object, and then the cookies are those of the state followed
    by the first entry of each new key string among the entries that pass
    the guard, and the buckets those of the state joined with what the
    files hold, a later file taking precedence. *)
Lemma mergeFrom_spec (files : list CookieFile) :
  ∀ st,
    noInheritedBucket (Merged.localStorageByDomain (merged st)) →
    mergeFrom (Returns st) files
    = if existsb assignsToBuiltin files then AssignsToBuiltin
      else
        Returns (mkState
                   (Merged.mk
                      (Merged.cookies (merged st)
                       ++ (withPath <$> firstUnseen cookieKey (seenKeys st)
                                          (List.filter validCookie (scannedCookies files))))
                      (joinBuckets (scanDelta files)
                         (Merged.localStorageByDomain (merged st))))
                   (list_to_set (cookieKey <$> List.filter validCookie (scannedCookies files))
                    ∪ seenKeys st)).
Proof.
  induction files as [|file files IH]; intros st Hinv.
  - cbn. rewrite app_nil_r, joinBuckets_empty_l, (left_id_L ∅ (∪)).
    by destruct st as [[? ?] ?].
  - change (mergeFrom (Returns st) (file :: files))
      with (mergeFrom (mergeFile st file) files).
    rewrite (mergeFile_spec st file Hinv). cbn [existsb].
    destruct (assignsToBuiltin file); cbn [orb];
      [apply mergeFrom_AssignsToBuiltin|].
    cbv zeta. rewrite IH.
    2:{ cbn. apply joinBuckets_noInherited; [apply fileDelta_noInherited|done]. }
    destruct (existsb assignsToBuiltin files); [done|].
    destruct (fold_mergeCookie (fileCookies file) st) as (Hc & Hs & _).
    cbv zeta in Hc, Hs. cbn [merged Merged.cookies Merged.localStorageByDomain seenKeys].
    rewrite Hc, Hs.
    change (scannedCookies (file :: files))
      with (fileCookies file ++ scannedCookies files).
    rewrite List.filter_app, firstUnseen_app, !fmap_app, list_to_set_app_L.
    cbn [scanDelta]. rewrite joinBuckets_assoc, <- app_assoc.
    do 2 f_equal. set_solver.
Qed.

(** The scan of a directory. *)
Lemma mergeFiles_spec (files : list CookieFile) :
  mergeFiles files
  = if existsb assignsToBuiltin files then AssignsToBuiltin
    else
      Returns (mkState
                 (Merged.mk
                    (withPath <$> firstOccurrences cookieKey
                                    (List.filter validCookie (scannedCookies files)))
                    (scanDelta files))
                 (list_to_set (cookieKey <$> List.filter validCookie (scannedCookies files)))).
Proof.
  unfold mergeFiles. rewrite mergeFrom_spec by done.
  destruct (existsb assignsToBuiltin files); [done|].
  cbn [initialState merged Merged.cookies Merged.localStorageByDomain seenKeys app].
  by rewrite firstUnseen_empty, joinBuckets_empty_r, (right_id_L ∅ (∪)).
Qed.

(** A scan returns exactly when none of its files reaches a built-in
    object. *)
Lemma mergeFiles_Returns_iff (files : list CookieFile) :
  (∃ st, mergeFiles files = Returns st)
  ↔ Forall (λ file, assignsToBuiltin file = false) files.
Proof.
  rewrite assignsToBuiltin_Forall, mergeFiles_spec.
  destruct (existsb assignsToBuiltin files); split; try done.
  - by intros [? ?].
  - by eexists.
Qed.

Lemma mergeFiles_Returns (files : list CookieFile) (st : MergeState) :
  mergeFiles files = Returns st →
  Merged.cookies (merged st)
    = withPath <$> firstOccurrences cookieKey
                     (List.filter validCookie (scannedCookies files))
  ∧ Merged.localStorageByDomain (merged st) = scanDelta files
  ∧ seenKeys st
    = list_to_set (cookieKey <$> List.filter validCookie (scannedCookies files)).
Proof.
  rewrite mergeFiles_spec. destruct (existsb assignsToBuiltin files); [done|].
  by intros [= <-].
Qed.

(** ** Credential store: cookies of the merge *)

Lemma split_bar (a a' r r' : string) :
  noBar a = true → noBar a' = true →
  a +:+ String "|" r = a' +:+ String "|" r' → a = a' ∧ r = r'.
Proof.
  revert a'. induction a as [|x a IH]; intros [|x' a']; rewrite ?append_cons, ?append_nil.
  - by intros _ _ [= ->].
  - intros _ Ha' [= <- _]. by vm_compute in Ha'.
  - intros Ha _ [= -> _]. by vm_compute in Ha.
  - unfold noBar. simpl. intros [_ Ha]%andb_true_iff [_ Ha']%andb_true_iff [= -> Heq].
    by destruct (IH a' Ha Ha' Heq) as [-> ->].
Qed.

(** Without [|] in names and domains, the key string determines the
    identity key. *)
Lemma cookieKey_identity (c1 c2 : Cookie.t) :
  validCookie c1 = true → validCookie c2 = true → barFree c1 → barFree c2 →
  cookieKey c1 = cookieKey c2 ↔ identity c1 = identity c2.
Proof.
  unfold validCookie, barFree, cookieKey, identity.
  destruct (Cookie.name c1) as [n1|]; [|done].
  destruct (Cookie.name c2) as [n2|]; [|done].
  destruct (Cookie.domain c1) as [d1|]; [|by rewrite andb_false_r].
  destruct (Cookie.domain c2) as [d2|]; [|by rewrite andb_false_r].
  simpl. intros _ _ [Hn1 Hd1] [Hn2 Hd2]. split.
  - rewrite !append_cons, !append_nil.
    intros [-> [-> ->]%split_bar]%split_bar; done.
  - by intros [= -> -> ->].
Qed.

(** With [|] in a name or a domain, two identity keys can share one key
    string. *)
Example cookieKey_collision :
  cookieKey (exampleCookie "a|b" "1" "c.com" None)
  = cookieKey (exampleCookie "a" "2" "b|c.com" None)
  ∧ identity (exampleCookie "a|b" "1" "c.com" None)
    ≠ identity (exampleCookie "a" "2" "b|c.com" None).
Proof. split; [reflexivity|discriminate]. Qed.

(** C1, as stated, fails on an entry that the guard on name, value and
    domain rejects: the first occurrence of the key has an empty value and
    is skipped, and the later occurrence of the same key is the one kept. *)
Lemma mergeFiles_skips_empty_value :
  let files : list CookieFile :=
    [ ("x.com_cookies.json", snapshotOf [exampleCookie "a" "" "x.com" None] []);
      ("x.com_cookies (1).json", snapshotOf [exampleCookie "a" "v" "x.com" None] []) ] in
  ∃ st,
    mergeFiles files = Returns st
    ∧ Merged.cookies (merged st) = [exampleCookie "a" "v" "x.com" None]
    ∧ claimedMergedCookies files = [exampleCookie "a" "" "x.com" None]
    ∧ Merged.cookies (merged st) ≠ claimedMergedCookies files.
Proof. eexists. split; [by vm_compute|]. split_and!; by vm_compute. Qed.

(** C1, amended.  In a scan none of whose files makes [Object.assign]
    reach [Object.prototype] or a built-in function: among the cookie
    entries that have a non-empty name, value and domain (the others are
    skipped), and as long as no name or domain of these holds the separator
    [|], the merged cookies are the first occurrence of each identity key
    [(name, domain, path)], a missing path being [/], in reading order and
    with the value of that first occurrence; the merged set holds one
    entry per key. *)
Theorem mergedCookies_first_seen (files : list CookieFile) :
  Forall (λ file, assignsToBuiltin file = false) files →
  Forall (λ c, validCookie c = true → barFree c) (scannedCookies files) →
  ∃ st,
    mergeFiles files = Returns st
    ∧ Merged.cookies (merged st)
      = withPath <$> firstOccurrences identity
                       (List.filter validCookie (scannedCookies files))
    ∧ NoDup (identity <$> Merged.cookies (merged st)).
Proof.
  intros [st Hst]%mergeFiles_Returns_iff Hbar. exists st. split; [done|].
  apply mergeFiles_Returns in Hst as (Hc & _ & _).
  assert (Merged.cookies (merged st)
          = withPath <$> firstOccurrences identity
                           (List.filter validCookie (scannedCookies files))) as Heq.
  { rewrite Hc. f_equal.
    apply firstOccurrences_ext.
    intros x y [Hx Hvx]%list_elem_of_In%filter_In [Hy Hvy]%list_elem_of_In%filter_In.
    rewrite Forall_forall in Hbar.
    apply cookieKey_identity; try done; apply Hbar; try done; by apply list_elem_of_In. }
  split; [done|].
  rewrite Heq, <- list_fmap_compose.
  rewrite (list_fmap_ext (identity ∘ withPath) identity _)
    by (intros; apply identity_withPath).
  apply firstOccurrences_NoDup.
Qed.

Lemma mergedCookies_first_seen_example :
  let files : list CookieFile :=
    [ ("x.com_cookies.json",
       snapshotOf [ exampleCookie "a" "1" "x.com" None;
                    Cookie.mk (Some "b") (Some "2") (Some "x.com") None false false None None ] []);
      ("y.com_cookies.json",
       snapshotOf [ exampleCookie "a" "3" "x.com" None;
                    exampleCookie "b" "" "y.com" None;
                    exampleCookie "b" "4" "y.com" None ] []) ] in
  ∃ st,
    mergeFiles files = Returns st
    ∧ Merged.cookies (merged st)
      = [ exampleCookie "a" "1" "x.com" None;
          exampleCookie "b" "2" "x.com" None;
          exampleCookie "b" "4" "y.com" None ].
Proof.
  intros files.
  assert (Forall (λ file, assignsToBuiltin file = false) files) as Hfiles.
  { repeat constructor. }
  assert (Forall (λ c, validCookie c = true → barFree c) (scannedCookies files)) as Hbar.
  { repeat (constructor; [intros _; split; reflexivity|]). constructor. }
  destruct (mergedCookies_first_seen files Hfiles Hbar) as (st & Hst & Hc & _).
  exists st. split; [exact Hst|]. rewrite Hc. reflexivity.
Defined.

(** ** Credential store: localStorage of the merge *)

Lemma fileDelta_lookup (file : CookieFile) (d : string) (bucket : gmap string string) :
  fileDelta file !! d = Some bucket →
  d ≠ "" ∧ is_inherited d = false
  ∧ ∃ data ls,
      file.2 = Some data ∧ Snapshot.localStorage data = Some ls
      ∧ sourceDomain file.1 = Some d ∧ bucket = delete "__proto__" ls.
Proof.
  unfold fileDelta.
  destruct file.2 as [data|] eqn:Hdata; [|done].
  destruct (Snapshot.localStorage data) as [ls|] eqn:Hls; [|done].
  destruct (sourceDomain file.1) as [d'|] eqn:Hsrc; [|done].
  destruct (Str.nonempty d') eqn:Hne; [|done].
  destruct (is_inherited d') eqn:Hinh; [done|]. simpl.
  intros [<- <-]%lookup_singleton_Some.
  split_and!; [by intros ->|done|by exists data, ls].
Qed.

Lemma scanDelta_lookup (files : list CookieFile) (d k v : string)
    (bucket : gmap string string) :
  scanDelta files !! d = Some bucket → bucket !! k = Some v →
  ∃ file data ls,
    file ∈ files ∧ file.2 = Some data ∧ Snapshot.localStorage data = Some ls
    ∧ sourceDomain file.1 = Some d ∧ ls !! k = Some v.
Proof.
  revert bucket. induction files as [|file files IH]; intros bucket; simpl; [done|].
  unfold joinBuckets. rewrite lookup_union_with.
  destruct (scanDelta files !! d) as [newer|] eqn:Hnewer,
    (fileDelta file !! d) as [older|] eqn:Holder; simpl; try done.
  - intros [= <-] [Hk|[_ Hk]]%lookup_union_Some_raw.
    + destruct (IH newer eq_refl Hk) as (f & data & ls & Hf & Hrest).
      exists f, data, ls. split; [by apply list_elem_of_further|done].
    + apply fileDelta_lookup in Holder as (_ & _ & data & ls & Hdata & Hls & Hsrc & ->).
      apply lookup_delete_Some in Hk as [_ Hk].
      exists file, data, ls. split; [apply list_elem_of_here|done].
  - intros [= <-] Hk.
    destruct (IH newer eq_refl Hk) as (f & data & ls & Hf & Hrest).
    exists f, data, ls. split; [by apply list_elem_of_further|done].
  - intros [= <-] Hk.
    apply fileDelta_lookup in Holder as (_ & _ & data & ls & Hdata & Hls & Hsrc & ->).
    apply lookup_delete_Some in Hk as [_ Hk].
    exists file, data, ls. split; [apply list_elem_of_here|done].
Qed.

Lemma scanDelta_domain (files : list CookieFile) (d : string) :
  is_Some (scanDelta files !! d) → d ≠ "" ∧ is_inherited d = false.
Proof.
  induction files as [|file files IH]; simpl; [by intros [? ?]|].
  unfold joinBuckets. rewrite lookup_union_with.
  destruct (fileDelta file !! d) as [older|] eqn:Holder.
  - intros _. by apply fileDelta_lookup in Holder as (? & ? & _).
  - destruct (scanDelta files !! d) as [newer|]; simpl; [|by intros [? ?]].
    intros _. apply IH. by eexists.
Qed.






(** The names every object inherits hold no [localStorage] of a scan: a
    file named for [__proto__] with a key to assign makes [Object.assign]
    write to [Object.prototype], and the scan is followed no further; a
    file named for [constructor] with an empty [localStorage] object
    creates no bucket; and the key [__proto__] of a file is never stored. *)
Example localStorage_inherited_names :
  sourceDomain "__proto___cookies.json" = Some "__proto__"
  ∧ mergeFiles [ ("__proto___cookies.json",
                  snapshotOf [] [("name", "n"); ("value", "v"); ("domain", "d")]) ]
    = AssignsToBuiltin
  ∧ loadAndMergeAllCookies (Some [ ("constructor_cookies.json", snapshotOf [] []) ])
    = Returns None
  ∧ (∃ st, mergeFiles [ ("x.com_cookies.json", snapshotOf [] [("__proto__", "abc")]) ]
           = Returns st
           ∧ storedValue (merged st) "x.com" "__proto__" = None).
Proof.
  split_and!; [by vm_compute..|]. eexists. split; by vm_compute.
Qed.



(** ** Credential store: the [null] result *)

Lemma firstOccurrences_nil {A K : Type} `{EqDecision K} (key : A → K) (l : list A) :
  firstOccurrences key l = [] ↔ l = [].
Proof. by destruct l. Qed.

Lemma scannedCookies_elem (files : list CookieFile) (c : Cookie.t) :
  c ∈ scannedCookies files ↔ ∃ file, file ∈ files ∧ c ∈ fileCookies file.
Proof.
  unfold scannedCookies. rewrite list_elem_of_In, in_concat. split.
  - intros (l & (file & -> & Hf)%list_elem_of_In%list_elem_of_fmap & Hc%list_elem_of_In).
    by exists file.
  - intros (file & Hf & Hc). exists (fileCookies file).
    split; [|by apply list_elem_of_In].
    apply list_elem_of_In, list_elem_of_fmap. by exists file.
Qed.

(** No cookie is merged exactly when no scanned file has an entry that
    passes the guard. *)
Lemma mergeFiles_no_cookie (files : list CookieFile) :
  withPath <$> firstOccurrences cookieKey (List.filter validCookie (scannedCookies files))
    = []
  ↔ Forall (λ file, ¬ hasValidCookie file) files.
Proof.
  assert (∀ l : list Cookie.t, withPath <$> l = [] ↔ l = []) as ->
    by (intros l; by destruct l).
  rewrite firstOccurrences_nil, Forall_forall. unfold hasValidCookie. split.
  - intros Hnil file Hfile (c & Hc & Hv).
    assert (c ∈ List.filter validCookie (scannedCookies files)) as Hin.
    { apply list_elem_of_In, filter_In. split; [|done].
      apply list_elem_of_In, scannedCookies_elem. by exists file. }
    rewrite Hnil in Hin. by apply elem_of_nil in Hin.
  - intros Hno. destruct (List.filter validCookie (scannedCookies files)) as [|c l] eqn:Hl;
      [done|].
    assert (In c (List.filter validCookie (scannedCookies files))) as Hin
      by (rewrite Hl; by left).
    apply filter_In in Hin as [Hin Hv].
    apply list_elem_of_In, scannedCookies_elem in Hin as (file & Hfile & Hc).
    exfalso. apply (Hno file Hfile). by exists c.
Qed.

Lemma fileDelta_empty (file : CookieFile) :
  fileDelta file = ∅ ↔ ¬ createsBucket file.
Proof.
  unfold fileDelta, createsBucket. split.
  - intros Hempty (data & ls & d & Hdata & Hls & Hsrc & Hne & Hd).
    rewrite Hdata, Hls, Hsrc, Hd in Hempty.
    destruct d; [done|]. cbn [Str.nonempty andb negb] in Hempty.
    apply (f_equal (.!! String a d)) in Hempty.
    by rewrite lookup_singleton_eq, lookup_empty in Hempty.
  - intros Hno.
    destruct file.2 as [data|] eqn:Hdata; [|done].
    destruct (Snapshot.localStorage data) as [ls|] eqn:Hls; [|done].
    destruct (sourceDomain file.1) as [d|] eqn:Hsrc; [|done].
    destruct (Str.nonempty d) eqn:Hne; [|done].
    destruct (is_inherited d) eqn:Hd; [done|].
    exfalso. apply Hno. exists data, ls, d. split_and!; try done.
    intros ->. discriminate Hne.
Qed.

Lemma joinBuckets_empty (newer older : gmap string (gmap string string)) :
  joinBuckets newer older = ∅ ↔ newer = ∅ ∧ older = ∅.
Proof.
  split; [|intros [-> ->]; apply joinBuckets_empty_l].
  intros Hempty. split; apply map_eq; intros i; rewrite lookup_empty;
    apply (f_equal (.!! i)) in Hempty; unfold joinBuckets in Hempty;
    rewrite lookup_union_with, lookup_empty in Hempty;
    by destruct (newer !! i), (older !! i).
Qed.

(** No bucket exists after the scan exactly when no scanned file creates
    one. *)
Lemma mergeFiles_no_bucket (files : list CookieFile) :
  scanDelta files = ∅ ↔ Forall (λ file, ¬ createsBucket file) files.
Proof.
  induction files as [|file files IH]; cbn [scanDelta].
  - split; [constructor|done].
  - rewrite joinBuckets_empty, IH, fileDelta_empty, Forall_cons. tauto.
Qed.

Lemma listAllCookieFiles_elem (cookieDir : option (list CookieFile)) (file : CookieFile) :
  file ∈ listAllCookieFiles cookieDir
  ↔ file ∈ default [] cookieDir ∧ isCookieFileName file.1 = true.
Proof.
  destruct cookieDir as [files|]; simpl.
  - by rewrite list_elem_of_In, filter_In, <- list_elem_of_In.
  - split; [by intros ?%elem_of_nil|by intros [?%elem_of_nil _]].
Qed.

(** The white space before the number of a file name is that of [\s]:
    a no-break space (U+00A0) counts, and the file is scanned for the
    domain before [_cookies]. *)
Example isCookieFileName_white_space :
  let file := "x.com_cookies" +:+ Str.byteString [194; 160]%N +:+ "(1).json" in
  isCookieFileName file = true ∧ sourceDomain file = Some "x.com"
  ∧ isCookieFileName "x.com_cookies_(1).json" = false.
Proof. by vm_compute. Qed.

(** A file that cannot be parsed is skipped: the loop goes on with the
    state it had. *)
Lemma mergeFiles_skips_unparsed (pre post : list CookieFile) (filename : string) :
  mergeFiles (pre ++ (filename, None) :: post) = mergeFiles (pre ++ post).
Proof. unfold mergeFiles, mergeFrom. rewrite !fold_left_app. by destruct (fold_left _ pre _). Qed.

(** What the merge returns when its scan does. *)
Lemma loadAndMergeAllCookies_Returns (cookieDir : option (list CookieFile)) :
  Forall (λ file, assignsToBuiltin file = false) (listAllCookieFiles cookieDir) →
  ∃ st,
    mergeFiles (listAllCookieFiles cookieDir) = Returns st
    ∧ loadAndMergeAllCookies cookieDir
      = Returns (if bool_decide (listAllCookieFiles cookieDir = [])
                    || bool_decide (Merged.cookies (merged st) = [])
                       && bool_decide (Merged.localStorageByDomain (merged st) = ∅)
                 then None else Some (merged st)).
Proof.
  intros [st Hst]%mergeFiles_Returns_iff. exists st. split; [done|].
  unfold loadAndMergeAllCookies. cbv zeta. rewrite Hst.
  case_bool_decide; [done|]. cbn [orb].
  by destruct (bool_decide _ && bool_decide _).
Qed.

Lemma listAllCookieFiles_app (l1 l2 : list CookieFile) :
  listAllCookieFiles (Some (l1 ++ l2))
  = listAllCookieFiles (Some l1) ++ listAllCookieFiles (Some l2).
Proof. apply List.filter_app. Qed.

Lemma listAllCookieFiles_cons (file : CookieFile) (l : list CookieFile) :
  listAllCookieFiles (Some (file :: l))
  = (if isCookieFileName file.1 then [file] else []) ++ listAllCookieFiles (Some l).
Proof. unfold listAllCookieFiles. simpl. by destruct (isCookieFileName file.1). Qed.

Lemma loadAndMergeAllCookies_skips_unparsed (pre post : list CookieFile)
    (filename : string) :
  loadAndMergeAllCookies (Some (pre ++ (filename, None) :: post))
  = loadAndMergeAllCookies (Some (pre ++ post)).
Proof.
  unfold loadAndMergeAllCookies.
  rewrite !listAllCookieFiles_app.
  rewrite listAllCookieFiles_cons. cbn [fst].
  generalize (listAllCookieFiles (Some pre)) (listAllCookieFiles (Some post)).
  intros A B. destruct (isCookieFileName filename); [|done].
  cbn [app]. rewrite mergeFiles_skips_unparsed.
  rewrite (bool_decide_eq_false_2 (A ++ _ :: B = [])) by (by destruct A).
  destruct (decide (A ++ B = [])) as [Hnil|Hne].
  - rewrite Hnil. change (mergeFiles []) with (Returns initialState). simpl.
    by rewrite !bool_decide_eq_true_2.
  - by rewrite (bool_decide_eq_false_2 (A ++ B = [])).
Qed.

(** C6, as stated, fails in both directions.  A file whose name derives
    no domain holds [localStorage] entries, yet nothing of it is merged and
    the result is [null]; and a file that holds neither a cookie nor a
    [localStorage] entry, but an empty [localStorage] object, makes the
    result a merged set with an empty bucket. *)
Lemma loadAndMergeAllCookies_null_not_as_claimed :
  (let cookieDir : option (list CookieFile) :=
     Some [ ("www._cookies.json", snapshotOf [] [("token", "abc")]) ] in
   loadAndMergeAllCookies cookieDir = Returns None
   ∧ ¬ (listAllCookieFiles cookieDir = []
        ∨ Forall (λ file, ¬ holdsMaterial file) (listAllCookieFiles cookieDir)))
  ∧ (let cookieDir : option (list CookieFile) :=
       Some [ ("a.com_cookies.json", snapshotOf [] []) ] in
     loadAndMergeAllCookies cookieDir = Returns (Some (Merged.mk [] {[ "a.com" := ∅ ]}))
     ∧ Forall (λ file, ¬ holdsMaterial file) (listAllCookieFiles cookieDir)).
Proof.
  split; split.
  - reflexivity.
  - intros [Hnil|Hnone]; [discriminate Hnil|].
    apply Forall_cons in Hnone as [Hfile _]. apply Hfile. right.
    eexists _, _. split_and!; [reflexivity|reflexivity|].
    intros Hempty. apply (f_equal (.!! "token")) in Hempty. discriminate Hempty.
  - by vm_compute.
  - repeat constructor.
    intros [(c & Hc & _)|(data & ls & [= <-] & [= <-] & Hne)].
    + by apply elem_of_nil in Hc.
    + by apply Hne.
Qed.

(** C6, amended.  In a directory none of whose matching files makes
    [Object.assign] reach [Object.prototype] or a built-in function, the
    merge returns, and it returns [null] exactly when no file of the
    directory has a name of the form [<domain>_cookies.json] or
    [<domain>_cookies (n).json], or no such file has a cookie entry with
    non-empty name, value and domain and none creates a [localStorage]
    bucket; a file creates a bucket when it parses, has a [localStorage]
    object, even an empty one, and its name derives a non-empty domain that
    is no name every object inherits.  Otherwise the merged set of the scan
    is returned.  A file that cannot be parsed is skipped and the merge
    goes on. *)
Theorem loadAndMergeAllCookies_null_iff (cookieDir : option (list CookieFile)) :
  Forall (λ file, assignsToBuiltin file = false) (listAllCookieFiles cookieDir) →
  ∃ result,
    loadAndMergeAllCookies cookieDir = Returns result
    ∧ (result = None
       ↔ (∀ file, file ∈ default [] cookieDir → isCookieFileName file.1 = false)
         ∨ Forall (λ file, ¬ hasValidCookie file ∧ ¬ createsBucket file)
             (listAllCookieFiles cookieDir))
    ∧ (∀ cookieData, result = Some cookieData →
         ∃ st, mergeFiles (listAllCookieFiles cookieDir) = Returns st
               ∧ cookieData = merged st)
    ∧ (∀ pre post filename,
         cookieDir = Some (pre ++ (filename, None) :: post) →
         loadAndMergeAllCookies (Some (pre ++ post)) = Returns result).
Proof.
  intros Hfiles.
  destruct (loadAndMergeAllCookies_Returns cookieDir Hfiles) as (st & Hst & Hrun).
  eexists. split; [exact Hrun|].
  destruct (mergeFiles_Returns _ _ Hst) as (Hc & Hl & _).
  split_and!.
  - rewrite Hc, Hl.
    assert (listAllCookieFiles cookieDir = []
            ↔ ∀ file, file ∈ default [] cookieDir → isCookieFileName file.1 = false)
      as <-.
    { split.
      + intros Hnil file Hfile. destruct (isCookieFileName file.1) eqn:Hname; [|done].
        assert (file ∈ listAllCookieFiles cookieDir) as Hin
          by (by apply listAllCookieFiles_elem).
        rewrite Hnil in Hin. by apply elem_of_nil in Hin.
      + intros Hno. destruct (listAllCookieFiles cookieDir) as [|file l] eqn:Hfl; [done|].
        assert (file ∈ listAllCookieFiles cookieDir) as Hin
          by (rewrite Hfl; apply list_elem_of_here).
        apply listAllCookieFiles_elem in Hin as [Hin Hname].
        by rewrite (Hno file Hin) in Hname. }
    rewrite Forall_and, <- mergeFiles_no_cookie, <- mergeFiles_no_bucket.
    repeat case_bool_decide; cbn [orb andb]; split; try done; tauto.
  - intros cookieData Hdata. exists st. split; [done|].
    destruct (_ || _); [done|]. by injection Hdata.
  - intros pre post filename ->.
    etrans; [symmetry; apply (loadAndMergeAllCookies_skips_unparsed pre post filename)|].
    exact Hrun.
Qed.

Lemma loadAndMergeAllCookies_null_iff_example :
  ∃ cookieData,
    loadAndMergeAllCookies
      (Some [ ("notes.txt", None);
              ("broken_cookies.json", None);
              ("a.com_cookies.json", Some (Snapshot.mk (Some []) (Some ∅))) ])
    = Returns (Some cookieData).
Proof.
  set (cookieDir := Some [ ("notes.txt", None);
                           ("broken_cookies.json", None);
                           ("a.com_cookies.json", Some (Snapshot.mk (Some []) (Some ∅))) ]).
  assert (Forall (λ file : CookieFile, assignsToBuiltin file = false)
            (listAllCookieFiles cookieDir)) as Hfiles.
  { repeat constructor. }
  destruct (loadAndMergeAllCookies_null_iff cookieDir Hfiles)
    as ([cookieData|] & Hrun & Hiff & _ & _).
  - by exists cookieData.
  - exfalso. destruct (proj1 Hiff eq_refl) as [Hno|Hall].
    + specialize (Hno ("a.com_cookies.json", Some (Snapshot.mk (Some []) (Some ∅)))).
      discriminate Hno. do 2 apply list_elem_of_further. apply list_elem_of_here.
    + apply Forall_cons in Hall as [_ [[_ Hbucket] _]%Forall_cons].
      apply Hbucket.
      exists (Snapshot.mk (Some []) (Some ∅)), ∅, "a.com". by split_and!.
Defined.

(** ** Credential store: order of the scan *)







(** ** Credential store: scanning the same files again *)

(** In a scan none of whose files makes [Object.assign] reach
    [Object.prototype] or a built-in function, scanning the same files once
    more into the merged set leaves it as it is: every cookie key is
    already seen, and every bucket already holds what the files assign to
    it. *)
Theorem mergeFiles_rescan (files : list CookieFile) :
  Forall (λ file, assignsToBuiltin file = false) files →
  ∃ st, mergeFiles files = Returns st ∧ mergeFrom (Returns st) files = Returns st.
Proof.
  intros Hfiles. pose proof Hfiles as [st Hst]%mergeFiles_Returns_iff.
  exists st. split; [done|].
  destruct (mergeFiles_Returns files st Hst) as (Hc & Hl & Hs).
  rewrite mergeFrom_spec by (rewrite Hl; apply scanDelta_noInherited).
  rewrite (proj1 (assignsToBuiltin_Forall files) Hfiles).
  rewrite firstUnseen_all_seen, app_nil_r, Hl, joinBuckets_idemp.
  2:{ intros c Hin. rewrite Hs. apply elem_of_list_to_set, list_elem_of_fmap.
      by exists c. }
  rewrite Hs, (idemp_L (∪)), <- Hs, <- Hl. by destruct st as [[? ?] ?].
Qed.

Lemma mergeFiles_rescan_example :
  let files : list CookieFile :=
    [ ("x.com_cookies.json",
       snapshotOf [exampleCookie "a" "1" "x.com" None] [("token", "old")]);
      ("x.com_cookies (1).json",
       snapshotOf [exampleCookie "a" "2" "x.com" None] [("token", "new")]) ] in
  ∃ st, mergeFiles files = Returns st ∧ mergeFrom (Returns st) files = Returns st.
Proof.
  intros files. apply (mergeFiles_rescan files). repeat constructor.
Defined.

(** ** White space and line breaks of the front matter *)

Section TrimFacts.

Lemma trimStart_cons (a : ascii) (r1 : string) :
  Str.trimStart (String a r1)
  = if Str.isWhiteSpace (String a "") then Str.trimStart r1
    else
      match r1 with
      | EmptyString => String a r1
      | String b r2 =>
          if Str.isWhiteSpace (String a (String b "")) then Str.trimStart r2
          else
            match r2 with
            | EmptyString => String a r1
            | String c r3 =>
                if Str.isWhiteSpace (String a (String b (String c "")))
                then Str.trimStart r3
                else String a r1
            end
      end.
Proof. reflexivity. Qed.

Lemma trimStart_leadingSpace (s : string) :
  Str.trimStart s
  = match Str.leadingSpace s with
    | Some rest => Str.trimStart rest
    | None => s
    end.
Proof.
  destruct s as [|a r1]; [done|]. rewrite trimStart_cons. unfold Str.leadingSpace.
  destruct (Str.isWhiteSpace (String a "")); [done|].
  destruct r1 as [|b r2]; [done|].
  destruct (Str.isWhiteSpace (String a (String b ""))); [done|].
  destruct r2 as [|c r3]; [done|].
  by destruct (Str.isWhiteSpace (String a (String b (String c "")))).
Qed.

Lemma leadingSpace_suffix (s rest : string) :
  Str.leadingSpace s = Some rest →
  ∃ char, s = char +:+ rest ∧ char ≠ "" ∧ Str.isWhiteSpace char = true.
Proof.
  unfold Str.leadingSpace. destruct s as [|a r1]; [done|].
  destruct (Str.isWhiteSpace (String a "")) eqn:H1;
    [intros [= <-]; by exists (String a "")|].
  destruct r1 as [|b r2]; [done|].
  destruct (Str.isWhiteSpace (String a (String b ""))) eqn:H2;
    [intros [= <-]; by exists (String a (String b ""))|].
  destruct r2 as [|c r3]; [done|].
  destruct (Str.isWhiteSpace (String a (String b (String c "")))) eqn:H3; [|done].
  intros [= <-]. by exists (String a (String b (String c ""))).
Qed.

Lemma length_append (a b : string) :
  String.length (a +:+ b) = (String.length a + String.length b)%nat.
Proof. induction a as [|x a IH]; [done|]. rewrite append_cons. simpl. by rewrite IH. Qed.

(** Facts on [trimStart] go by the length of the string. *)
Lemma trimStart_ind (P : string → Prop) :
  (∀ s, (∀ rest, Str.leadingSpace s = Some rest → P rest) → P s) → ∀ s, P s.
Proof.
  intros Hstep s.
  remember (String.length s) as n eqn:Hn. revert s Hn.
  induction (lt_wf n) as [n _ IH]. intros s ->.
  apply Hstep. intros rest (char & -> & Hchar & _)%leadingSpace_suffix.
  apply (IH (String.length rest)); [|done].
  rewrite length_append. destruct char; [done|]. simpl. lia.
Qed.

(** What [trimStart] leaves starts with no white space, and is the end
    of the string. *)
Lemma trimStart_start (s : string) : Str.leadingSpace (Str.trimStart s) = None.
Proof.
  induction s as [s IH] using trimStart_ind. rewrite trimStart_leadingSpace.
  destruct (Str.leadingSpace s) as [rest|] eqn:Hs; [by apply IH|done].
Qed.

Lemma trimStart_suffix (s : string) : ∃ spaces, s = spaces +:+ Str.trimStart s.
Proof.
  induction s as [s IH] using trimStart_ind. rewrite trimStart_leadingSpace.
  destruct (Str.leadingSpace s) as [rest|] eqn:Hs; [|by exists ""].
  destruct (IH rest eq_refl) as [spaces Hrest].
  apply leadingSpace_suffix in Hs as (char & -> & _).
  exists (char +:+ spaces). by rewrite append_assoc, <- Hrest.
Qed.


Lemma trimEnd_cons (c : ascii) (r : string) :
  Str.trimEnd (String c r)
  = if Str.isWhiteSpace (String c (Str.trimEnd r)) then EmptyString
    else String c (Str.trimEnd r).
Proof. reflexivity. Qed.

Lemma trimEnd_idemp (s : string) : Str.trimEnd (Str.trimEnd s) = Str.trimEnd s.
Proof.
  induction s as [|c r IH]; [done|].
  rewrite trimEnd_cons.
  destruct (Str.isWhiteSpace (String c (Str.trimEnd r))) eqn:Hc; [done|].
  by rewrite trimEnd_cons, IH, Hc.
Qed.






Lemma trimEnd_prefix (s : string) : ∃ spaces, s = Str.trimEnd s +:+ spaces.
Proof.
  induction s as [|c r [spaces IH]]; [by exists ""|].
  rewrite trimEnd_cons.
  destruct (Str.isWhiteSpace (String c (Str.trimEnd r))).
  - by exists (String c r).
  - exists spaces. by rewrite append_cons, <- IH.
Qed.

Lemma leadingSpace_append (s rest after : string) :
  Str.leadingSpace s = Some rest → Str.leadingSpace (s +:+ after) = Some (rest +:+ after).
Proof.
  unfold Str.leadingSpace. destruct s as [|a r1]; [done|]. rewrite append_cons.
  destruct (Str.isWhiteSpace (String a "")); [by intros [= <-]|].
  destruct r1 as [|b r2]; [done|]. rewrite append_cons.
  destruct (Str.isWhiteSpace (String a (String b ""))); [by intros [= <-]|].
  destruct r2 as [|c r3]; [done|]. rewrite append_cons.
  destruct (Str.isWhiteSpace (String a (String b (String c "")))); [|done].
  by intros [= <-].
Qed.

Lemma trim_idemp (s : string) : Str.trim (Str.trim s) = Str.trim s.
Proof.
  unfold Str.trim. pose proof (trimStart_start s) as Hs.
  destruct (trimEnd_prefix (Str.trimStart s)) as [spaces Hpre].
  rewrite (trimStart_leadingSpace (Str.trimEnd _)).
  destruct (Str.leadingSpace (Str.trimEnd (Str.trimStart s))) as [rest|] eqn:Hlead.
  - apply (leadingSpace_append _ _ spaces) in Hlead. rewrite <- Hpre in Hlead. congruence.
  - apply trimEnd_idemp.
Qed.

Lemma forallb_trimStart (p : ascii → bool) (s : string) :
  Str.forallb p s = true → Str.forallb p (Str.trimStart s) = true.
Proof.
  destruct (trimStart_suffix s) as [spaces Hs]. rewrite Hs at 1.
  rewrite forallb_append. by intros [_ ?]%andb_true_iff.
Qed.

Lemma forallb_trimEnd (p : ascii → bool) (s : string) :
  Str.forallb p s = true → Str.forallb p (Str.trimEnd s) = true.
Proof.
  destruct (trimEnd_prefix s) as [spaces Hs]. rewrite Hs at 1.
  rewrite forallb_append. by intros [? _]%andb_true_iff.
Qed.

Lemma spaceNewlines_cons (c : ascii) (r : string) :
  spaceNewlines (String c r)
  = if Str.is_newline c then String " " (spaceNewlines r)
    else
      match r with
      | String c' r' =>
          if Ascii.eqb c (ascii_of_nat 13) && Str.is_newline c'
          then String " " (spaceNewlines r')
          else String c (spaceNewlines r)
      | EmptyString => String c EmptyString
      end.
Proof. destruct r; reflexivity. Qed.

Lemma spaceNewlines_no_newline (s : string) :
  Str.forallb (λ c, negb (Str.is_newline c)) (spaceNewlines s) = true.
Proof.
  enough (Str.forallb (λ c, negb (Str.is_newline c)) (spaceNewlines s) = true
          ∧ ∀ c, Str.forallb (λ c, negb (Str.is_newline c)) (spaceNewlines (String c s)) = true)
    as [H _] by exact H.
  induction s as [|c' r [IH1 IH2]].
  - split; [done|]. intros c. rewrite spaceNewlines_cons.
    destruct (Str.is_newline c) eqn:Hc; cbn [Str.forallb]; [done|by rewrite Hc].
  - split; [apply IH2|]. intros c.
    rewrite (spaceNewlines_cons c).
    destruct (Str.is_newline c) eqn:Hc.
    + cbn [Str.forallb]. rewrite IH2. done.
    + destruct (Ascii.eqb c (ascii_of_nat 13) && Str.is_newline c').
      * cbn [Str.forallb]. rewrite IH1. done.
      * cbn [Str.forallb]. rewrite Hc, IH2. done.
Qed.

Lemma toYamlPlainString_no_newline (value : string) :
  Str.forallb (λ c, negb (Str.is_newline c)) (toYamlPlainString value) = true.
Proof.
  unfold toYamlPlainString, Str.trim.
  apply forallb_trimEnd, forallb_trimStart, spaceNewlines_no_newline.
Qed.

End TrimFacts.

(** A value printed in the front matter holds no line feed and has no
    white space at either end, whatever the title or URL it comes from. *)
Theorem toYamlPlainString_plain (value : string) :
  Str.forallb (λ c, negb (Str.is_newline c)) (toYamlPlainString value) = true
  ∧ Str.trim (toYamlPlainString value) = toYamlPlainString value.
Proof.
  split; [apply toYamlPlainString_no_newline|].
  unfold toYamlPlainString. apply trim_idemp.
Qed.

(** Every line of the front matter is a single line: a title, a URL or a
    final URL with line feeds in it cannot add lines to the block. *)
Theorem yamlLines_single_lines (url finalUrl title content : string)
    (domainRule : jsval) :
  Forall (λ line, Str.forallb (λ c, negb (Str.is_newline c)) line = true)
    (yamlLines url finalUrl title content domainRule).
Proof.
  assert (∀ key value,
            Str.forallb (λ c, negb (Str.is_newline c)) key = true →
            Str.forallb (λ c, negb (Str.is_newline c)) (key +:+ toYamlPlainString value)
            = true) as Hline.
  { intros key value Hkey.
    by rewrite forallb_append, Hkey, toYamlPlainString_no_newline. }
  unfold yamlLines. rewrite !Forall_app. split_and!.
  - repeat (apply Forall_cons_2; [first [by apply Hline|reflexivity]|]). apply Forall_nil_2.
  - destruct (Str.nonempty finalUrl && negb (String.eqb finalUrl url));
      [|apply Forall_nil_2].
    apply Forall_cons_2; [by apply Hline|apply Forall_nil_2].
  - destruct (needsLoginState content domainRule); [|apply Forall_nil_2].
    apply Forall_cons_2; [by apply Hline|apply Forall_nil_2].
  - repeat (apply Forall_cons_2; [reflexivity|]). apply Forall_nil_2.
Qed.

(** The front matter has a [final_url] line exactly when the final URL is
    not empty and differs from the URL asked for. *)
Theorem yamlLines_final_url (url finalUrl title content : string) (domainRule : jsval) :
  (∃ line, line ∈ yamlLines url finalUrl title content domainRule
      ∧ Str.startsWith line "final_url:" = true)
  ↔ finalUrl ≠ "" ∧ finalUrl ≠ url.
Proof.
  unfold yamlLines. split.
  - intros (line & Hin & Hpre).
    destruct finalUrl as [|c0 f0]; [|destruct (String.eqb_spec (String c0 f0) url)];
      simpl in Hin;
      [| |split; [done|done]];
      destruct (needsLoginState content domainRule);
      repeat (apply elem_of_app in Hin as [Hin|Hin]);
      repeat (apply elem_of_cons in Hin as [->|Hin]);
      try (by apply elem_of_nil in Hin); by simpl in Hpre.
  - intros [Hne Hdiff].
    exists ("final_url: " +:+ toYamlPlainString finalUrl). split; [|reflexivity].
    rewrite !elem_of_app. right. left.
    destruct finalUrl as [|c0 f0]; [done|].
    destruct (String.eqb_spec (String c0 f0) url); [done|].
    apply list_elem_of_here.
Qed.

(** ** Data directory *)

(** White space around the configured directory does not matter: the
    value and its trimmed form resolve to the same directory. *)
Theorem resolveDataDir_trim (homedir : string) (path_join : list string → string)
    (path_resolve : string → string) (configured : string) :
  resolveDataDir homedir path_join path_resolve (Some (Str.trim configured))
  = resolveDataDir homedir path_join path_resolve (Some configured).
Proof.
  unfold resolveDataDir. rewrite trim_idemp.
  destruct (String.eqb_spec (Str.trim configured) "") as [Hblank|Hne].
  - rewrite Hblank. simpl. by rewrite orb_true_r.
  - assert (Str.nonempty (Str.trim configured) = true) as ->
      by (by destruct (Str.trim configured)).
    assert (Str.nonempty configured = true) as -> by (by destruct configured).
    done.
Qed.

(** ** Blank-line compression: texts without a run of three *)

Lemma replaceNewlineRuns_clean (s : string) :
  Str.includes s (Str.replicate 3 Str.newline) = false →
  replaceNewlineRuns false s = s.
Proof.
  induction s as [|c r IH]; [done|].
  cbn [Str.includes]. rewrite startsWith_three.
  intros [Hstart Hr]%orb_false_iff.
  cbn [replaceNewlineRuns]. rewrite (IH Hr).
  destruct (Str.is_newline c); [|done].
  simpl in Hstart. by rewrite Hstart.
Qed.

(** The compression changes a text exactly when the text holds three
    consecutive newlines. *)
Theorem compressBodyText_unchanged_iff (bodyText : string) :
  compressBodyText bodyText = bodyText
  ↔ Str.includes bodyText (Str.replicate 3 Str.newline) = false.
Proof.
  split.
  - intros <-. apply replaceNewlineRuns_no_triple.
  - apply replaceNewlineRuns_clean.
Qed.

(** Compressing twice gives what compressing once gives. *)
Theorem compressBodyText_idempotent (bodyText : string) :
  compressBodyText (compressBodyText bodyText) = compressBodyText bodyText.
Proof.
  apply replaceNewlineRuns_clean, replaceNewlineRuns_no_triple.
Qed.

(** ** Page store: what a file name can hold *)

Lemma span_append (f : ascii → bool) (a : string) (c : ascii) (r : string) :
  Str.forallb f a = true → f c = false →
  Str.span f (a +:+ String c r) = (a, String c r).
Proof.
  intros Ha Hc. induction a as [|x a IH].
  - rewrite append_nil. simpl. by rewrite Hc.
  - rewrite append_cons. simpl in *.
    apply andb_true_iff in Ha as [Hx Ha]. by rewrite Hx, (IH Ha).
Qed.

(** The path part of a file name holds letters, digits, [.], [-] and
    [_] only, one character for each character of the URL path: no
    separator of directories survives. *)
Theorem sanitizePath_chars (pathname : string) :
  Str.forallb (λ c, keptInFileName c || Ascii.eqb c "_") (sanitizePath pathname) = true
  ∧ String.length (sanitizePath pathname) = String.length pathname.
Proof.
  unfold sanitizePath. induction pathname as [|c r [IHc IHl]]; [done|].
  split.
  - cbn [Str.map Str.forallb]. rewrite IHc, andb_true_r.
    destruct (keptInFileName c) eqn:Hc; [by rewrite Hc|reflexivity].
  - simpl. by rewrite IHl.
Qed.

Lemma pageFileName_outcomes (urlObj : URL) (now1 now2 : Date) :
  pageFileName urlObj now1 true ≠ pageFileName urlObj now2 false.
Proof.
  rewrite !pageFileName_isoDate. intros Heq.
  do 3 apply append_inj_l in Heq.
  change (isoDate now1 +:+ String "_" "ERROR.md" = isoDate now2 +:+ String "." "md") in Heq.
  assert (Str.span isDateChar (isoDate now1 +:+ String "_" "ERROR.md")
          = Str.span isDateChar (isoDate now2 +:+ String "." "md")) as Hspan
    by (by rewrite Heq).
  rewrite !span_append in Hspan by (apply isoDate_chars || reflexivity).
  discriminate Hspan.
Qed.

(** A page saved with success is still there, with its content, after an
    error for the same URL is saved, on whichever day: the two outcomes
    never share a file. *)
Theorem savePageContent_error_apart
    (URL_parse : string → option URL) (PAGES_DIR : string)
    (writeError : gmap string string → string → string → option (option string))
    (fs : gmap string string) (url content friendly title : string)
    (now1 now2 : Date) (filePath : string) :
  let saved :=
    savePageContent URL_parse PAGES_DIR writeError fs url content title false now1 in
  let failed :=
    savePageContent URL_parse PAGES_DIR writeError saved.2 url friendly "Fetch Error" true
      now2 in
  saved.1 = Some filePath →
  failed.1 ≠ Some filePath ∧ failed.2 !! filePath = Some content.
Proof.
  unfold savePageContent. destruct (URL_parse url) as [urlObj|]; cbv zeta; [|done].
  assert (PAGES_DIR +:+ "/" +:+ pageFileName urlObj now2 true
          ≠ PAGES_DIR +:+ "/" +:+ pageFileName urlObj now1 false) as Hne.
  { intros Heq. do 2 apply append_inj_l in Heq.
    by apply pageFileName_outcomes in Heq. }
  destruct (writeError fs _ content) as [[?|]|]; try done.
  intros [= <-]. cbn [snd].
  destruct (writeError _ _ friendly) as [[?|]|]; cbn [fst snd].
  - split; [done|]. rewrite lookup_insert_ne by done. by rewrite lookup_insert_eq.
  - split; [done|]. by rewrite lookup_insert_eq.
  - split; [by intros [= Heq]|].
    rewrite lookup_insert_ne by done. by rewrite lookup_insert_eq.
Qed.

Lemma savePageContent_error_apart_example :
  let saved := savePageContent plainURL "/data/pages" (λ _ _ _, None) ∅
                 "https://example.com/a" "page" "t" false exampleDate in
  let failed := savePageContent plainURL "/data/pages" (λ _ _ _, None) saved.2
                  "https://example.com/a" "failure" "Fetch Error" true exampleDate in
  failed.1 ≠ Some "/data/pages/example.com_a_2026-11-02.md"
  ∧ failed.2 !! "/data/pages/example.com_a_2026-11-02.md" = Some "page".
Proof.
  apply (savePageContent_error_apart plainURL "/data/pages" (λ _ _ _, None) ∅
           "https://example.com/a" "page" "failure" "t" exampleDate exampleDate).
  reflexivity.
Defined.

(** ** Domain rules: the normalised table *)

Lemma fold_normalizeStep (P : string → DomainRule → Prop) (raw : list (string * json)) :
  (∀ domain value rule,
     (domain, value) ∈ raw → domain ≠ "" → normalizeEntry value = Some rule →
     P domain rule) →
  ∀ t,
    Forall (λ entry, P entry.1 entry.2 ∧ entry.1 ≠ "__proto__") (own t) →
    (∀ r, proto t = Some r → P "__proto__" r) →
    Forall (λ entry, P entry.1 entry.2 ∧ entry.1 ≠ "__proto__")
      (own (fold_left normalizeStep raw t))
    ∧ (∀ r, proto (fold_left normalizeStep raw t) = Some r → P "__proto__" r).
Proof.
  induction raw as [|[domain value] raw IH]; intros HP t Hown Hproto; simpl; [done|].
  apply IH.
  - intros d v r Hin. apply HP. by apply list_elem_of_further.
  - destruct domain as [|c0 d0]; [done|]. cbn [Str.nonempty].
    destruct (normalizeEntry value) as [rule|] eqn:Hrule; [|done].
    assert (P (String c0 d0) rule) as Hnew
      by (apply (HP _ value); [apply list_elem_of_here|done|done]).
    unfold table_set.
    destruct (String.eqb_spec (String c0 d0) "__proto__") as [Heq|Hne]; simpl; [done|].
    by apply set_own_Forall.
  - destruct domain as [|c0 d0]; [done|]. cbn [Str.nonempty].
    destruct (normalizeEntry value) as [rule|] eqn:Hrule; [|done].
    assert (P (String c0 d0) rule) as Hnew
      by (apply (HP _ value); [apply list_elem_of_here|done|done]).
    unfold table_set.
    destruct (String.eqb_spec (String c0 d0) "__proto__") as [Heq|Hne]; simpl; [|done].
    intros r [= <-]. by rewrite <- Heq.
Qed.

(** Every rule stored in the normalised table sits under a key of the raw
    table that is not empty and not [__proto__], and each of its markers
    has a character other than white space. *)
Theorem normalizeDomainRules_entries (rawRules : json) :
  Forall (λ entry,
            (entry.1 ∈ (entries rawRules).*1 ∧ entry.1 ≠ ""
             ∧ Forall (λ marker, Str.trim marker ≠ "") (blockedIfContains entry.2))
            ∧ entry.1 ≠ "__proto__")
    (own (normalizeDomainRules rawRules)).
Proof.
  unfold normalizeDomainRules.
  refine (proj1 (fold_normalizeStep
                   (λ domain rule,
                      domain ∈ (entries rawRules).*1 ∧ domain ≠ ""
                      ∧ Forall (λ marker, Str.trim marker ≠ "") (blockedIfContains rule))
                   (entries rawRules) _ emptyTable _ _)).
  - intros domain value rule Hin Hne Hrule. split_and!; [|done|].
    + apply list_elem_of_fmap. by exists (domain, value).
    + destruct value as [| | |s|items|props]; simpl in Hrule; try done;
        injection Hrule as <-; simpl; try apply Forall_nil_2.
      destruct (own_prop "blocked_if_contains" props) as [[| | | |items|]|];
        try apply Forall_nil_2.
      apply Forall_forall. intros marker [item [_ Hk]]%list_elem_of_omap.
      destruct item as [| | |s'| |]; simpl in Hk; try done.
      destruct (Str.nonempty (Str.trim s')) eqn:Ht; [|done].
      injection Hk as <-. intros Hblank. by rewrite Hblank in Ht.
  - apply Forall_nil_2.
  - done.
Qed.

Lemma fold_normalizeStep_ext (f g : string → json) (legacy : list (string * string)) :
  (∀ s, normalizeEntry (f s) = normalizeEntry (g s)) →
  ∀ t,
    fold_left normalizeStep ((λ e, (e.1, f e.2)) <$> legacy) t
    = fold_left normalizeStep ((λ e, (e.1, g e.2)) <$> legacy) t.
Proof.
  intros Hfg. induction legacy as [|[d s] legacy IH]; intros t; simpl; [done|].
  rewrite (Hfg s). apply IH.
Qed.

(** A table in the older form, a selector string for each domain, gives
    the same rules as the table that wraps each selector in an object. *)
Theorem normalizeDomainRules_legacy (legacy : list (string * string)) :
  normalizeDomainRules (JObject ((λ e, (e.1, JString e.2)) <$> legacy))
  = normalizeDomainRules
      (JObject ((λ e, (e.1, JObject [("selector", JString e.2)])) <$> legacy)).
Proof.
  unfold normalizeDomainRules. cbn [entries].
  by apply (fold_normalizeStep_ext JString (λ s, JObject [("selector", JString s)])).
Qed.

(** ** Domain rule resolver: own keys and results *)

(** A rule stored under the lower-cased host name is the one returned,
    whatever else the table or its prototype holds. *)
Theorem getDomainRuleForUrl_exact (URL_parse : string → option URL)
    (domainRules : RuleTable) (url : string) (urlObj : URL) (rule : DomainRule) :
  URL_parse url = Some urlObj →
  own_prop (Str.toLowerCase (hostname urlObj)) (own domainRules) = Some rule →
  getDomainRuleForUrl URL_parse domainRules url = VRule rule.
Proof.
  intros Hurl Hown. unfold getDomainRuleForUrl. rewrite Hurl. cbv zeta.
  unfold table_get. by rewrite Hown.
Qed.

Lemma getDomainRuleForUrl_exact_example :
  getDomainRuleForUrl plainURL
    (normalizeDomainRules
       (JObject [("example.com", JString "article"); ("constructor", JString "main")]))
    "https://Constructor/"
  = VRule (mkRule (Some "main") []).
Proof.
  apply (getDomainRuleForUrl_exact plainURL _ _ (mkURL "constructor" "/"));
    reflexivity.
Defined.

Lemma getDomainRuleForUrl_shape_example :
  wellShaped
    (getDomainRuleForUrl plainURL
       (normalizeDomainRules
          (JObject [("example.com",
                     JObject [("selector", JString "article");
                              ("blocked_if_contains", JArray [JString "Sign in"; JString " "])])]))
       "https://m.example.com/post/1").
Proof.
  apply (getDomainRuleForUrl_shape plainURL).
  - reflexivity.
  - intros urlObj Hurl. vm_compute in Hurl. injection Hurl as <-.
    split; reflexivity.
Defined.

(** ** Credential store: the merged cookies as they are handed on *)

Lemma firstOccurrences_Forall {A K : Type} `{Countable K} (P : A → Prop) (key : A → K)
    (l : list A) :
  Forall P l → Forall P (firstOccurrences key l).
Proof.
  rewrite !Forall_forall. intros Hl x Hx. by apply Hl, (firstOccurrences_elem key).
Qed.

Lemma mergedCookies_valid (files : list CookieFile) (st : MergeState) :
  mergeFiles files = Returns st →
  Forall (λ c, validCookie c = true ∧ Cookie.path c = Some (pathVal c))
    (Merged.cookies (merged st)).
Proof.
  intros (-> & _ & _)%mergeFiles_Returns.
  apply Forall_fmap, firstOccurrences_Forall, Forall_forall.
  intros c [_ Hv]%list_elem_of_In%filter_In. simpl.
  split; [exact Hv|]. by rewrite pathVal_withPath.
Qed.

(** In a scan none of whose files makes [Object.assign] reach
    [Object.prototype] or a built-in function, every merged cookie has a
    name, a value, a domain and a path, none of them empty, and no two
    merged cookies have the same key string. *)
Theorem mergedCookies_wellformed (files : list CookieFile) :
  Forall (λ file, assignsToBuiltin file = false) files →
  ∃ st,
    mergeFiles files = Returns st
    ∧ Forall (λ c, present (Cookie.name c) = true ∧ present (Cookie.value c) = true
                   ∧ present (Cookie.domain c) = true ∧ present (Cookie.path c) = true)
        (Merged.cookies (merged st))
    ∧ NoDup (cookieKey <$> Merged.cookies (merged st)).
Proof.
  intros [st Hst]%mergeFiles_Returns_iff. exists st. split_and!; [done|..].
  - eapply Forall_impl; [by apply (mergedCookies_valid files)|].
    intros c [Hv Hp]. unfold validCookie in Hv.
    apply andb_true_iff in Hv as [[Hn Hval]%andb_true_iff Hd].
    split_and!; try done. rewrite Hp. apply pathVal_nonempty.
  - rewrite (proj1 (mergeFiles_Returns files st Hst)), <- list_fmap_compose.
    rewrite (list_fmap_ext (cookieKey ∘ withPath) cookieKey _)
      by (intros; apply cookieKey_withPath).
    apply firstOccurrences_NoDup.
Qed.

Lemma mergedCookies_wellformed_example :
  let files : list CookieFile :=
    [ ("x.com_cookies.json",
       snapshotOf [ exampleCookie "a" "1" "x.com" None;
                    Cookie.mk (Some "b") (Some "2") (Some "x.com") None false false None None;
                    exampleCookie "c" "" "x.com" None ] []);
      ("y.com_cookies.json", snapshotOf [exampleCookie "a" "3" "x.com" None] []) ] in
  ∃ st,
    mergeFiles files = Returns st
    ∧ Forall (λ c, present (Cookie.name c) = true ∧ present (Cookie.value c) = true
                   ∧ present (Cookie.domain c) = true ∧ present (Cookie.path c) = true)
        (Merged.cookies (merged st))
    ∧ NoDup (cookieKey <$> Merged.cookies (merged st)).
Proof.
  intros files. apply (mergedCookies_wellformed files). repeat constructor.
Defined.

Lemma cookiesToSet_valid (cookies : list Cookie.t) :
  Forall (λ c, validCookie c = true ∧ Cookie.path c = Some (pathVal c)) cookies →
  Forall2 (λ c e,
             Cookie.name c = Some (BrowserCookie.name e)
             ∧ Cookie.value c = Some (BrowserCookie.value e)
             ∧ Cookie.domain c = Some (BrowserCookie.domain e)
             ∧ Cookie.path c = Some (BrowserCookie.path e))
    cookies (cookiesToSet cookies).
Proof.
  induction 1 as [|c cookies [Hv Hp] _ IH]; [constructor|].
  unfold cookiesToSet. cbn [omap list_omap]. fold (cookiesToSet cookies).
  unfold validCookie, present, cookieEntry in *.
  destruct (Cookie.name c) as [n|] eqn:Hn, (Cookie.value c) as [v|] eqn:Hval,
    (Cookie.domain c) as [d|] eqn:Hd;
    simpl in Hv; rewrite ?andb_false_r in Hv; try discriminate Hv.
  rewrite Hv. constructor; [|exact IH]. cbn [BrowserCookie.name BrowserCookie.value
    BrowserCookie.domain BrowserCookie.path]. by split_and!.
Qed.

(** In a directory none of whose matching files makes [Object.assign]
    reach [Object.prototype] or a built-in function, the cookies of a fetch
    are the merged cookies, one for one and in their order, each with the
    name, value, domain and path it has in the merged set: after the merge
    the guard of the loop skips nothing. *)
Theorem sessionCookies_all (cookieDir : option (list CookieFile)) :
  Forall (λ file, assignsToBuiltin file = false) (listAllCookieFiles cookieDir) →
  ∃ cookieData entries,
    loadAndMergeAllCookies cookieDir = Returns cookieData
    ∧ sessionCookies cookieDir = Returns entries
    ∧ Forall2 (λ c e,
                 Cookie.name c = Some (BrowserCookie.name e)
                 ∧ Cookie.value c = Some (BrowserCookie.value e)
                 ∧ Cookie.domain c = Some (BrowserCookie.domain e)
                 ∧ Cookie.path c = Some (BrowserCookie.path e))
        (default [] (Merged.cookies <$> cookieData)) entries.
Proof.
  intros Hfiles.
  destruct (loadAndMergeAllCookies_Returns cookieDir Hfiles) as (st & Hst & Hrun).
  unfold sessionCookies. rewrite Hrun.
  destruct (_ || _); eexists _, _; (split_and!; [done..|]); [constructor|].
  apply cookiesToSet_valid, (mergedCookies_valid _ _ Hst).
Qed.

Lemma sessionCookies_all_example :
  let cookieDir : option (list CookieFile) :=
    Some [ ("x.com_cookies.json",
            snapshotOf [ exampleCookie "a" "1" "x.com" None;
                         exampleCookie "c" "" "x.com" None ] []);
           ("notes.txt", None) ] in
  ∃ cookieData entries,
    loadAndMergeAllCookies cookieDir = Returns cookieData
    ∧ sessionCookies cookieDir = Returns entries
    ∧ Forall2 (λ c e,
                 Cookie.name c = Some (BrowserCookie.name e)
                 ∧ Cookie.value c = Some (BrowserCookie.value e)
                 ∧ Cookie.domain c = Some (BrowserCookie.domain e)
                 ∧ Cookie.path c = Some (BrowserCookie.path e))
        (default [] (Merged.cookies <$> cookieData)) entries.
Proof.
  intros cookieDir. apply (sessionCookies_all cookieDir). repeat constructor.
Defined.

Lemma mapSameSite_values (val : option string) :
  mapSameSite val ∈ [None; Some "Lax"; Some "Strict"; Some "None"].
Proof.
  unfold mapSameSite. destruct val as [v|]; [|set_solver].
  destruct (Str.nonempty v); [|set_solver]. cbv zeta.
  repeat (match goal with |- context [if ?b then _ else _] => destruct b end);
    set_solver.
Qed.

(** Every entry handed to the browser has a name, a value, a domain and a
    path that are not empty, a [sameSite] that is [Lax], [Strict] or [None]
    when it is set, and an expiry other than zero when it is set. *)
Theorem cookiesToSet_entries (cookies : list Cookie.t) :
  Forall (λ e,
            BrowserCookie.name e ≠ "" ∧ BrowserCookie.value e ≠ ""
            ∧ BrowserCookie.domain e ≠ "" ∧ BrowserCookie.path e ≠ ""
            ∧ BrowserCookie.sameSite e ∈ [None; Some "Lax"; Some "Strict"; Some "None"]
            ∧ match BrowserCookie.expires e with
              | Some q => ¬ (q == 0)%Q
              | None => True
              end)
    (cookiesToSet cookies).
Proof.
  apply Forall_forall. intros e [c [_ He]]%list_elem_of_omap.
  unfold cookieEntry in He.
  destruct (Cookie.name c) as [n|]; [|done].
  destruct (Cookie.value c) as [v|]; [|done].
  destruct (Cookie.domain c) as [d|]; [|done].
  destruct (Str.nonempty n && Str.nonempty v && Str.nonempty d) eqn:Hg; [|done].
  apply andb_true_iff in Hg as [[Hn Hv]%andb_true_iff Hd].
  injection He as <-. simpl. split_and!.
  - by intros ->.
  - by intros ->.
  - by intros ->.
  - pose proof (pathVal_nonempty c) as Hp. intros Heq. by rewrite Heq in Hp.
  - apply mapSameSite_values.
  - destruct (expiration c) as [q|] eqn:Hq; [|done].
    apply expiration_Some in Hq as [_ Hq].
    by apply truthyNumber_nonzero, truthyNumber_iff.
Qed.

(** ** Expiry over all domains *)

Lemma expiryStepAll_loop (now : Z) (cookies : list Cookie.t) :
  ∀ st,
    (hasExpiredCookies st = true → (0 < totalWithExpiration st)%nat) →
    let final := fold_left (expiryStepAll now) cookies st in
    hasExpiredCookies final
      = hasExpiredCookies st || existsb (expiredAnywhere now) cookies
    ∧ (hasExpiredCookies final = true → (0 < totalWithExpiration final)%nat).
Proof.
  induction cookies as [|c cookies IH]; intros st Hst; simpl.
  - by rewrite orb_false_r.
  - assert (hasExpiredCookies (expiryStepAll now st c)
            = hasExpiredCookies st || expiredAnywhere now c
            ∧ (hasExpiredCookies (expiryStepAll now st c) = true →
               (0 < totalWithExpiration (expiryStepAll now st c))%nat)) as [Hstep Htot].
    { unfold expiryStepAll, expiredAnywhere.
      destruct (expiration c) as [e|]; [|by rewrite orb_false_r].
      destruct (isPast now e); simpl;
        [rewrite orb_true_r|rewrite orb_false_r]; split; try done; lia. }
    destruct (IH (expiryStepAll now st c) Htot) as [Hhas Hfinal].
    split; [|exact Hfinal].
    by rewrite Hhas, Hstep, orb_assoc.
Qed.

(** The check over all domains answers [true] for a merged set exactly
    when some cookie of it has an expiration timestamp that is not zero as
    a double and whose instant, the double product of the timestamp and
    1000 as a [Date], is before the evaluation time. *)
Theorem isCookieExpired_iff (cookieData : Merged.t) (now : Z) :
  isCookieExpired (Some cookieData) now = true
  ↔ ∃ cookie e t,
      cookie ∈ Merged.cookies cookieData
      ∧ Cookie.expirationDate cookie = Some e ∧ (∀ sign, toDouble e ≠ S754_zero sign)
      ∧ timeValue (SFmul 53 1024 (toDouble e) (S754_finite false 1000 0)) = Some t
      ∧ (t < now)%Z.
Proof.
  unfold isCookieExpired.
  destruct (expiryStepAll_loop now (Merged.cookies cookieData)
              (mkExpiry false 0 0 []) ltac:(done)) as [Hhas Htot].
  cbn zeta in Hhas, Htot. simpl in Hhas. split.
  - intros [Hex _]%andb_true_iff. rewrite Hhas in Hex.
    apply existsb_exists in Hex as (c & Hin & Hc).
    unfold expiredAnywhere, isPast in Hc.
    destruct (expiration c) as [e|] eqn:He; [|done].
    apply expiration_Some in He as [He Hne].
    destruct (expireTime e) as [t|] eqn:Ht; [|done].
    exists c, e, t. apply Z.ltb_lt in Hc. split_and!; try done. by apply list_elem_of_In.
  - intros (c & e & t & Hin & He & Hne & Ht & Hlt).
    assert (existsb (expiredAnywhere now) (Merged.cookies cookieData) = true) as Hex.
    { apply existsb_exists. exists c. split; [by apply list_elem_of_In|].
      unfold expiredAnywhere, isPast, expireTime, times1000.
      rewrite (proj2 (expiration_Some c e) (conj He Hne)), Ht. by apply Z.ltb_lt. }
    rewrite <- Hhas in Hex. rewrite Hex. simpl.
    apply Nat.ltb_lt, Htot, Hex.
Qed.

(** A merged set found expired for some host name is found expired by
    the check over all domains. *)
Theorem isCookieExpiredForDomain_isCookieExpired (cookieData : Merged.t)
    (hostname : string) (now : Z) :
  isCookieExpiredForDomain cookieData hostname now = true →
  isCookieExpired (Some cookieData) now = true.
Proof.
  unfold isCookieExpiredForDomain, isCookieExpired.
  destruct (Str.nonempty hostname); [|done].
  destruct (expiry_loop now (cleanHostOf hostname) (Merged.cookies cookieData)
              (mkExpiry false 0 0 []) ltac:(done)) as [Hdom _].
  destruct (expiryStepAll_loop now (Merged.cookies cookieData)
              (mkExpiry false 0 0 []) ltac:(done)) as [Hall Htot].
  cbn zeta in Hdom, Hall, Htot. simpl in Hdom, Hall.
  intros [Hex _]%andb_true_iff. rewrite Hdom in Hex.
  apply existsb_exists in Hex as (c & Hin & Hc).
  assert (existsb (expiredAnywhere now) (Merged.cookies cookieData) = true) as Hex.
  { apply existsb_exists. exists c. split; [done|].
    unfold expiredHere in Hc. unfold expiredAnywhere.
    destruct (Cookie.domain c); [|done].
    destruct (expiration c); [|done].
    by apply andb_true_iff in Hc as [_ Hc]. }
  rewrite <- Hall in Hex. rewrite Hex. simpl.
  apply Nat.ltb_lt, Htot, Hex.
Qed.

Lemma isCookieExpiredForDomain_isCookieExpired_example :
  isCookieExpired
    (Some (Merged.mk [exampleCookie "sid" "1" ".example.com" (Some 1700000000%Q)] ∅))
    1800000000000 = true.
Proof.
  apply (isCookieExpiredForDomain_isCookieExpired _ "sub.example.com").
  reflexivity.
Defined.

(** ** The snapshot file of one domain *)

Section ReverseFacts.







Lemma stripPrefix_Some (p s rest : string) :
  Str.stripPrefix p s = Some rest ↔ s = p +:+ rest.
Proof.
  revert s. induction p as [|a p IH]; intros s.
  - rewrite append_nil. destruct s; simpl; split; congruence.
  - rewrite append_cons. destruct s as [|b s]; simpl; [split; congruence|].
    destruct (Ascii.eqb_spec a b) as [->|Hne].
    + rewrite IH. split; congruence.
    + split; congruence.
Qed.

Lemma stripPrefix_append (p rest : string) : Str.stripPrefix p (p +:+ rest) = Some rest.
Proof. by apply stripPrefix_Some. Qed.



End ReverseFacts.



Lemma insertByTime_cons (x : MatchingFile.t) (sorted : list MatchingFile.t) :
  ∃ h t, insertByTime x sorted = h :: t.
Proof.
  destruct sorted as [|y rest]; simpl; [by eexists _, _|].
  destruct (_ <=? _)%Z; by eexists _, _.
Qed.

Lemma sortNewestFirst_nil (l : list MatchingFile.t) :
  sortNewestFirst l = [] ↔ l = [].
Proof.
  split; [|by intros ->].
  destruct l as [|x l]; [done|]. simpl.
  destruct (insertByTime_cons x (sortNewestFirst l)) as (h & t & ->). done.
Qed.

Section CookieLookupFacts.

Variable COOKIE_DIR : string.

Lemma matchFile_Some (domain : string) (file : string * Z) (m : MatchingFile.t) :
  matchFile COOKIE_DIR domain file = Some m →
  matchesDomain domain file.1 = true
  ∧ MatchingFile.path m = COOKIE_DIR +:+ "/" +:+ file.1
  ∧ MatchingFile.modifiedTime m = file.2.
Proof.
  unfold matchFile, matchesDomain.
  destruct (find _ _) as [b|] eqn:Hb; [|done].
  intros [= <-]. split; [|done].
  apply find_some in Hb as [Hin Hb]. apply existsb_exists. by exists b.
Qed.

Lemma matchFile_None (domain : string) (file : string * Z) :
  matchFile COOKIE_DIR domain file = None ↔ matchesDomain domain file.1 = false.
Proof.
  unfold matchFile, matchesDomain.
  destruct (find _ _) as [b|] eqn:Hb.
  - apply find_some in Hb as [Hin Hb]. split; [done|].
    intros Hno. assert (existsb (matchesBaseName file.1) (baseNames domain) = true) as Hex
      by (apply existsb_exists; by exists b).
    congruence.
  - split; [|done]. intros _.
    destruct (existsb _ _) eqn:Hex; [|done].
    apply existsb_exists in Hex as (b & Hin & Hb').
    by rewrite (find_none _ _ Hb b Hin) in Hb'.
Qed.

Lemma omap_matchFile_nil (domain : string) (files : list (string * Z)) :
  omap (matchFile COOKIE_DIR domain) files = []
  ↔ Forall (λ file, matchesDomain domain file.1 = false) files.
Proof.
  induction files as [|file files IH]; [by split; [constructor|]|].
  cbn [omap list_omap]. fold (omap (matchFile COOKIE_DIR domain) files).
  rewrite Forall_cons, <- IH, <- matchFile_None.
  destruct (matchFile COOKIE_DIR domain file); split; try done; by intros [? ?].
Qed.

(** The head of the sorted matches, in terms of the directory: the first
    of the matching files that no matching file is newer than. *)
Lemma sortNewestFirst_head (domain : string) (files : list (string * Z)) :
  ∀ h t,
    sortNewestFirst (omap (matchFile COOKIE_DIR domain) files) = h :: t →
    ∃ pre file post,
      files = pre ++ file :: post
      ∧ matchFile COOKIE_DIR domain file = Some h
      ∧ Forall (λ other, matchesDomain domain other.1 = true →
                         (other.2 < file.2)%Z) pre
      ∧ Forall (λ other, matchesDomain domain other.1 = true →
                         (other.2 <= file.2)%Z) post.
Proof.
  induction files as [|y files IH]; intros h t; [done|].
  cbn [omap list_omap]. fold (omap (matchFile COOKIE_DIR domain) files).
  destruct (matchFile COOKIE_DIR domain y) as [m|] eqn:Hy.
  - cbn [sortNewestFirst foldr].
    fold (sortNewestFirst (omap (matchFile COOKIE_DIR domain) files)).
    destruct (matchFile_Some _ _ _ Hy) as (_ & _ & Hm).
    destruct (sortNewestFirst (omap (matchFile COOKIE_DIR domain) files))
      as [|h0 t0] eqn:Hsort.
    + intros [= <- <-]. exists [], y, files. split_and!; try done.
      apply sortNewestFirst_nil, omap_matchFile_nil in Hsort.
      eapply Forall_impl; [exact Hsort|]. simpl. intros other Hno Hyes. congruence.
    + destruct (IH h0 t0 eq_refl) as (pre & file & post & -> & Hfile & Hpre & Hpost).
      destruct (matchFile_Some _ _ _ Hfile) as (_ & _ & Hh0).
      cbn [insertByTime]. rewrite Hm, Hh0.
      destruct (file.2 <=? y.2)%Z eqn:Hcmp.
      * apply Z.leb_le in Hcmp. intros [= <- <-].
        exists [], y, (pre ++ file :: post). split_and!; try done.
        apply Forall_app. split; [|apply Forall_cons; split].
        -- eapply Forall_impl; [exact Hpre|]. simpl. intros other Ho Hyes.
           specialize (Ho Hyes). lia.
        -- done.
        -- eapply Forall_impl; [exact Hpost|]. simpl. intros other Ho Hyes.
           specialize (Ho Hyes). lia.
      * apply Z.leb_gt in Hcmp. intros [= <- <-].
        exists (y :: pre), file, post. split_and!; try done.
        apply Forall_cons. split; [done|exact Hpre].
  - intros Hsort.
    destruct (IH h t Hsort) as (pre & file & post & -> & Hfile & Hpre & Hpost).
    exists (y :: pre), file, post. split_and!; try done.
    apply Forall_cons. split; [|exact Hpre].
    apply matchFile_None in Hy. intros Hyes. congruence.
Qed.

End CookieLookupFacts.

(** A file is found for a domain exactly when the directory exists and
    one of its files matches a base name of the domain. *)
Theorem findCookieFile_found_iff (COOKIE_DIR : string)
    (cookieDir : option (list (string * Z))) (domain : string) :
  is_Some (findCookieFile COOKIE_DIR cookieDir domain)
  ↔ Exists (λ file, matchesDomain domain file.1 = true) (default [] cookieDir).
Proof.
  unfold findCookieFile. destruct cookieDir as [files|]; simpl.
  - destruct (sortNewestFirst _) as [|h t] eqn:Hsort.
    + apply sortNewestFirst_nil, omap_matchFile_nil in Hsort. split.
      * by intros [? ?].
      * intros (file & Hin & Hyes)%Exists_exists.
        rewrite Forall_forall in Hsort. specialize (Hsort file Hin). congruence.
    + split; [intros _|by eexists].
      apply sortNewestFirst_head in Hsort
        as (pre & file & post & -> & Hfile & _).
      apply Exists_exists. exists file. split; [set_solver|].
      by apply matchFile_Some in Hfile as [? _].
  - split; [by intros [? ?]|by intros ?%Exists_nil].
Qed.

(** The file found is one of the directory that matches the domain, and
    no matching file is newer; of several newest files it is the first in
    directory order, the sort being stable. *)
Theorem findCookieFile_latest (COOKIE_DIR : string) (files : list (string * Z))
    (domain filePath : string) :
  findCookieFile COOKIE_DIR (Some files) domain = Some filePath →
  ∃ pre name time post,
    files = pre ++ (name, time) :: post
    ∧ filePath = COOKIE_DIR +:+ "/" +:+ name
    ∧ matchesDomain domain name = true
    ∧ Forall (λ other, matchesDomain domain other.1 = true → (other.2 < time)%Z) pre
    ∧ Forall (λ other, matchesDomain domain other.1 = true → (other.2 <= time)%Z) post.
Proof.
  unfold findCookieFile.
  destruct (sortNewestFirst _) as [|h t] eqn:Hsort; [done|].
  intros [= <-].
  apply sortNewestFirst_head in Hsort
    as (pre & [name time] & post & -> & Hfile & Hpre & Hpost).
  destruct (matchFile_Some _ _ _ _ Hfile) as (Hyes & Hpath & _).
  exists pre, name, time, post. split_and!; done.
Qed.

Lemma findCookieFile_latest_example :
  ∃ pre name time post,
    [ ("example.com_cookies.json", 100%Z); ("other.org_cookies.json", 900%Z);
      ("www.example.com_cookies (2).json", 300%Z); ("example.com_cookies (1).json", 300%Z) ]
    = pre ++ (name, time) :: post
    ∧ "/data/cookies/www.example.com_cookies (2).json" = "/data/cookies" +:+ "/" +:+ name
    ∧ matchesDomain "www.example.com" name = true
    ∧ Forall (λ other, matchesDomain "www.example.com" other.1 = true → (other.2 < time)%Z) pre
    ∧ Forall (λ other, matchesDomain "www.example.com" other.1 = true → (other.2 <= time)%Z)
        post.
Proof.
  apply (findCookieFile_latest "/data/cookies" _ "www.example.com").
  reflexivity.
Defined.

Lemma matchesBaseName_saved (prefix : string) :
  matchesBaseName (prefix +:+ "_cookies.json") (prefix +:+ "_cookies") = true.
Proof.
  unfold matchesBaseName.
  change "_cookies.json" with ("_cookies" +:+ ".json").
  by rewrite <- append_assoc, stripPrefix_append.
Qed.

(** Once a snapshot is saved for a domain, a file is found for that
    domain, whatever else the directory holds. *)
Theorem findCookieFile_saved (COOKIE_DIR : string) (files : list (string * Z))
    (domain : string) (time : Z) :
  (savedCookieFile domain, time) ∈ files →
  is_Some (findCookieFile COOKIE_DIR (Some files) domain).
Proof.
  intros Hin. unfold findCookieFile.
  destruct (sortNewestFirst _) as [|h t] eqn:Hsort; [|by eexists].
  apply sortNewestFirst_nil, omap_matchFile_nil in Hsort.
  rewrite Forall_forall in Hsort. specialize (Hsort _ Hin).
  unfold matchesDomain, baseNames, savedCookieFile in Hsort. cbn [fst existsb] in Hsort.
  rewrite matchesBaseName_saved in Hsort.
  by rewrite orb_true_r in Hsort.
Qed.

Lemma findCookieFile_saved_example :
  is_Some (findCookieFile "/data/cookies"
             (Some [("a.org_cookies.json", 5%Z); ("example.com_cookies.json", 7%Z)])
             "www.example.com").
Proof.
  apply (findCookieFile_saved "/data/cookies" _ "www.example.com" 7).
  apply list_elem_of_further, list_elem_of_here.
Defined.





(** ** Browser session: localStorage handed to the page *)

Lemma fold_setItem_changed (entries : list (string * string)) (k : string) :
  ∀ storage,
    fold_left setItem entries storage !! k ≠ storage !! k →
    ∃ v, (k, v) ∈ entries.
Proof.
  induction entries as [|[k' v'] entries IH]; intros storage; simpl; [done|].
  intros Hne.
  destruct (decide (fold_left setItem entries (setItem storage (k', v')) !! k
                    = setItem storage (k', v') !! k)) as [Heq|Hch].
  - rewrite Heq in Hne. unfold setItem in Hne. simpl in Hne.
    destruct (decide (k' = k)) as [->|Hk].
    + exists v'. apply list_elem_of_here.
    + by rewrite lookup_insert_ne in Hne.
  - destruct (IH _ Hch) as [v Hv]. exists v. by apply list_elem_of_further.
Qed.

Lemma fold_buckets_changed (byDomain : Buckets) (candidates : list string) (k : string) :
  ∀ storage,
    fold_left (λ st d, fold_left setItem (bucketEntries byDomain d) st) candidates storage
      !! k ≠ storage !! k →
    ∃ d v, d ∈ candidates ∧ (k, v) ∈ bucketEntries byDomain d.
Proof.
  induction candidates as [|d candidates IH]; intros storage; simpl; [done|].
  intros Hne.
  set (storage' := fold_left setItem (bucketEntries byDomain d) storage) in *.
  destruct (decide (fold_left (λ st d, fold_left setItem (bucketEntries byDomain d) st)
                      candidates storage' !! k = storage' !! k)) as [Heq|Hch].
  - rewrite Heq in Hne. apply fold_setItem_changed in Hne as [v Hv].
    exists d, v. split; [apply list_elem_of_here|done].
  - destruct (IH _ Hch) as (d' & v & Hd' & Hv).
    exists d', v. split; [by apply list_elem_of_further|done].
Qed.

(** The injected script changes a key of the document's [localStorage]
    only when a bucket holds that key, the bucket being stored under a
    name [d] that equals the document's host name or ends it after a dot
    (both without a leading [www.]), where [d] is a domain of [byDomain]
    without its leading [www.]. *)
Theorem injectLocalStorage_scoped (byDomain : Buckets) (hostname : string)
    (storage : gmap string string) (k : string) :
  injectLocalStorage byDomain hostname storage !! k ≠ storage !! k →
  ∃ domain bucket v,
    domain ∈ byDomain.*1
    ∧ domainMatches (Str.removePrefix "www." hostname) (Str.removePrefix "www." domain) = true
    ∧ own_prop (Str.removePrefix "www." domain) byDomain = Some bucket
    ∧ (k, v) ∈ bucket.
Proof.
  unfold injectLocalStorage. cbv zeta.
  intros (d & v & Hd & Hv)%fold_buckets_changed.
  unfold storageCandidates in Hd.
  apply list_elem_of_omap in Hd as (domain & Hdomain & Hmatch).
  cbv zeta in Hmatch.
  destruct (domainMatches _ _) eqn:Hm; [|done]. injection Hmatch as <-.
  unfold bucketEntries in Hv.
  destruct (own_prop _ byDomain) as [bucket|] eqn:Hb; [|by apply elem_of_nil in Hv].
  by exists domain, bucket, v.
Qed.

Lemma injectLocalStorage_scoped_example :
  ∃ domain bucket v,
    domain ∈ [("example.com", [("token", "abc")]); ("other.org", [("token", "zzz")])].*1
    ∧ domainMatches (Str.removePrefix "www." "www.app.example.com")
        (Str.removePrefix "www." domain) = true
    ∧ own_prop (Str.removePrefix "www." domain)
        [("example.com", [("token", "abc")]); ("other.org", [("token", "zzz")])]
      = Some bucket
    ∧ ("token", v) ∈ bucket.
Proof.
  apply (injectLocalStorage_scoped
           [("example.com", [("token", "abc")]); ("other.org", [("token", "zzz")])]
           "www.app.example.com" ∅ "token").
  vm_compute. discriminate.
Defined.

(** ** Content extractor: the extracted HTML *)

Lemma join_nonempty (sep : string) (items : list string) :
  sep ≠ "" →
  Str.join sep items = "" ↔ items = [] ∨ items = [""].
Proof.
  intros Hsep. destruct items as [|x [|y rest]]; simpl.
  - split; [by left|done].
  - split; [intros ->; by right|]. by intros [?|[= ->]].
  - split; [|by intros [?|?]].
    destruct x; [|done]. rewrite append_nil.
    destruct sep; [done|]. done.
Qed.

(** The body of the page is what comes back when there is no selector,
    when the selector matches nothing, or when it matches one element that
    is empty; in every other case the matched elements come back, joined by
    the separator. *)
Theorem extractHtml_fallback (selector : option string) (elements : list string)
    (bodyHtml : string) :
  extractHtml selector elements bodyHtml
  = if present selector && negb (bool_decide (elements = [] ∨ elements = [""]))
    then Str.join hrSeparator elements
    else bodyHtml.
Proof.
  unfold extractHtml, selectedHtml. cbv zeta.
  destruct (present selector); [|done]. simpl.
  case_bool_decide as Hel; simpl.
  - destruct Hel as [->| ->]; done.
  - destruct elements as [|x rest]; [by destruct Hel; left|].
    destruct (Str.join hrSeparator (x :: rest)) eqn:Hj; [|done].
    apply join_nonempty in Hj; done.
Qed.

(** ** Browser session: the scroll loop *)

Lemma scrollLoop_steps (limit : Z) (fuel : nat) :
  ∀ currentPosition,
    (Z.to_nat ((limit - currentPosition + 299) / 300) < fuel)%nat →
    scrollLoop fuel limit currentPosition
    = Some ((λ i : nat, (currentPosition + 300 * Z.of_nat i)%Z)
              <$> seq 0 (Z.to_nat ((limit - currentPosition + 299) / 300))).
Proof.
  induction fuel as [|fuel IH]; intros pos Hfuel; [lia|].
  cbn [scrollLoop].
  destruct (pos <? limit)%Z eqn:Hcmp.
  - apply Z.ltb_lt in Hcmp.
    assert ((limit - pos + 299) / 300 = (limit - (pos + 300) + 299) / 300 + 1)%Z as Hdiv.
    { replace (limit - pos + 299)%Z with ((limit - (pos + 300) + 299) + 1 * 300)%Z by lia.
      by rewrite Z.div_add by lia. }
    assert (0 <= (limit - (pos + 300) + 299) / 300)%Z as Hnonneg
      by (apply Z.div_pos; lia).
    rewrite Hdiv in Hfuel |- *.
    rewrite Z2Nat.inj_add in Hfuel |- * by lia.
    change (Z.to_nat 1) with 1%nat in *. rewrite Nat.add_1_r in Hfuel |- *.
    rewrite IH by lia. cbn [mbind option_bind seq fmap list_fmap].
    f_equal. f_equal; [lia|].
    rewrite <- fmap_S_seq, <- list_fmap_compose.
    apply list_fmap_ext. intros i x _. simpl. lia.
  - apply Z.ltb_ge in Hcmp.
    assert ((limit - pos + 299) / 300 <= 0)%Z as Hzero.
    { apply Z.lt_succ_r, Z.div_lt_upper_bound; lia. }
    by replace (Z.to_nat ((limit - pos + 299) / 300)) with 0%nat by lia.
Qed.

(** The simulated scroll ends: with enough fuel, a page taller than the
    view is scrolled to [0], [300], [600], ... for as long as the position
    is below [scrollHeight - viewportHeight], then back to the top; a page
    that fits the view is not scrolled. *)
Theorem scrollPositions_steps (scrollHeight viewportHeight : Z) (fuel : nat) :
  (Z.to_nat ((scrollHeight - viewportHeight + 299) / 300) < fuel)%nat →
  scrollPositions fuel scrollHeight viewportHeight
  = Some (if (viewportHeight <? scrollHeight)%Z
          then ((λ i : nat, (300 * Z.of_nat i)%Z)
                  <$> seq 0 (Z.to_nat ((scrollHeight - viewportHeight + 299) / 300)))
               ++ [0%Z]
          else []).
Proof.
  intros Hfuel. unfold scrollPositions.
  destruct (viewportHeight <? scrollHeight)%Z; [|done].
  rewrite scrollLoop_steps by (by rewrite Z.sub_0_r).
  by rewrite Z.sub_0_r.
Qed.

Lemma scrollPositions_steps_example :
  scrollPositions 10 1500 768 = Some [0; 300; 600; 0]%Z.
Proof.
  apply (scrollPositions_steps 1500 768 10). vm_compute. lia.
Defined.

(** ** Credential store: where the merged localStorage comes from *)

(** In a scan none of whose files makes [Object.assign] reach
    [Object.prototype] or a built-in function, the merge invents no
    localStorage: every bucket of the merged set sits under a name that is
    not empty and that no object inherits, and every entry of a bucket is an
    entry of the [localStorage] of a scanned file whose name gives that
    domain. *)
Theorem mergedBuckets_from_files (files : list CookieFile) :
  Forall (λ file, assignsToBuiltin file = false) files →
  ∃ st,
    mergeFiles files = Returns st
    ∧ map_Forall
        (λ d bucket,
           d ≠ "" ∧ is_inherited d = false
           ∧ map_Forall
               (λ k v, ∃ file data ls,
                         file ∈ files ∧ file.2 = Some data
                         ∧ Snapshot.localStorage data = Some ls
                         ∧ sourceDomain file.1 = Some d ∧ ls !! k = Some v)
               bucket)
        (Merged.localStorageByDomain (merged st)).
Proof.
  intros [st Hst]%mergeFiles_Returns_iff. exists st. split; [done|].
  apply mergeFiles_Returns in Hst as (_ & -> & _).
  intros d bucket Hd.
  destruct (scanDelta_domain files d) as [Hne Hinh]; [by eexists|].
  split_and!; try done.
  intros k v Hk. by apply (scanDelta_lookup files d k v bucket).
Qed.

Lemma mergedBuckets_from_files_example :
  let files : list CookieFile :=
    [ ("www.x.com_cookies.json", snapshotOf [] [("token", "old"); ("lang", "en")]);
      ("constructor_cookies.json", snapshotOf [] []);
      ("x.com_cookies (1).json", snapshotOf [] [("token", "new")]) ] in
  ∃ st,
    mergeFiles files = Returns st
    ∧ map_Forall
        (λ d bucket,
           d ≠ "" ∧ is_inherited d = false
           ∧ map_Forall
               (λ k v, ∃ file data ls,
                         file ∈ files ∧ file.2 = Some data
                         ∧ Snapshot.localStorage data = Some ls
                         ∧ sourceDomain file.1 = Some d ∧ ls !! k = Some v)
               bucket)
        (Merged.localStorageByDomain (merged st)).
Proof.
  intros files. apply (mergedBuckets_from_files files). repeat constructor.
Defined.

